(** * gominesweeper: the board engine of [main.go], embedded and verified

    The Go program keeps one [Board] that its methods mutate in place.  The
    embedding passes the board explicitly, and every method that indexes
    [b.Cells] returns a [res]: [Ok] with its value, [Panic] where the Go
    runtime would raise an index-out-of-range (or negative [make]) panic, and
    [Timeout] where the fuel given to the recursive [RevealCell] ran out. *)

From stdpp Require Import base option list numbers relations strings pretty.
Set Default Proof Using "Type".
Local Open Scope Z_scope.

(** ** Outcomes of a method call *)

Inductive res (A : Type) : Type :=
  | Ok (a : A)
  | Panic
  | Timeout.

Arguments Ok {A} a.

Arguments Panic {A}.

Arguments Timeout {A}.

Global Instance res_bind : MBind res := λ A B k m,
  match m with
  | Ok a => k a
  | Panic => Panic
  | Timeout => Timeout
  end.

(** A loop [for _, a := range l { body }] over a board that the body mutates. *)
Fixpoint forM {A S : Type} (l : list A) (body : A → S → res S) (s : S) : res S :=
  match l with
  | [] => Ok s
  | a :: l' => s' ← body a s ; forM l' body s'
  end.

(** ** Data model: [type Cell struct] and [type Board struct] *)

Record Cell : Type := mkCell {
  IsMine : bool;
  AdjMines : Z;
  Revealed : bool;
  Flagged : bool
}.

Record Board : Type := mkBoard {
  Width : Z;
  Height : Z;
  Cells : list (list Cell)
}.

(** The zero value of [Cell], which [make([]Cell, width)] fills a row with. *)
Definition zeroCell : Cell := mkCell false 0 false false.

Global Instance Cell_eq_dec : EqDecision Cell.
Proof. solve_decision. Defined.

Global Instance Board_eq_dec : EqDecision Board.
Proof. solve_decision. Defined.

(** Go's [int] is 64 bits wide on the platforms the program targets; products
    wrap around. *)
Definition max_int : Z := 2 ^ 63 - 1.

Definition wrap (z : Z) : Z := (z + 2 ^ 63) `mod` 2 ^ 64 - 2 ^ 63.

(** ** Indexing [b.Cells[y][x]] *)

(** A Go slice index: negative or too large panics. *)
Definition index {A : Type} (l : list A) (i : Z) : res A :=
  if bool_decide (0 ≤ i) then
    match l !! Z.to_nat i with
    | Some a => Ok a
    | None => Panic
    end
  else Panic.

(** Read of [b.Cells[y][x]]. *)
Definition cellAt (b : Board) (x y : Z) : res Cell :=
  row ← index (Cells b) y ; index row x.

(** In-place write [b.Cells[y][x].field = v], as the update [f] of the cell. *)
Definition updCell (f : Cell → Cell) (x y : Z) (b : Board) : res Board :=
  row ← index (Cells b) y;
  c ← index row x;
  Ok (mkBoard (Width b) (Height b)
        (<[Z.to_nat y := <[Z.to_nat x := f c]> row]> (Cells b))).

Definition setMine (c : Cell) : Cell :=
  mkCell true (AdjMines c) (Revealed c) (Flagged c).

Definition setAdjMines (n : Z) (c : Cell) : Cell :=
  mkCell (IsMine c) n (Revealed c) (Flagged c).

Definition setRevealed (c : Cell) : Cell :=
  mkCell (IsMine c) (AdjMines c) true (Flagged c).

Definition toggleFlagged (c : Cell) : Cell :=
  mkCell (IsMine c) (AdjMines c) (Revealed c) (negb (Flagged c)).

(** ** [isValidCell] *)

Definition isValidCell (b : Board) (x y : Z) : bool :=
  bool_decide (x >= 0) && bool_decide (x < Width b) &&
  bool_decide (y >= 0) && bool_decide (y < Height b).

(** ** [countAdjMines] *)

Definition offsets : list Z := [-1; 0; 1].

(** The pairs [(i, j)] in the order the two nested loops visit them. *)
Definition offsetPairs : list (Z * Z) :=
  i ← offsets; j ← offsets; [(i, j)].

Definition countAdjMines (b : Board) (x y : Z) : res Z :=
  forM offsetPairs (λ '(i, j) count,
    if bool_decide (i = 0) && bool_decide (j = 0) then Ok count
    else
      let adjX := x + i in
      let adjY := y + j in
      if isValidCell b adjX adjY then
        c ← cellAt b adjX adjY;
        if IsMine c then Ok (count + 1) else Ok count
      else Ok count) 0.

(** ** [calculateAdjMines] *)

(** [for x := range b.Cells[y]]: the range expression is evaluated once, so
    the indices are those of the row as it is when the inner loop starts. *)
Definition calculateAdjMinesRow (y : nat) (b : Board) : res Board :=
  row ← index (Cells b) (Z.of_nat y);
  forM (seq 0 (length row)) (λ x b,
    c ← cellAt b (Z.of_nat x) (Z.of_nat y);
    if negb (IsMine c) then
      n ← countAdjMines b (Z.of_nat x) (Z.of_nat y);
      updCell (setAdjMines n) (Z.of_nat x) (Z.of_nat y) b
    else Ok b) b.

Definition calculateAdjMines (b : Board) : res Board :=
  forM (seq 0 (length (Cells b))) calculateAdjMinesRow b.

(** ** [placeMines] *)

(** [make([]T, n)], every element the zero value; a negative length panics. *)
Definition makeSlice {A : Type} (zero : A) (n : Z) : res (list A) :=
  if bool_decide (n < 0) then Panic else Ok (replicate (Z.to_nat n) zero).

(** The closure handed to [rand.Shuffle]:
    [positions[i], positions[j] = positions[j], positions[i]]. *)
Definition swap {A : Type} (i j : nat) (l : list A) : res (list A) :=
  pj ← index l (Z.of_nat j);
  pi ← index l (Z.of_nat i);
  Ok (<[j := pi]> (<[i := pj]> l)).

(** [rand.Shuffle(n, swap)] of math/rand: for [i] from [n-1] down to [1] it
    draws [j] uniformly in [0, i] and calls [swap(i, j)].  The random source
    is the function [rnd]: [rnd i] is the raw draw of step [i], reduced into
    [0, i] as [Intn] does.  The loop is written on the number of steps that
    remain, so that step [k] of [Shuffle (S k)] has [i = k]. *)
Fixpoint shuffleFrom {A : Type} (rnd : nat → nat) (k : nat) (l : list A)
    : res (list A) :=
  match k with
  | O => Ok l
  | S i =>
    match i with
    | O => Ok l
    | S _ => l' ← swap i (rnd i `mod` S i)%nat l; shuffleFrom rnd i l'
    end
  end.

Definition Shuffle {A : Type} (rnd : nat → nat) (l : list A) : res (list A) :=
  shuffleFrom rnd (length l) l.

(** All coordinate pairs [{x, y}], row by row, as the two loops append them. *)
Definition allPositions (b : Board) : list (Z * Z) :=
  y ← seqZ 0 (Height b); x ← seqZ 0 (Width b); [(x, y)].

Definition placeMines (rnd : nat → nat) (mines : Z) (b : Board) : res Board :=
  let availableCells := wrap (Width b * Height b) in
  let maxMines := wrap (availableCells * 5) `quot` 9 in
  let mines := if bool_decide (mines > maxMines) then maxMines else mines in
  if bool_decide (availableCells < 0) then Panic else
  let positions := allPositions b in
  positions ← Shuffle rnd positions;
  forM (seqZ 0 mines) (λ i b,
    '(x, y) ← index positions i;
    updCell setMine x y b) b.

(** ** [NewBoard] *)

Definition NewBoard (rnd : nat → nat) (width height mines : Z) : res Board :=
  cells ← makeSlice [] height;
  cells ← forM (seq 0 (length cells)) (λ i cells,
             row ← makeSlice zeroCell width;
             Ok (<[i := row]> cells)) cells;
  b ← placeMines rnd mines (mkBoard width height cells);
  calculateAdjMines b.

(** ** [RevealCell] *)

(** The recursion of [RevealCell] is not structural: [fuel] bounds its depth.
    The board is threaded through the nine recursive calls of the two loops
    (the call at offset [(0, 0)] included), whose results are dropped. *)
Fixpoint RevealCellRec (fuel : nat) (x y : Z) (b : Board) : res (bool * Board) :=
  match fuel with
  | O => Timeout
  | S fuel' =>
    if negb (isValidCell b x y) then Ok (false, b) else
    c ← cellAt b x y;
    if Revealed c then Ok (false, b) else
    b ← updCell setRevealed x y b;
    c ← cellAt b x y;
    if IsMine c then Ok (true, b) else
    c ← cellAt b x y;
    if bool_decide (AdjMines c = 0) then
      b ← forM offsetPairs (λ '(i, j) b,
             '(_, b) ← RevealCellRec fuel' (x + i) (y + j) b; Ok b) b;
      Ok (false, b)
    else Ok (false, b)
  end.

(** Number of cells on which [p] holds. *)
Definition countCells (p : Cell → bool) (b : Board) : nat :=
  sum_list ((λ row : list Cell, length (filter (λ c, p c = true) row)) <$> Cells b).

(** Number of cells that are not revealed: the depth of the recursion never
    exceeds it ([RevealCellRec_total] below), so one more is fuel enough. *)
Definition unrevealed (b : Board) : nat := countCells (λ c, negb (Revealed c)) b.

Definition RevealCell (x y : Z) (b : Board) : res (bool * Board) :=
  RevealCellRec (S (unrevealed b)) x y b.

(** ** [FlagCell] *)

Definition FlagCell (x y : Z) (b : Board) : res Board :=
  if negb (isValidCell b x y) then Ok b else
  c ← cellAt b x y;
  if Revealed c then Ok b else
  updCell toggleFlagged x y b.

(** ** [CheckWin] *)

(** The two [range] loops return [false] at the first safe cell that is not
    revealed, and [true] when they run to the end. *)
Definition CheckWin (b : Board) : bool :=
  forallb (λ row,
    forallb (λ cell, negb (negb (IsMine cell) && negb (Revealed cell))) row)
    (Cells b).

(** ** [PrintBoard] and [PrintBoardDebug]

    The text written to standard output, one string per line printed. *)
Definition PrintBoard (showMines : bool) (b : Board) : list string :=
  (λ row : list Cell,
     foldr String.append ""
       ((λ cell : Cell,
           if Revealed cell then
             if IsMine cell then "* " else pretty (AdjMines cell) +:+ " "
           else if Flagged cell then "F "
           else if showMines && IsMine cell then "M "
           else ". ") <$> row)) <$> Cells b.

Definition PrintBoardDebug (b : Board) : list string :=
  (λ row : list Cell,
     foldr String.append ""
       ((λ cell : Cell,
           if IsMine cell then "* " else pretty (AdjMines cell) +:+ " ") <$> row))
  <$> Cells b.

(** ** The game loop of [main]

    What the loop does to the board: after [NewBoard], each command calls
    [RevealCell] (and then [CheckWin]) or [FlagCell].  A session is a list
    of such calls. *)
Inductive Op : Type :=
  | OpReveal (x y : Z)
  | OpFlag (x y : Z)
  | OpCheckWin.

Definition runOp (op : Op) (b : Board) : res Board :=
  match op with
  | OpReveal x y => '(_, b') ← RevealCell x y b; Ok b'
  | OpFlag x y => FlagCell x y b
  | OpCheckWin => let _ := CheckWin b in Ok b
  end.

Definition runOps (ops : list Op) (b : Board) : res Board := forM ops runOp b.

(** ** [GameOver] *)

Definition GameOver (showMines : bool) (b : Board) : list string :=
  "Game over!" :: PrintBoard showMines b.

(** ** One iteration of the loop of [main]

    [turn input b] is the body of the [for] loop, from the first
    [board.PrintBoard(false)] to the [continue], the end of the body or the
    [goto End], for the line [input] that [scanner.Text()] returns (the empty
    string at the end of the input).  It gives the lines printed, the board,
    and whether the loop goes on ([true]) or jumps to [End] ([false]).
    The library functions [strings.Fields] and [strconv.Atoi] are parameters
    ([Atoi] gives [None] where [err != nil]); [x -= 1] wraps around as an
    [int] does. *)
Definition CmdReveal : string := "reveal".
Definition CmdFlag : string := "flag".
Definition CmdQuit : string := "quit".

Definition prompt : list string :=
  ["Coordinates are a 1-based index. (1, 1) is the top-left corner.";
   "Enter your move in the format 'cmd x y' (cmd: reveal, flag), or type 'quit' to exit:"].

Section Loop.
Variable Fields : string → list string.
Variable Atoi : string → option Z.

Definition turn (input : string) (b : Board) : res (list string * Board * bool) :=
  let out := PrintBoard false b ++ prompt in
  let parts := Fields input in
  if bool_decide (length parts = 0%nat) then Ok (out, b, true) else
  cmd ← index parts 0;
  if bool_decide (cmd = CmdQuit) then
    Ok (out ++ PrintBoard true b ++ ["Quit game."], b, false)
  else if bool_decide (length parts ≠ 3%nat) then
    Ok (out ++ ["Invalid input. Please enter a command followed by two integers."],
        b, true)
  else
  p1 ← index parts 1;
  match Atoi p1 with
  | None => Ok (out ++ ["Invalid x coordinate. Please enter an integer."], b, true)
  | Some x =>
    p2 ← index parts 2;
    match Atoi p2 with
    | None => Ok (out ++ ["Invalid y coordinate. Please enter an integer."], b, true)
    | Some y =>
      let x := wrap (x - 1) in
      let y := wrap (y - 1) in
      if negb (isValidCell b x y) then
        Ok (out ++ ["Invalid coordinates. Please try again."], b, true)
      else if bool_decide (cmd = CmdReveal) then
        r ← RevealCell x y b;
        let '(hit, b) := (r : bool * Board) in
        if hit then
          Ok (out ++ PrintBoard true b ++ ["You hit a mine! Game over!"], b, false)
        else if CheckWin b then
          Ok (out ++ PrintBoard true b ++ ["Congratulations, you won!"], b, false)
        else Ok (out, b, true)
      else if bool_decide (cmd = CmdFlag) then
        b ← FlagCell x y b; Ok (out, b, true)
      else
        Ok (out ++ ["Invalid command. Please use 'reveal' or 'flag'."], b, true)
    end
  end.

(** The loop on the lines of the input, as far as they go: it stops at the
    first [goto End]. *)
Fixpoint play (inputs : list string) (b : Board) : res (list string * Board * bool) :=
  match inputs with
  | [] => Ok ([], b, true)
  | input :: inputs' =>
    r ← turn input b;
    let '(out, b, again) := (r : list string * Board * bool) in
    if again then
      r' ← play inputs' b;
      let '(out', b, again) := (r' : list string * Board * bool) in
      Ok (out ++ out', b, again)
    else Ok (out, b, false)
  end.

(** [main] up to the label [End]: a 3 by 3 board with 5 hazards requested,
    then the loop. *)
Definition mainLoop (rnd : nat → nat) (inputs : list string)
    : res (list string * Board * bool) :=
  let '(width, height, mines) := (3, 3, 5) in
  board ← NewBoard rnd width height mines;
  play inputs board.
End Loop.

(** * Vocabulary of the properties *)

(** ** Well-formed boards

    [NewBoard] builds [Height] rows of [Width] cells and no method changes a
    length, so that [isValidCell] guards every index. *)
Definition wf (b : Board) : Prop :=
  Z.of_nat (length (Cells b)) = Height b ∧
  ∀ row, row ∈ Cells b → Z.of_nat (length row) = Width b.

(** ** Runs of [RevealCell] *)

(** The nine recursive calls of one call of [RevealCell] at [(x, y)], on
    the list of offsets still to visit. *)
Definition revealLoop (fuel : nat) (x y : Z) (l : list (Z * Z)) (b : Board)
    : res Board :=
  forM l (λ '(i, j) b, '(_, b) ← RevealCellRec fuel (x + i) (y + j) b; Ok b) b.

(** The five ways a call with fuel left can end. *)
Inductive revealCase (fuel : nat) (x y : Z) (b : Board) : res (bool * Board) → Prop :=
  | case_invalid :
      isValidCell b x y = false → revealCase fuel x y b (Ok (false, b))
  | case_panic :
      isValidCell b x y = true → cellAt b x y = Panic →
      revealCase fuel x y b Panic
  | case_revealed c :
      isValidCell b x y = true → cellAt b x y = Ok c → Revealed c = true →
      revealCase fuel x y b (Ok (false, b))
  | case_mine c b1 :
      isValidCell b x y = true → cellAt b x y = Ok c → Revealed c = false →
      updCell setRevealed x y b = Ok b1 → IsMine c = true →
      revealCase fuel x y b (Ok (true, b1))
  | case_number c b1 :
      isValidCell b x y = true → cellAt b x y = Ok c → Revealed c = false →
      updCell setRevealed x y b = Ok b1 → IsMine c = false → AdjMines c ≠ 0 →
      revealCase fuel x y b (Ok (false, b1))
  | case_zero c b1 :
      isValidCell b x y = true → cellAt b x y = Ok c → Revealed c = false →
      updCell setRevealed x y b = Ok b1 → IsMine c = false → AdjMines c = 0 →
      revealCase fuel x y b (b2 ← revealLoop fuel x y offsetPairs b1; Ok (false, b2)).

(** The runs of the recursive calls of one call at [(x, y)], each starting
    on the board the previous one left, and each satisfying [P]. *)
Inductive chain (P : Z → Z → Board → bool → Board → Prop) (x y : Z)
    : list (Z * Z) → Board → Board → Prop :=
  | chain_nil b : chain P x y [] b b
  | chain_cons fuel i j l b r b1 b2 :
      RevealCellRec fuel (x + i) (y + j) b = Ok (r, b1) →
      P (x + i) (y + j) b r b1 → chain P x y l b1 b2 →
      chain P x y ((i, j) :: l) b b2.

(** Two equations on the same call or lookup name the same result. *)
Ltac same_lhs :=
  repeat match goal with
  | H1 : ?a = _, H2 : ?a = _ |- _ => rewrite H1 in H2; simplify_eq
  end.

(** ** What a run of [RevealCell] may change

    [evolves b b']: the boards have the same dimensions and each cell of [b']
    is the cell of [b], or that cell with [Revealed] set. *)
Definition evolves (b b' : Board) : Prop :=
  Width b' = Width b ∧ Height b' = Height b ∧ (wf b → wf b') ∧
  ∀ u v, cellAt b' u v = cellAt b u v ∨
         ∃ c, cellAt b u v = Ok c ∧ cellAt b' u v = Ok (setRevealed c).

(** ** The cells a run reveals *)

(** Chebyshev distance at most 1: the cell itself and its eight neighbours. *)
Definition adj8 (p q : Z * Z) : Prop :=
  Z.abs (q.1 - p.1) ≤ 1 ∧ Z.abs (q.2 - p.2) ≤ 1.

(** A safe cell whose stored count is zero: where the cascade goes on. *)
Definition zeroAt (b : Board) (p : Z * Z) : Prop :=
  ∃ c, cellAt b p.1 p.2 = Ok c ∧ IsMine c = false ∧ AdjMines c = 0.

Definition zstep (b : Board) (p q : Z * Z) : Prop :=
  zeroAt b p ∧ adj8 p q ∧ zeroAt b q.

(** The 8-connected component of zero-count cells that contains [s]: the
    cells linked to [s] by a path of adjacent zero-count cells.  It is
    connected by construction and maximal: a zero-count cell adjacent to one
    of its cells belongs to it ([region_maximal]). *)
Definition region (b : Board) (s q : Z * Z) : Prop :=
  zeroAt b s ∧ rtc (zstep b) s q.

(** The cells of the board that are the neighbour of a cell of the region
    and carry a nonzero count. *)
Definition border (b : Board) (s q : Z * Z) : Prop :=
  (∃ p, region b s p ∧ adj8 p q) ∧
  ∃ c, cellAt b q.1 q.2 = Ok c ∧ AdjMines c ≠ 0.

(** The target of a call, and the cells within distance 1 of the region. *)
Definition fillSet (b : Board) (s q : Z * Z) : Prop :=
  q = s ∨ ∃ p, region b s p ∧ adj8 p q.

(** ** The closure invariant

    A revealed zero-count safe cell is [bad] while one of its neighbours is
    not revealed.  Between top-level calls no cell is bad. *)
Definition bad (b : Board) (p : Z * Z) : Prop :=
  ∃ c, cellAt b p.1 p.2 = Ok c ∧ Revealed c = true ∧
       IsMine c = false ∧ AdjMines c = 0 ∧
       ∃ q cq, adj8 p q ∧ cellAt b q.1 q.2 = Ok cq ∧ Revealed cq = false.

Definition closed (b : Board) : Prop := ∀ p, ¬ bad b p.

(** ** Construction: allocation *)

(** The board [NewBoard] hands to [placeMines]. *)
Definition emptyBoard (width height : Z) : Board :=
  mkBoard width height
    (replicate (Z.to_nat height) (replicate (Z.to_nat width) zeroCell)).

(** ** Construction: [placeMines] *)

(** Cells as [make] left them, but for [IsMine]. *)
Definition pristine (b : Board) : Prop :=
  ∀ x y c, cellAt b x y = Ok c →
    AdjMines c = 0 ∧ Revealed c = false ∧ Flagged c = false.

(** Number of hazards on the board. *)
Definition mineCount (b : Board) : nat := countCells IsMine b.

(** What [mines] becomes after the cap, when the products do not overflow. *)
Definition effectiveMines (width height mines : Z) : Z :=
  Z.max 0 (Z.min mines (width * height * 5 / 9)).

(** ** Construction: adjacency counts *)

(** Whether [(x, y)] is a cell of the board that holds a hazard. *)
Definition mineAt (b : Board) (x y : Z) : bool :=
  match cellAt b x y with
  | Ok c => IsMine c
  | _ => false
  end.

Definition chebyshev (p q : Z * Z) : Z :=
  Z.max (Z.abs (q.1 - p.1)) (Z.abs (q.2 - p.2)).

(** The number of hazard cells of the board at Chebyshev distance 1 of
    [(x, y)], counted over the cells of the board and not over offsets. *)
Definition hazardNeighbours (b : Board) (x y : Z) : nat :=
  length (filter (λ q, chebyshev (x, y) q = 1 ∧ mineAt b q.1 q.2 = true)
                 (allPositions b)).

(** The count as the loops of [countAdjMines] build it. *)
Definition adjCount (b : Board) (x y : Z) : nat :=
  length (filter (λ ij : Z * Z, ij ≠ (0, 0) ∧ mineAt b (x + ij.1) (y + ij.2) = true)
                 offsetPairs).

(** The cell [calculateAdjMines] leaves at [(x, y)], from the cell [c] and
    the board [b0] it started with. *)
Definition withCount (b0 : Board) (x y : Z) (c : Cell) : Cell :=
  if IsMine c then c else setAdjMines (Z.of_nat (adjCount b0 x y)) c.

(** The board while the loops run: the cells already visited hold their
    count, the others are untouched. *)
Definition counted (b0 : Board) (done : Z → Z → bool) (b : Board) : Prop :=
  wf b ∧ Width b = Width b0 ∧ Height b = Height b0 ∧
  ∀ x y c, cellAt b0 x y = Ok c →
    cellAt b x y = Ok (if done x y then withCount b0 x y c else c).

(** ** Two boards side by side *)

Definition resRel {A} (R : A → A → Prop) (r1 r2 : res A) : Prop :=
  match r1, r2 with
  | Ok a1, Ok a2 => R a1 a2
  | Panic, Panic => True
  | Timeout, Timeout => True
  | _, _ => False
  end.

(** Boards of the same dimensions whose cells are related by [R], position
    by position. *)
Definition cellsRel (R : Cell → Cell → Prop) (b1 b2 : Board) : Prop :=
  Width b2 = Width b1 ∧ Height b2 = Height b1 ∧
  ∀ x y, resRel R (cellAt b1 x y) (cellAt b2 x y).

(** The boards a session can reach. *)
Definition reachable (b : Board) : Prop :=
  ∃ rnd width height mines b0 ops,
    NewBoard rnd width height mines = Ok b0 ∧ runOps ops b0 = Ok b.

(** Every safe cell stores the number of hazards around it. *)
Definition countsOK (b : Board) : Prop :=
  ∀ x y c, cellAt b x y = Ok c → IsMine c = false →
    AdjMines c = Z.of_nat (hazardNeighbours b x y).

(** What holds of a board all along a session. *)
Definition invariant (b : Board) : Prop := wf b ∧ countsOK b ∧ closed b.

(** What no operation changes of a cell. *)
Definition keeps (c c' : Cell) : Prop :=
  IsMine c' = IsMine c ∧ AdjMines c' = AdjMines c ∧
  (Revealed c = true → Revealed c' = true).

(** Boards that differ at most in the [Revealed] and [Flagged] fields of
    their hazard cells. *)
Definition sameButHazardState (c c' : Cell) : Prop :=
  IsMine c' = IsMine c ∧ AdjMines c' = AdjMines c ∧
  (IsMine c = false → Revealed c' = Revealed c ∧ Flagged c' = Flagged c).

(** Boards that differ at most in their [Flagged] fields. *)
Definition sameButFlagged (c c' : Cell) : Prop :=
  IsMine c' = IsMine c ∧ AdjMines c' = AdjMines c ∧ Revealed c' = Revealed c.

(** Boards that differ at most in the [AdjMines] field of hazard cells. *)
Definition sameButHazardCount (c c' : Cell) : Prop :=
  IsMine c' = IsMine c ∧ Revealed c' = Revealed c ∧ Flagged c' = Flagged c ∧
  (IsMine c = false → AdjMines c' = AdjMines c).

Global Instance wf_dec b : Decision (wf b).
Proof.
  refine (cast_if (decide (Z.of_nat (length (Cells b)) = Height b ∧
                           Forall (λ row, Z.of_nat (length row) = Width b) (Cells b))));
    unfold wf; rewrite <-Forall_forall; done.
Defined.

(** Cells that [PrintBoard] with [showMines = false] prints alike: both
    unrevealed with the same flag, or both revealed hazards, or both
    revealed safe cells with the same count. *)
Definition looksAlike (c c' : Cell) : Prop :=
  Revealed c' = Revealed c ∧
  if Revealed c then
    IsMine c' = IsMine c ∧ (IsMine c = false → AdjMines c' = AdjMines c)
  else Flagged c' = Flagged c.

(** ** Sample boards *)

(** A random source, and the 4 by 4 board with 2 hazards it gives: the
    hazards are at [(1, 3)] and [(3, 3)], the two upper rows have count 0. *)
Definition rnd0 : nat → nat := λ i, (7 * i + 3)%nat.

Definition sampleBoard : Board :=
  Eval vm_compute in
    match NewBoard rnd0 4 4 2 with Ok b => b | _ => emptyBoard 0 0 end.

(** [sampleBoard] with a flag on its cell [(0, 0)]. *)
Definition flaggedBoard : Board :=
  Eval vm_compute in
    match FlagCell 0 0 sampleBoard with Ok b => b | _ => emptyBoard 0 0 end.

(** [sampleBoard] with another count in its hazard cell [(1, 3)]. *)
Definition recountedBoard : Board :=
  Eval vm_compute in
    match updCell (setAdjMines 7) 1 3 sampleBoard with
    | Ok b => b | _ => emptyBoard 0 0 end.

(** What [NewBoard] returns for 3 by 3 cells and -1 hazards requested. *)
Definition negBoard : Board :=
  Eval vm_compute in
    match NewBoard rnd0 3 3 (-1) with Ok b => b | _ => emptyBoard 0 0 end.

(** A 3 by 2 board after [placeMines] with 2 hazards requested. *)
Definition minedBoard : Board :=
  Eval vm_compute in
    match placeMines rnd0 2 (emptyBoard 3 2) with
    | Ok b => b | _ => emptyBoard 0 0 end.

(** [sampleBoard] with the two hazards moved to the unrevealed cells
    [(0, 0)] and [(2, 1)], and all counts changed. *)
Definition disguisedBoard : Board :=
  mkBoard 4 4
    [[mkCell true 3 false false; mkCell false 1 false false;
      mkCell false 1 false false; mkCell false 1 false false];
     [mkCell false 2 false false; mkCell false 2 false false;
      mkCell true 5 false false; mkCell false 1 false false];
     [mkCell false 0 false false; mkCell false 1 false false;
      mkCell false 1 false false; mkCell false 1 false false];
     [mkCell false 0 false false; mkCell false 0 false false;
      mkCell false 0 false false; mkCell false 0 false false]].

(** One row of three safe cells with count 0, the middle one revealed: a
    state that no session reaches, since revealing the middle cell would
    have revealed its neighbours. *)
Definition gapBoard : Board :=
  mkBoard 3 1 [[zeroCell; mkCell false 0 true false; zeroCell]].

(** ** Sample input

    On the sample lines stdpp's [words] stands for [strings.Fields] and a
    reader of the numbers 1 to 4 for [strconv.Atoi]. *)
Definition sampleFields : string → list string := String.words.

Definition sampleAtoi (s : string) : option Z :=
  if bool_decide (s = "1") then Some 1
  else if bool_decide (s = "2") then Some 2
  else if bool_decide (s = "3") then Some 3
  else if bool_decide (s = "4") then Some 4
  else None.

(** * Proofs *)

Lemma isValidCell_true b x y :
  isValidCell b x y = true ↔ 0 ≤ x < Width b ∧ 0 ≤ y < Height b.
Proof.
  unfold isValidCell. rewrite !andb_true_iff, !bool_decide_eq_true. lia.
Qed.

Lemma isValidCell_false b x y :
  isValidCell b x y = false ↔ ¬ (0 ≤ x < Width b ∧ 0 ≤ y < Height b).
Proof. rewrite <-isValidCell_true. by destruct (isValidCell b x y). Qed.

Lemma rbind_Ok {A B} (m : res A) (k : A → res B) r :
  (m ≫= k) = Ok r ↔ ∃ a, m = Ok a ∧ k a = Ok r.
Proof.
  destruct m; simpl; split; try naive_solver.
Qed.

Lemma index_Ok {A} (l : list A) i a :
  index l i = Ok a ↔ 0 ≤ i ∧ l !! Z.to_nat i = Some a.
Proof.
  unfold index. case_bool_decide; [|naive_solver lia].
  destruct (l !! Z.to_nat i); naive_solver.
Qed.

Lemma index_nat {A} (l : list A) (i : nat) a :
  index l (Z.of_nat i) = Ok a ↔ l !! i = Some a.
Proof. rewrite index_Ok, Nat2Z.id. naive_solver lia. Qed.

Lemma cellAt_Ok b x y c :
  cellAt b x y = Ok c ↔
  0 ≤ x ∧ 0 ≤ y ∧
  ∃ row, Cells b !! Z.to_nat y = Some row ∧ row !! Z.to_nat x = Some c.
Proof.
  unfold cellAt. rewrite rbind_Ok. setoid_rewrite index_Ok. naive_solver.
Qed.

Lemma cellAt_valid b x y c :
  wf b → cellAt b x y = Ok c → isValidCell b x y = true.
Proof.
  intros [Hh Hw] (Hx & Hy & row & Hrow & Hc)%cellAt_Ok.
  apply isValidCell_true.
  pose proof (lookup_lt_Some _ _ _ Hrow).
  pose proof (lookup_lt_Some _ _ _ Hc).
  pose proof (Hw row (list_elem_of_lookup_2 _ _ _ Hrow)). lia.
Qed.

Lemma valid_cellAt b x y :
  wf b → isValidCell b x y = true → ∃ c, cellAt b x y = Ok c.
Proof.
  intros [Hh Hw] (Hx & Hy)%isValidCell_true.
  destruct (lookup_lt_is_Some_2 (Cells b) (Z.to_nat y)) as [row Hrow]; [lia|].
  pose proof (Hw row (list_elem_of_lookup_2 _ _ _ Hrow)).
  destruct (lookup_lt_is_Some_2 row (Z.to_nat x)) as [c Hc]; [lia|].
  exists c. apply cellAt_Ok. naive_solver lia.
Qed.

Lemma updCell_Ok f x y b b' :
  updCell f x y b = Ok b' ↔
  0 ≤ x ∧ 0 ≤ y ∧
  ∃ row c, Cells b !! Z.to_nat y = Some row ∧ row !! Z.to_nat x = Some c ∧
    b' = mkBoard (Width b) (Height b)
           (<[Z.to_nat y := <[Z.to_nat x := f c]> row]> (Cells b)).
Proof.
  unfold updCell. rewrite rbind_Ok. setoid_rewrite rbind_Ok.
  setoid_rewrite index_Ok. split.
  - intros (row & [? ?] & c & [? ?] & [= <-]). naive_solver.
  - intros (? & ? & row & c & ? & ? & ->). naive_solver.
Qed.

Lemma cellAt_updCell f x y b c :
  cellAt b x y = Ok c → ∃ b', updCell f x y b = Ok b'.
Proof.
  intros (? & ? & row & ? & ?)%cellAt_Ok. eexists. apply updCell_Ok.
  naive_solver.
Qed.

Lemma updCell_Width f x y b b' : updCell f x y b = Ok b' → Width b' = Width b.
Proof. intros (? & ? & ? & ? & ? & ? & ->)%updCell_Ok. done. Qed.

Lemma updCell_Height f x y b b' : updCell f x y b = Ok b' → Height b' = Height b.
Proof. intros (? & ? & ? & ? & ? & ? & ->)%updCell_Ok. done. Qed.

Lemma updCell_valid f x y b b' u v :
  updCell f x y b = Ok b' → isValidCell b' u v = isValidCell b u v.
Proof.
  intros H. unfold isValidCell.
  by rewrite (updCell_Width _ _ _ _ _ H), (updCell_Height _ _ _ _ _ H).
Qed.

Lemma updCell_wf f x y b b' : updCell f x y b = Ok b' → wf b → wf b'.
Proof.
  intros (? & ? & row & c & Hrow & Hc & ->)%updCell_Ok [Hh Hw].
  split; simpl.
  - by rewrite length_insert.
  - intros row' [i Hi]%list_elem_of_lookup.
    destruct (decide (i = Z.to_nat y)) as [->|Hne].
    + rewrite list_lookup_insert_eq in Hi by (by eapply lookup_lt_Some).
      injection Hi as <-. rewrite length_insert.
      apply Hw. by eapply list_elem_of_lookup_2.
    + rewrite list_lookup_insert_ne in Hi by done.
      apply Hw. by eapply list_elem_of_lookup_2.
Qed.

Lemma updCell_old f x y b b' :
  updCell f x y b = Ok b' → ∃ c, cellAt b x y = Ok c ∧ cellAt b' x y = Ok (f c).
Proof.
  intros (? & ? & row & c & Hrow & Hc & ->)%updCell_Ok.
  exists c. split; apply cellAt_Ok; simpl; (split; [done|split; [done|]]).
  - eauto.
  - eexists. split.
    + apply list_lookup_insert_eq. by eapply lookup_lt_Some.
    + apply list_lookup_insert_eq. by eapply lookup_lt_Some.
Qed.

Lemma updCell_same f x y b b' c :
  updCell f x y b = Ok b' → cellAt b x y = Ok c → cellAt b' x y = Ok (f c).
Proof. intros (c' & ? & ?)%updCell_old ?. congruence. Qed.

Lemma cellAt_no_Timeout b x y : cellAt b x y ≠ Timeout.
Proof.
  unfold cellAt, index.
  repeat (case_bool_decide || case_match || simpl); congruence.
Qed.

Lemma cellAt_eq b1 x1 y1 b2 x2 y2 :
  (∀ c, cellAt b1 x1 y1 = Ok c ↔ cellAt b2 x2 y2 = Ok c) →
  cellAt b1 x1 y1 = cellAt b2 x2 y2.
Proof.
  intros H.
  pose proof (cellAt_no_Timeout b1 x1 y1). pose proof (cellAt_no_Timeout b2 x2 y2).
  destruct (cellAt b1 x1 y1) as [c1| |] eqn:E1, (cellAt b2 x2 y2) as [c2| |] eqn:E2;
    try done.
  - symmetry. by apply H.
  - by destruct (proj1 (H c1) eq_refl).
  - by destruct (proj2 (H c2) eq_refl).
Qed.

Lemma updCell_other f x y b b' u v :
  updCell f x y b = Ok b' → (u, v) ≠ (x, y) → cellAt b' u v = cellAt b u v.
Proof.
  intros (? & ? & row & c & Hrow & Hc & ->)%updCell_Ok Hne.
  apply cellAt_eq. intros c'. rewrite !cellAt_Ok; simpl.
  destruct (decide (Z.to_nat v = Z.to_nat y)) as [E|E].
  - rewrite E, list_lookup_insert_eq by (by eapply lookup_lt_Some).
    split.
    + intros (Hu & Hv & ? & [= <-] & H').
      rewrite list_lookup_insert_ne in H'; [by eauto|].
      intros ?; apply Hne; f_equal; lia.
    + intros (Hu & Hv & row' & ? & H'). simplify_eq.
      do 2 (split; [done|]). eexists; split; [done|].
      rewrite list_lookup_insert_ne; [done|].
      intros ?; apply Hne; f_equal; lia.
  - by rewrite list_lookup_insert_ne.
Qed.

(** Two well-formed boards with the same cells are the same board. *)
Lemma board_ext b1 b2 :
  wf b1 → wf b2 → Width b1 = Width b2 → Height b1 = Height b2 →
  (∀ x y, cellAt b1 x y = cellAt b2 x y) → b1 = b2.
Proof.
  destruct b1 as [w1 h1 c1], b2 as [w2 h2 c2]; simpl.
  intros [Hh1 Hw1] [Hh2 Hw2] -> -> Hc; simpl in *. f_equal.
  apply list_eq_same_length with (length c1); [lia|done|].
  intros i row1 row2 Hi Hr1 Hr2.
  pose proof (Hw1 _ (list_elem_of_lookup_2 _ _ _ Hr1)).
  pose proof (Hw2 _ (list_elem_of_lookup_2 _ _ _ Hr2)).
  apply list_eq_same_length with (length row1); [lia|done|].
  intros j a1 a2 Hj Ha1 Ha2.
  assert (cellAt (mkBoard w2 h2 c1) (Z.of_nat j) (Z.of_nat i) = Ok a1) as E1.
  { apply cellAt_Ok; simpl. rewrite !Nat2Z.id. naive_solver lia. }
  assert (cellAt (mkBoard w2 h2 c2) (Z.of_nat j) (Z.of_nat i) = Ok a2) as E2.
  { apply cellAt_Ok; simpl. rewrite !Nat2Z.id. naive_solver lia. }
  rewrite Hc in E1. congruence.
Qed.

(** ** Counting cells *)

Lemma sum_list_insert (l : list nat) i a old :
  l !! i = Some old →
  (sum_list (<[i:=a]> l) + old = sum_list l + a)%nat.
Proof.
  revert i. induction l as [|n l IH]; intros [|i] H; simplify_eq/=; [lia|].
  specialize (IH _ H). lia.
Qed.

Lemma count_insert (p : Cell → bool) (row : list Cell) i a old :
  row !! i = Some old →
  (length (filter (λ c, p c = true) (<[i:=a]> row)) + Nat.b2n (p old) =
   length (filter (λ c, p c = true) row) + Nat.b2n (p a))%nat.
Proof.
  revert i. induction row as [|c row IH]; intros [|i] H; simplify_eq/=.
  - rewrite !filter_cons. destruct (p a), (p old); simpl; repeat case_decide;
      simpl; try done; lia.
  - specialize (IH _ H). rewrite !filter_cons. case_decide; simpl; lia.
Qed.

Lemma countCells_updCell p f x y b b' c :
  updCell f x y b = Ok b' → cellAt b x y = Ok c →
  (countCells p b' + Nat.b2n (p c) = countCells p b + Nat.b2n (p (f c)))%nat.
Proof.
  intros (? & ? & row & c' & Hrow & Hc & ->)%updCell_Ok
         (? & ? & row' & Hrow' & Hc')%cellAt_Ok.
  assert (row' = row) as -> by congruence.
  assert (c' = c) as -> by congruence.
  unfold countCells; simpl.
  rewrite list_fmap_insert.
  pose proof (count_insert p row _ (f c) c Hc) as Hrowcount.
  pose proof (sum_list_insert
    ((λ row : list Cell, length (filter (λ c, p c = true) row)) <$> Cells b)
    (Z.to_nat y) (length (filter (λ c, p c = true) (<[Z.to_nat x:=f c]> row)))
    (length (filter (λ c, p c = true) row))) as Hsum.
  rewrite list_lookup_fmap, Hrow in Hsum. specialize (Hsum eq_refl). lia.
Qed.

(** ** Loops *)

Lemma forM_nil {A S} (body : A → S → res S) s : forM [] body s = Ok s.
Proof. done. Qed.

Lemma forM_cons {A S} a l (body : A → S → res S) s :
  forM (a :: l) body s = s' ← body a s; forM l body s'.
Proof. done. Qed.

Lemma forM_app {A S} l1 l2 (body : A → S → res S) s :
  forM (l1 ++ l2) body s = s' ← forM l1 body s; forM l2 body s'.
Proof.
  revert s. induction l1 as [|a l1 IH]; intros s; [done|].
  simpl. destruct (body a s); simpl; auto.
Qed.

(** A loop whose body keeps an invariant, indexed by the elements already
    visited, runs to its end and establishes it for the whole list. *)
Lemma forM_invariant {A S} (I : list A → S → Prop) l (body : A → S → res S) s :
  I [] s →
  (∀ done a rest s, l = done ++ a :: rest → I done s →
     ∃ s', body a s = Ok s' ∧ I (done ++ [a]) s') →
  ∃ s', forM l body s = Ok s' ∧ I l s'.
Proof.
  intros H0 Hstep.
  cut (∀ rest done s, l = done ++ rest → I done s →
         ∃ s', forM rest body s = Ok s' ∧ I l s').
  { intros H. by apply (H l []). }
  induction rest as [|a rest IH]; intros done s1 -> HI.
  - rewrite app_nil_r. eauto.
  - destruct (Hstep done a rest s1 eq_refl HI) as (s2 & E & HI2).
    simpl. rewrite E; simpl. apply (IH (done ++ [a])); [|done].
    by rewrite <-app_assoc.
Qed.

Lemma revealLoop_nil fuel x y b : revealLoop fuel x y [] b = Ok b.
Proof. done. Qed.

Lemma revealLoop_cons fuel x y i j l b :
  revealLoop fuel x y ((i, j) :: l) b =
  '(_, b1) ← RevealCellRec fuel (x + i) (y + j) b; revealLoop fuel x y l b1.
Proof.
  unfold revealLoop. simpl.
  destruct (RevealCellRec fuel (x + i) (y + j) b) as [[r b1]| |]; done.
Qed.

Lemma RevealCellRec_S fuel x y b :
  revealCase fuel x y b (RevealCellRec (S fuel) x y b).
Proof.
  change (RevealCellRec (S fuel) x y b) with
    (if negb (isValidCell b x y) then Ok (false, b) else
     c ← cellAt b x y;
     if Revealed c then Ok (false, b) else
     b1 ← updCell setRevealed x y b;
     c ← cellAt b1 x y;
     if IsMine c then Ok (true, b1) else
     c ← cellAt b1 x y;
     if bool_decide (AdjMines c = 0) then
       b2 ← revealLoop fuel x y offsetPairs b1; Ok (false, b2)
     else Ok (false, b1)).
  destruct (isValidCell b x y) eqn:Hv; cbn [negb]; [|by constructor].
  pose proof (cellAt_no_Timeout b x y).
  destruct (cellAt b x y) as [c| |] eqn:Hc; [| by constructor | done].
  cbn [mbind res_bind].
  destruct (Revealed c) eqn:Hr; [by econstructor|].
  destruct (cellAt_updCell setRevealed _ _ _ _ Hc) as [b1 Hb1].
  rewrite Hb1. cbn [mbind res_bind].
  rewrite (updCell_same _ _ _ _ _ _ Hb1 Hc). cbn [mbind res_bind setRevealed IsMine AdjMines].
  destruct (IsMine c) eqn:Hm; [by econstructor|].
  case_bool_decide; by econstructor.
Qed.

(** Every property of a run of [RevealCell] below is proved through one
    induction principle that follows the five ways a call can end. *)
Section RevealCell_induction.
Variable P : Z → Z → Board → bool → Board → Prop.

Hypothesis P_invalid : ∀ x y b,
  isValidCell b x y = false → P x y b false b.
Hypothesis P_revealed : ∀ x y b c,
  isValidCell b x y = true → cellAt b x y = Ok c → Revealed c = true →
  P x y b false b.
Hypothesis P_mine : ∀ x y b c b1,
  isValidCell b x y = true → cellAt b x y = Ok c → Revealed c = false →
  updCell setRevealed x y b = Ok b1 → IsMine c = true →
  P x y b true b1.
Hypothesis P_number : ∀ x y b c b1,
  isValidCell b x y = true → cellAt b x y = Ok c → Revealed c = false →
  updCell setRevealed x y b = Ok b1 → IsMine c = false → AdjMines c ≠ 0 →
  P x y b false b1.
Hypothesis P_zero : ∀ x y b c b1 b2,
  isValidCell b x y = true → cellAt b x y = Ok c → Revealed c = false →
  updCell setRevealed x y b = Ok b1 → IsMine c = false → AdjMines c = 0 →
  chain P x y offsetPairs b1 b2 →
  P x y b false b2.

Lemma RevealCellRec_ind fuel x y b r b' :
  RevealCellRec fuel x y b = Ok (r, b') → P x y b r b'.
Proof using All.
  revert x y b r b'. induction fuel as [|fuel IH]; intros x y b r b'; [done|].
  intros H. destruct (RevealCellRec_S fuel x y b); simplify_eq; eauto.
  apply rbind_Ok in H as (b2 & Hb2 & [= <- <-]).
  eapply P_zero; eauto.
  clear -IH Hb2. revert b1 Hb2.
  induction offsetPairs as [|[i j] l IHl]; intros b1 H.
  - rewrite revealLoop_nil in H. injection H as <-. constructor.
  - rewrite revealLoop_cons in H.
    apply rbind_Ok in H as ([r b3] & H3 & H).
    econstructor; eauto.
Qed.
End RevealCell_induction.

(** More fuel does not change a result. *)
Lemma RevealCellRec_fuel_mono fuel fuel' x y b out :
  RevealCellRec fuel x y b = Ok out → (fuel ≤ fuel')%nat →
  RevealCellRec fuel' x y b = Ok out.
Proof.
  revert fuel' x y b out.
  induction fuel as [|fuel IH]; intros [|fuel'] x y b out; try done; [lia|].
  intros H Hle.
  destruct (RevealCellRec_S fuel x y b), (RevealCellRec_S fuel' x y b);
    same_lhs; try congruence.
  apply rbind_Ok in H as (b2 & Hb2 & [= <-]).
  match goal with |- context [revealLoop _ _ _ _ ?b] => rename b into b1 end.
  cut (revealLoop fuel' x y offsetPairs b1 = Ok b2); [by intros ->|].
  clear -IH Hb2 Hle. revert b1 Hb2.
  induction offsetPairs as [|[i j] l IHl]; intros b1 H; [done|].
  rewrite revealLoop_cons in *.
  apply rbind_Ok in H as ([r b3] & H3 & H).
  rewrite (IH fuel' _ _ _ _ H3) by lia. simpl. auto.
Qed.

Global Instance evolves_preorder : PreOrder evolves.
Proof.
  split.
  - intros b. unfold evolves. naive_solver.
  - intros b1 b2 b3 (Hw1 & Hh1 & Hwf1 & H1) (Hw2 & Hh2 & Hwf2 & H2).
    split; [congruence|]. split; [congruence|]. split; [auto|].
    intros u v.
    destruct (H1 u v) as [E1|(c1 & E1 & E1')], (H2 u v) as [E2|(c2 & E2 & E2')].
    + left. congruence.
    + right. exists c2. split; congruence.
    + right. exists c1. split; congruence.
    + right. exists c1. split; [done|].
      assert (c2 = setRevealed c1) as -> by congruence. by rewrite E2'.
Qed.

Lemma updCell_evolves x y b b1 :
  updCell setRevealed x y b = Ok b1 → evolves b b1.
Proof.
  intros H. split; [by eapply updCell_Width|]. split; [by eapply updCell_Height|].
  split; [by eapply updCell_wf|].
  intros u v. destruct (decide ((u, v) = (x, y))) as [[= -> ->]|Hne].
  - right. by apply updCell_old in H.
  - left. by eapply updCell_other.
Qed.

Lemma evolves_valid b b' x y :
  evolves b b' → isValidCell b' x y = isValidCell b x y.
Proof. intros (Hw & Hh & _). unfold isValidCell. by rewrite Hw, Hh. Qed.

Lemma evolves_cell b b' x y c :
  evolves b b' → cellAt b x y = Ok c →
  ∃ c', cellAt b' x y = Ok c' ∧ IsMine c' = IsMine c ∧
        AdjMines c' = AdjMines c ∧ Flagged c' = Flagged c ∧
        (Revealed c = true → Revealed c' = true) ∧
        (c' = c ∨ c' = setRevealed c).
Proof.
  intros (_ & _ & _ & H) Hc. destruct (H x y) as [E|(c1 & E1 & E2)].
  - exists c. rewrite E. naive_solver.
  - exists (setRevealed c1). assert (c1 = c) as -> by congruence. naive_solver.
Qed.

Lemma evolves_cell_inv b b' x y c' :
  evolves b b' → cellAt b' x y = Ok c' →
  ∃ c, cellAt b x y = Ok c ∧ IsMine c' = IsMine c ∧
       AdjMines c' = AdjMines c ∧ Flagged c' = Flagged c ∧
       (Revealed c = true → Revealed c' = true) ∧
       (c' = c ∨ c' = setRevealed c).
Proof.
  intros (_ & _ & _ & H) Hc. destruct (H x y) as [E|(c1 & E1 & E2)].
  - exists c'. rewrite <-E. naive_solver.
  - exists c1. assert (c' = setRevealed c1) as -> by congruence. naive_solver.
Qed.

(** A reflexive and transitive relation that holds across each single
    [b.Cells[y][x].Revealed = true] holds across a whole run. *)
Lemma RevealCellRec_preorder (R : relation Board) `{!PreOrder R} :
  (∀ x y b c b1,
     isValidCell b x y = true → cellAt b x y = Ok c → Revealed c = false →
     updCell setRevealed x y b = Ok b1 → R b b1) →
  ∀ fuel x y b r b', RevealCellRec fuel x y b = Ok (r, b') → R b b'.
Proof.
  intros Hstep fuel x y b r b' Hrun.
  apply (RevealCellRec_ind (λ _ _ b _ b', R b b')) in Hrun; [done|..];
    clear x y b r b' Hrun; try by eauto.
  intros x y b c b1 b2 Hv Hc Hr Hb1 Hm Hz Hch.
  transitivity b1; [by eauto|]. clear -Hch PreOrder0.
  induction Hch; [done|]. by etrans.
Qed.

Lemma RevealCellRec_evolves fuel x y b r b' :
  RevealCellRec fuel x y b = Ok (r, b') → evolves b b'.
Proof.
  apply (RevealCellRec_preorder evolves). eauto using updCell_evolves.
Qed.

Lemma unrevealed_updCell x y b c b1 :
  cellAt b x y = Ok c → Revealed c = false →
  updCell setRevealed x y b = Ok b1 → unrevealed b = S (unrevealed b1).
Proof.
  intros Hc Hr Hb1.
  pose proof (countCells_updCell (λ c, negb (Revealed c)) _ _ _ _ _ _ Hb1 Hc) as H.
  simpl in H. rewrite Hr in H. simpl in H. unfold unrevealed. lia.
Qed.

Lemma RevealCellRec_unrevealed fuel x y b r b' :
  RevealCellRec fuel x y b = Ok (r, b') → (unrevealed b' ≤ unrevealed b)%nat.
Proof.
  assert (PreOrder (λ b b', unrevealed b' ≤ unrevealed b)%nat).
  { split; [intros ?; lia|intros ???; lia]. }
  apply (RevealCellRec_preorder (λ b b', unrevealed b' ≤ unrevealed b)%nat).
  intros ????? _ Hc Hr Hb1. rewrite (unrevealed_updCell _ _ _ _ _ Hc Hr Hb1). lia.
Qed.

Lemma chain_evolves P x y l b b' : chain P x y l b b' → evolves b b'.
Proof.
  induction 1 as [|???????? Hrun]; [done|].
  etrans; [by eapply RevealCellRec_evolves|done].
Qed.

(** ** Termination of [RevealCell] *)

Lemma RevealCellRec_total fuel x y b :
  wf b → (unrevealed b < fuel)%nat →
  ∃ r b', RevealCellRec fuel x y b = Ok (r, b').
Proof.
  revert x y b. induction fuel as [|fuel IH]; intros x y b Hwf Hlt; [lia|].
  destruct (RevealCellRec_S fuel x y b) as [| Hv Hp | | | |c b1 Hv Hc Hr Hb1 Hm Hz];
    eauto.
  - destruct (valid_cellAt _ _ _ Hwf Hv) as [c Hc]. congruence.
  - pose proof (unrevealed_updCell _ _ _ _ _ Hc Hr Hb1) as Hcount.
    assert (∀ l b1, wf b1 → (unrevealed b1 < fuel)%nat →
              ∃ b2, revealLoop fuel x y l b1 = Ok b2) as Hloop.
    { clear -IH. induction l as [|[i j] l IHl]; intros b1 Hwf Hlt.
      - eexists. apply revealLoop_nil.
      - rewrite revealLoop_cons.
        destruct (IH (x + i) (y + j) b1 Hwf Hlt) as (r & b3 & Hrun).
        rewrite Hrun; simpl.
        pose proof (RevealCellRec_unrevealed _ _ _ _ _ _ Hrun).
        apply RevealCellRec_evolves in Hrun as (_ & _ & Hwf3 & _).
        apply IHl; [auto|lia]. }
    destruct (Hloop offsetPairs b1) as [b2 ->]; [by eapply updCell_wf|lia|].
    simpl. eauto.
Qed.

Lemma offsetPairs_eq :
  offsetPairs =
  [(-1, -1); (-1, 0); (-1, 1); (0, -1); (0, 0); (0, 1); (1, -1); (1, 0); (1, 1)].
Proof. reflexivity. Qed.

Lemma elem_of_offsetPairs i j :
  (i, j) ∈ offsetPairs ↔ -1 ≤ i ≤ 1 ∧ -1 ≤ j ≤ 1.
Proof.
  rewrite offsetPairs_eq, !elem_of_cons, elem_of_nil. split.
  - intros H. repeat destruct H as [[= -> ->]|H]; lia.
  - intros [Hi Hj].
    assert (i = -1 ∨ i = 0 ∨ i = 1) as [-> | [-> | ->]] by lia;
    assert (j = -1 ∨ j = 0 ∨ j = 1) as [-> | [-> | ->]] by lia; tauto.
Qed.

Lemma adj8_offset x y u v :
  adj8 (x, y) (u, v) ↔ ∃ i j, (i, j) ∈ offsetPairs ∧ u = x + i ∧ v = y + j.
Proof.
  unfold adj8; simpl. split.
  - intros [? ?]. exists (u - x), (v - y). rewrite elem_of_offsetPairs. lia.
  - intros (i & j & Hij%elem_of_offsetPairs & -> & ->). lia.
Qed.

Lemma adj8_refl p : adj8 p p.
Proof. unfold adj8. lia. Qed.

Lemma adj8_sym p q : adj8 p q → adj8 q p.
Proof. unfold adj8. lia. Qed.

Lemma region_maximal b s p q :
  region b s p → adj8 p q → zeroAt b q → region b s q.
Proof.
  intros [Hs Hp] Hadj Hq. split; [done|].
  eapply rtc_r; [done|]. split; [|done].
  clear Hadj Hq. induction Hp as [|??? (_ & _ & ?)]; auto.
Qed.

Lemma region_zero b s p : region b s p → zeroAt b p.
Proof.
  intros [Hs Hp]. induction Hp as [|??? (_ & _ & ?)]; auto.
Qed.

Lemma zeroAt_evolves b b' p : evolves b b' → zeroAt b p ↔ zeroAt b' p.
Proof.
  intros Hev. split.
  - intros (c & Hc & Hm & Hz).
    destruct (evolves_cell _ _ _ _ _ Hev Hc) as (c' & ? & ? & ? & _).
    exists c'. split; [done|]. split; congruence.
  - intros (c' & Hc & Hm & Hz).
    destruct (evolves_cell_inv _ _ _ _ _ Hev Hc) as (c & ? & ? & ? & _).
    exists c. split; [done|]. split; congruence.
Qed.

Lemma region_evolves b b' s p : evolves b b' → region b s p ↔ region b' s p.
Proof.
  intros Hev. unfold region. rewrite (zeroAt_evolves _ _ _ Hev).
  apply and_iff_compat_l. split; apply rtc_subrel; intros q1 q2;
    unfold zstep; rewrite !(zeroAt_evolves _ _ _ Hev); done.
Qed.

Lemma fillSet_evolves b b' s q : evolves b b' → fillSet b s q ↔ fillSet b' s q.
Proof.
  intros Hev. unfold fillSet. by setoid_rewrite (region_evolves _ _ _ _ Hev).
Qed.

(** From a zero-count cell, what a neighbour fills is filled. *)
Lemma fillSet_step b x y i j q :
  zeroAt b (x, y) → (i, j) ∈ offsetPairs →
  fillSet b (x + i, y + j) q → fillSet b (x, y) q.
Proof.
  intros Hz Hij [->|(p & [Hn Hp] & Hadj)]; right.
  - exists (x, y). split; [by split|]. apply adj8_offset. eauto.
  - exists p. split; [|done]. split; [done|].
    eapply rtc_l; [|done]. split; [done|]. split; [|done].
    apply adj8_offset. eauto.
Qed.

(** After a run the target cell, when there is one, is revealed. *)
Lemma RevealCellRec_target fuel x y b r b' :
  RevealCellRec fuel x y b = Ok (r, b') → isValidCell b x y = true →
  ∃ c', cellAt b' x y = Ok c' ∧ Revealed c' = true.
Proof.
  intros Hrun.
  refine (RevealCellRec_ind (λ x y b _ b', isValidCell b x y = true →
           ∃ c', cellAt b' x y = Ok c' ∧ Revealed c' = true)
           _ _ _ _ _ fuel x y b r b' Hrun); clear.
  - congruence.
  - eauto.
  - intros x y b c b1 _ Hc _ Hb1 _ _.
    rewrite (updCell_same _ _ _ _ _ _ Hb1 Hc). eauto.
  - intros x y b c b1 _ Hc _ Hb1 _ _ _.
    rewrite (updCell_same _ _ _ _ _ _ Hb1 Hc). eauto.
  - intros x y b c b1 b2 _ Hc _ Hb1 _ _ Hch%chain_evolves _.
    pose proof (updCell_same _ _ _ _ _ _ Hb1 Hc) as Hc1.
    destruct (evolves_cell _ _ _ _ _ Hch Hc1) as (c2 & ? & _ & _ & _ & Hrev & _).
    eauto.
Qed.

(** Every target of a chain of calls is revealed when the chain ends. *)
Lemma chain_targets P x y l b1 b2 i j c :
  chain P x y l b1 b2 → wf b1 → (i, j) ∈ l → cellAt b1 (x + i) (y + j) = Ok c →
  ∃ c', cellAt b2 (x + i) (y + j) = Ok c' ∧ Revealed c' = true.
Proof.
  intros Hch. revert c.
  induction Hch as [|fuel i' j' l b r b1 b2 Hrun _ Hch IH]; intros c Hwf Hin Hc.
  - by apply elem_of_nil in Hin.
  - pose proof (RevealCellRec_evolves _ _ _ _ _ _ Hrun) as Hev.
    apply elem_of_cons in Hin as [[= -> ->]|Hin].
    + destruct (RevealCellRec_target _ _ _ _ _ _ Hrun) as (c1 & Hc1 & Hr1);
        [by eapply cellAt_valid|].
      destruct (evolves_cell _ _ _ _ _ (chain_evolves _ _ _ _ _ _ Hch) Hc1)
        as (c2 & ? & _ & _ & _ & ? & _). eauto.
    + destruct (evolves_cell _ _ _ _ _ Hev Hc) as (c1 & ? & _).
      destruct Hev as (_ & _ & ? & _). eauto.
Qed.

(** Soundness of the cascade: a cell that a run reveals is its target or
    lies within distance 1 of the region of the target. *)
Lemma RevealCellRec_sound fuel x y b r b' u v c c' :
  RevealCellRec fuel x y b = Ok (r, b') →
  cellAt b u v = Ok c → Revealed c = false →
  cellAt b' u v = Ok c' → Revealed c' = true →
  fillSet b (x, y) (u, v).
Proof.
  intros Hrun. revert u v c c'.
  refine (RevealCellRec_ind (λ x y b _ b', ∀ u v c c',
           cellAt b u v = Ok c → Revealed c = false →
           cellAt b' u v = Ok c' → Revealed c' = true →
           fillSet b (x, y) (u, v)) _ _ _ _ _ fuel x y b r b' Hrun); clear.
  - intros; simplify_eq; congruence.
  - intros; simplify_eq; congruence.
  - intros x y b c b1 _ _ _ Hb1 _ u v cu cu' Hcu Hr Hcu' Hr'.
    destruct (decide ((u, v) = (x, y))) as [->|Hne]; [by left|].
    rewrite (updCell_other _ _ _ _ _ _ _ Hb1 Hne) in Hcu'. congruence.
  - intros x y b c b1 _ _ _ Hb1 _ _ u v cu cu' Hcu Hr Hcu' Hr'.
    destruct (decide ((u, v) = (x, y))) as [->|Hne]; [by left|].
    rewrite (updCell_other _ _ _ _ _ _ _ Hb1 Hne) in Hcu'. congruence.
  - intros x y b c b1 b2 _ Hc _ Hb1 Hm Hz Hch u v cu cu' Hcu Hr Hcu' Hr'.
    destruct (decide ((u, v) = (x, y))) as [->|Hne]; [by left|].
    assert (zeroAt b (x, y)) as Hzero by (by exists c).
    rewrite <-(updCell_other _ _ _ _ _ _ _ Hb1 Hne) in Hcu.
    cut (∃ i j, (i, j) ∈ offsetPairs ∧ fillSet b (x + i, y + j) (u, v)).
    { intros (i & j & Hij & Hfill). by eapply fillSet_step. }
    assert (evolves b b1) as Hev by (by eapply updCell_evolves).
    clear -Hch Hcu Hr Hcu' Hr' Hev. revert cu Hcu Hr Hev.
    induction Hch as [|fuel i j l b1 r b3 b2 Hrun HP Hch IH]; intros cu Hcu Hr Hev.
    + congruence.
    + pose proof (RevealCellRec_evolves _ _ _ _ _ _ Hrun) as Hev13.
      destruct (evolves_cell _ _ _ _ _ Hev13 Hcu) as (c3 & Hc3 & _).
      destruct (Revealed c3) eqn:Hr3.
      * exists i, j. split; [by left|].
        apply (fillSet_evolves _ _ _ _ Hev). eauto.
      * destruct (IH Hcu' _ Hc3 Hr3) as (i' & j' & Hin & Hfill); [by etrans|].
        exists i', j'. split; [by right|done].
Qed.

Lemma bad_updCell x y b c b1 p :
  cellAt b x y = Ok c → updCell setRevealed x y b = Ok b1 →
  bad b1 p → p = (x, y) ∨ bad b p.
Proof.
  intros Hc Hb1 (cp & Hcp & Hrp & Hmp & Hzp & [u v] & cq & Hadj & Hcq & Hrq).
  destruct p as [px py]; simpl in *.
  destruct (decide ((px, py) = (x, y))) as [|Hne]; [by left|right].
  rewrite (updCell_other _ _ _ _ _ _ _ Hb1 Hne) in Hcp.
  exists cp. do 4 (split; [done|]). exists (u, v), cq. split; [done|].
  split; [|done]. simpl.
  destruct (decide ((u, v) = (x, y))) as [[= -> ->]|Hne'].
  - rewrite (updCell_same _ _ _ _ _ _ Hb1 Hc) in Hcq. by simplify_eq.
  - by rewrite (updCell_other _ _ _ _ _ _ _ Hb1 Hne') in Hcq.
Qed.

(** A run creates no bad cell. *)
Lemma RevealCellRec_bad fuel x y b r b' p :
  RevealCellRec fuel x y b = Ok (r, b') → wf b → bad b' p → bad b p.
Proof.
  intros Hrun. revert p.
  refine (RevealCellRec_ind (λ x y b _ b', ∀ p, wf b → bad b' p → bad b p)
            _ _ _ _ _ fuel x y b r b' Hrun); clear; try done.
  - intros x y b c b1 _ Hc _ Hb1 Hm p _ Hbad.
    destruct (bad_updCell _ _ _ _ _ _ Hc Hb1 Hbad) as [->|]; [|done].
    destruct Hbad as (c1 & Hc1 & _ & Hm1 & _). simpl in Hc1.
    rewrite (updCell_same _ _ _ _ _ _ Hb1 Hc) in Hc1. simplify_eq/=; congruence.
  - intros x y b c b1 _ Hc _ Hb1 _ Hz p _ Hbad.
    destruct (bad_updCell _ _ _ _ _ _ Hc Hb1 Hbad) as [->|]; [|done].
    destruct Hbad as (c1 & Hc1 & _ & _ & Hz1 & _). simpl in Hc1.
    rewrite (updCell_same _ _ _ _ _ _ Hb1 Hc) in Hc1. simplify_eq/=; congruence.
  - intros x y b c b1 b2 _ Hc _ Hb1 _ _ Hch p Hwf Hbad.
    pose proof (updCell_wf _ _ _ _ _ Hb1 Hwf) as Hwf1.
    destruct (decide (p = (x, y))) as [->|Hne].
    + destruct Hbad as (_ & _ & _ & _ & _ & [u v] & cq & Hadj & Hcq & Hrq).
      apply adj8_offset in Hadj as (i & j & Hij & -> & ->). simpl in Hcq.
      destruct (evolves_cell_inv _ _ _ _ _ (chain_evolves _ _ _ _ _ _ Hch) Hcq)
        as (c1 & Hc1 & _).
      destruct (chain_targets _ _ _ _ _ _ _ _ _ Hch Hwf1 Hij Hc1) as (c' & ? & ?).
      congruence.
    + assert (bad b1 p) as Hbad1.
      { clear -Hch Hbad Hwf1.
        induction Hch as [|???????? Hrun HP Hch IH]; [done|].
        apply HP; [done|]. apply IH; [done|].
        apply RevealCellRec_evolves in Hrun as (_ & _ & ? & _); auto. }
      by destruct (bad_updCell _ _ _ _ _ _ Hc Hb1 Hbad1).
Qed.

Lemma RevealCellRec_closed fuel x y b r b' :
  RevealCellRec fuel x y b = Ok (r, b') → wf b → closed b → closed b'.
Proof. intros Hrun Hwf Hcl p Hbad. eapply Hcl, RevealCellRec_bad; eauto. Qed.

(** On a closed board, what a run fills is revealed when it ends. *)
Lemma RevealCellRec_complete fuel x y b r b' u v c cu :
  RevealCellRec fuel x y b = Ok (r, b') → wf b → closed b →
  cellAt b x y = Ok c → IsMine c = false → AdjMines c = 0 →
  cellAt b u v = Ok cu → (∃ p, region b (x, y) p ∧ adj8 p (u, v)) →
  ∃ cu', cellAt b' u v = Ok cu' ∧ Revealed cu' = true.
Proof.
  intros Hrun Hwf Hcl Hc Hm Hz Hcu (p & Hreg & Hadj).
  pose proof (RevealCellRec_evolves _ _ _ _ _ _ Hrun) as Hev.
  pose proof (RevealCellRec_closed _ _ _ _ _ _ Hrun Hwf Hcl) as Hcl'.
  assert (∀ p, region b (x, y) p →
            ∃ cp, cellAt b' p.1 p.2 = Ok cp ∧ Revealed cp = true ∧
                  IsMine cp = false ∧ AdjMines cp = 0) as Hall.
  { clear p Hreg Hadj. intros p [_ Hp]. revert p Hp. apply rtc_ind_r.
    - destruct (RevealCellRec_target _ _ _ _ _ _ Hrun) as (c' & Hc' & Hr');
        [by eapply cellAt_valid|].
      destruct (evolves_cell _ _ _ _ _ Hev Hc) as (c'' & ? & ? & ? & _).
      exists c'. same_lhs. repeat split; simpl; congruence.
    - intros p q Hp (_ & Hadj & (cq & Hcq & Hmq & Hzq)) (cp & Hcp & Hrp & Hmp & Hzp).
      destruct (evolves_cell _ _ _ _ _ Hev Hcq) as (cq' & Hcq' & ? & ? & _).
      exists cq'. split; [done|]. split; [|split; congruence].
      destruct (Revealed cq') eqn:Hrq; [done|].
      destruct (Hcl' p). exists cp. do 4 (split; [done|]). by exists q, cq'. }
  destruct (Hall p Hreg) as (cp & Hcp & Hrp & Hmp & Hzp).
  destruct (evolves_cell _ _ _ _ _ Hev Hcu) as (cu' & Hcu' & _).
  exists cu'. split; [done|].
  destruct (Revealed cu') eqn:Hru; [done|].
  destruct (Hcl' p). exists cp. do 4 (split; [done|]). by exists (u, v), cu'.
Qed.

(** ** Construction: the shuffled positions *)

Lemma swap_perm {A} i j (l : list A) :
  (i < length l)%nat → (j < length l)%nat → ∃ l', swap i j l = Ok l' ∧ l' ≡ₚ l.
Proof.
  intros [pi Hi]%lookup_lt_is_Some_2 [pj Hj]%lookup_lt_is_Some_2.
  exists (<[j:=pi]> (<[i:=pj]> l)). split.
  - unfold swap.
    rewrite (proj2 (index_nat l j pj)), (proj2 (index_nat l i pi)) by done. done.
  - by apply Permutation_insert_swap.
Qed.

Lemma shuffleFrom_perm {A} rnd k (l : list A) :
  (k ≤ length l)%nat → ∃ l', shuffleFrom rnd k l = Ok l' ∧ l' ≡ₚ l.
Proof.
  revert l. induction k as [|i IH]; intros l Hk; [by exists l|].
  destruct i as [|i']; [by exists l|].
  destruct (swap_perm (S i') (rnd (S i') `mod` S (S i'))%nat l) as (l1 & Hl1 & Hp1);
    [lia| |].
  { pose proof (Nat.mod_upper_bound (rnd (S i')) (S (S i'))). lia. }
  destruct (IH l1) as (l2 & Hl2 & Hp2).
  { rewrite (Permutation_length Hp1). lia. }
  exists l2. split; [|by etrans].
  change (shuffleFrom rnd (S (S i')) l) with
    (l' ← swap (S i') (rnd (S i') `mod` S (S i'))%nat l; shuffleFrom rnd (S i') l').
  by rewrite Hl1.
Qed.

Lemma Shuffle_perm {A} rnd (l : list A) : ∃ l', Shuffle rnd l = Ok l' ∧ l' ≡ₚ l.
Proof. by apply shuffleFrom_perm. Qed.

Lemma elem_of_allPositions b x y :
  (x, y) ∈ allPositions b ↔ isValidCell b x y = true.
Proof.
  unfold allPositions. rewrite isValidCell_true, list_elem_of_bind. split.
  - intros (y' & (x' & Hin & Hx)%list_elem_of_bind & Hy).
    apply list_elem_of_singleton in Hin as [= -> ->].
    apply elem_of_seqZ in Hx, Hy. lia.
  - intros [Hx Hy]. exists y. split; [|apply elem_of_seqZ; lia].
    apply list_elem_of_bind. exists x. split; [by apply list_elem_of_singleton|].
    apply elem_of_seqZ; lia.
Qed.

Lemma NoDup_allPositions b : NoDup (allPositions b).
Proof.
  unfold allPositions. apply NoDup_bind; [| |apply NoDup_seqZ].
  - intros y1 y2 [x y] _ _ (? & [= _ ->]%list_elem_of_singleton & _)%list_elem_of_bind
      (? & [= _ ->]%list_elem_of_singleton & _)%list_elem_of_bind. done.
  - intros y _. apply NoDup_bind; [| |apply NoDup_seqZ].
    + intros x1 x2 [x' y'] _ _ [= -> _]%list_elem_of_singleton
        [= -> _]%list_elem_of_singleton. done.
    + intros x _. apply NoDup_singleton.
Qed.

Lemma length_bind_const {A B} (f : A → list B) n (l : list A) :
  (∀ a, length (f a) = n) → length (l ≫= f) = (length l * n)%nat.
Proof.
  intros Hf. induction l as [|a l IH]; [done|].
  csimpl. rewrite length_app, Hf, IH. lia.
Qed.

Lemma length_allPositions b :
  length (allPositions b) = (Z.to_nat (Height b) * Z.to_nat (Width b))%nat.
Proof.
  unfold allPositions.
  rewrite (length_bind_const _ (Z.to_nat (Width b))), length_seqZ; [done|].
  intros y. rewrite (length_bind_const _ 1%nat), length_seqZ; [lia|done].
Qed.

Lemma forM_preserves {A S} (J : S → Prop) (l : list A) (body : A → S → res S) s s' :
  (∀ a s s', J s → body a s = Ok s' → J s') →
  J s → forM l body s = Ok s' → J s'.
Proof.
  intros Hbody. revert s. induction l as [|a l IH]; intros s HJ H; simpl in H.
  - by injection H as <-.
  - apply rbind_Ok in H as (s1 & H1 & H). eauto.
Qed.

Lemma alloc_rows width n :
  0 ≤ width →
  forM (seq 0 n) (λ i cells,
    row ← makeSlice zeroCell width; Ok (<[i:=row]> cells)) (replicate n [])
  = Ok (replicate n (replicate (Z.to_nat width) zeroCell)).
Proof.
  intros Hw. set (full := replicate (Z.to_nat width) zeroCell).
  edestruct (forM_invariant
    (λ (done : list nat) (cells : list (list Cell)),
       length cells = n ∧ ∀ k, (k < length done)%nat → cells !! k = Some full)
    (seq 0 n)) as (cells & -> & Hlen & Hall).
  - split; [apply length_replicate|]. simpl. lia.
  - intros done i rest cells Hseq [Hlen Hall].
    assert (i = length done ∧ (i < n)%nat) as [-> Hi].
    { assert (seq 0 n !! length done = Some i) as Hl.
      { rewrite Hseq. by apply list_lookup_middle. }
      apply lookup_seq in Hl. lia. }
    unfold makeSlice. rewrite bool_decide_eq_false_2 by lia. simpl.
    eexists. split; [done|]. split; [by rewrite length_insert|].
    intros k Hk. rewrite length_app in Hk. simpl in Hk.
    destruct (decide (k = length done)) as [->|].
    + apply list_lookup_insert_eq. lia.
    + rewrite list_lookup_insert_ne by done. apply Hall. lia.
  - f_equal. rewrite length_seq in Hall.
    apply list_eq_same_length with n; [apply length_replicate|done|].
    intros k r1 r2 Hk Hr1 Hr2. rewrite Hall in Hr1 by done.
    apply lookup_replicate in Hr2 as [-> _]. congruence.
Qed.

Lemma makeSlice_Ok {A} (zero : A) n l :
  makeSlice zero n = Ok l ↔ 0 ≤ n ∧ l = replicate (Z.to_nat n) zero.
Proof.
  unfold makeSlice. case_bool_decide; split; try done.
  - intros [? _]. lia.
  - intros [= <-]. split; [lia|done].
  - by intros [_ ->].
Qed.

Lemma alloc_Ok width height cells :
  (cells ← makeSlice [] height;
   forM (seq 0 (length cells)) (λ i cells,
     row ← makeSlice zeroCell width; Ok (<[i:=row]> cells)) cells) = Ok cells ↔
  0 ≤ height ∧ (height = 0 ∨ 0 ≤ width) ∧
  cells = replicate (Z.to_nat height) (replicate (Z.to_nat width) zeroCell).
Proof.
  rewrite rbind_Ok. setoid_rewrite makeSlice_Ok.
  destruct (decide (0 ≤ width)) as [Hw|Hw].
  - split.
    + intros (? & [Hh ->] & H). rewrite length_replicate, alloc_rows in H by done.
      injection H as <-. auto.
    + intros (Hh & _ & ->). eexists. split; [done|].
      by rewrite length_replicate, alloc_rows.
  - destruct (Z.to_nat height) as [|n] eqn:En.
    + split.
      * intros (? & [Hh ->] & H). simpl in H. injection H as <-.
        split; [done|]. split; [lia|done].
      * intros (Hh & _ & ->). eexists. split; [done|]. done.
    + split.
      * intros (? & [Hh ->] & H). simpl in H.
        unfold makeSlice in H. rewrite bool_decide_eq_true_2 in H by lia. done.
      * intros (_ & [?|?] & _); lia.
Qed.

Lemma NewBoard_Ok rnd width height mines b :
  NewBoard rnd width height mines = Ok b ↔
  0 ≤ height ∧ (height = 0 ∨ 0 ≤ width) ∧
  ∃ b1, placeMines rnd mines (emptyBoard width height) = Ok b1 ∧
        calculateAdjMines b1 = Ok b.
Proof.
  unfold NewBoard, emptyBoard. rewrite rbind_Ok. split.
  - intros (c0 & H0 & (cells & H1 & (b1 & H2 & H3)%rbind_Ok)%rbind_Ok).
    assert ((cells ← makeSlice [] height;
             forM (seq 0 (length cells)) (λ i cells,
               row ← makeSlice zeroCell width; Ok (<[i:=row]> cells)) cells)
            = Ok cells) as Halloc.
    { apply rbind_Ok. eauto. }
    apply alloc_Ok in Halloc as (? & ? & ->). eauto 10.
  - intros (Hh & Hw & b1 & H2 & H3).
    pose proof (proj2 (alloc_Ok width height _) (conj Hh (conj Hw eq_refl)))
      as Halloc.
    apply rbind_Ok in Halloc as (c0 & H0 & H1).
    exists c0. split; [done|]. apply rbind_Ok. eexists. split; [done|].
    apply rbind_Ok. eauto.
Qed.

Lemma emptyBoard_wf width height :
  0 ≤ height → height = 0 ∨ 0 ≤ width → wf (emptyBoard width height).
Proof.
  intros Hh Hw. split; simpl.
  - rewrite length_replicate. lia.
  - intros row [-> ?]%elem_of_replicate. rewrite length_replicate.
    destruct Hw as [->|?]; [done|lia].
Qed.

Lemma emptyBoard_cell width height x y c :
  cellAt (emptyBoard width height) x y = Ok c → c = zeroCell.
Proof.
  intros (_ & _ & row & Hrow & Hc)%cellAt_Ok. simpl in Hrow.
  apply lookup_replicate in Hrow as [-> _].
  by apply lookup_replicate in Hc as [-> _].
Qed.

Lemma wrap_small z : - 2 ^ 63 ≤ z ≤ max_int → wrap z = z.
Proof.
  unfold wrap, max_int. intros H.
  rewrite Z.mod_small; lia.
Qed.

Lemma placeMines_inv rnd mines b0 b1 :
  placeMines rnd mines b0 = Ok b1 → wf b0 → pristine b0 →
  wf b1 ∧ Width b1 = Width b0 ∧ Height b1 = Height b0 ∧ pristine b1.
Proof.
  unfold placeMines. case_bool_decide; [done|].
  intros (positions & _ & Hloop)%rbind_Ok Hwf Hpr.
  revert Hloop.
  apply (forM_preserves (λ b, wf b ∧ Width b = Width b0 ∧
                               Height b = Height b0 ∧ pristine b)); [|done].
  intros i b b' (Hwfb & Hw & Hh & Hprb) ([x y] & _ & Hupd)%rbind_Ok.
  split; [by eapply updCell_wf|].
  split; [by rewrite (updCell_Width _ _ _ _ _ Hupd)|].
  split; [by rewrite (updCell_Height _ _ _ _ _ Hupd)|].
  intros u v c Hc.
  destruct (decide ((u, v) = (x, y))) as [[= -> ->]|Hne].
  - destruct (updCell_old _ _ _ _ _ Hupd) as (c0 & Hc0 & Hc0').
    rewrite Hc0' in Hc. injection Hc as <-. simpl. by apply (Hprb x y).
  - rewrite (updCell_other _ _ _ _ _ _ _ Hupd Hne) in Hc. by apply (Hprb u v).
Qed.

Lemma countCells_none p b :
  (∀ x y c, cellAt b x y = Ok c → p c = false) → countCells p b = 0%nat.
Proof.
  intros H. unfold countCells.
  assert (∀ row, row ∈ Cells b → length (filter (λ c, p c = true) row) = 0%nat)
    as Hrows.
  { intros row [j Hj]%list_elem_of_lookup.
    assert (∀ c, c ∈ row → p c = false) as Hrow.
    { intros c [i Hi]%list_elem_of_lookup.
      apply (H (Z.of_nat i) (Z.of_nat j)), cellAt_Ok.
      rewrite !Nat2Z.id. split; [lia|]. split; [lia|]. eauto. }
    clear Hj. induction row as [|c row IH]; [done|].
    rewrite filter_cons_False.
    - apply IH. intros c' Hc'. apply Hrow. by right.
    - rewrite Hrow; [done|by left]. }
  induction (Cells b) as [|row rows IH]; [done|].
  csimpl. rewrite Hrows by (by left). apply IH.
  intros row' Hrow'. apply Hrows. by right.
Qed.

Lemma placeMines_count rnd mines b0 :
  wf b0 → (∀ x y c, cellAt b0 x y = Ok c → IsMine c = false) →
  0 ≤ Width b0 → 0 ≤ Height b0 → Width b0 * Height b0 * 5 ≤ max_int →
  ∃ b1, placeMines rnd mines b0 = Ok b1 ∧
        Z.of_nat (mineCount b1) = effectiveMines (Width b0) (Height b0) mines.
Proof.
  intros Hwf Hsafe Hw Hh Hfit. unfold placeMines, effectiveMines.
  pose proof (countCells_none IsMine b0 Hsafe) as Hcount.
  assert (0 ≤ Width b0 * Height b0) by lia.
  rewrite !wrap_small by (unfold max_int in *; lia).
  rewrite bool_decide_eq_false_2 by lia.
  rewrite Z.quot_div_nonneg by lia.
  set (maxMines := Width b0 * Height b0 * 5 / 9).
  assert (0 ≤ maxMines ≤ Width b0 * Height b0) as HmaxMines.
  { unfold maxMines. split; [apply Z.div_pos; lia|].
    apply Z.div_le_upper_bound; lia. }
  set (m := if bool_decide (mines > maxMines) then maxMines else mines).
  assert (m = Z.min mines maxMines) as Hm by (unfold m; case_bool_decide; lia).
  destruct (Shuffle_perm rnd (allPositions b0)) as (positions & -> & Hperm).
  simpl.
  assert (NoDup positions) as Hnodup.
  { rewrite Hperm. apply NoDup_allPositions. }
  assert (Z.of_nat (length positions) = Width b0 * Height b0) as Hlen.
  { rewrite (Permutation_length Hperm), length_allPositions. lia. }
  edestruct (forM_invariant
    (λ (done : list Z) b,
       wf b ∧ Width b = Width b0 ∧ Height b = Height b0 ∧
       mineCount b = length done ∧
       ∀ x y c, cellAt b x y = Ok c → IsMine c = true →
                (x, y) ∈ take (length done) positions)
    (seqZ 0 m)
    (λ i b, '(x, y) ← index positions i; updCell setMine x y b) b0)
    as (b1 & Hb1 & _ & _ & _ & Hcnt & _).
  - split; [done|]. do 2 (split; [done|]). split; [done|].
    intros x y c Hc Hmine. rewrite (Hsafe _ _ _ Hc) in Hmine. done.
  - intros done i rest b Hseq (Hwfb & Hwb & Hhb & Hcntb & Hmines).
    assert (i = Z.of_nat (length done) ∧ Z.of_nat (length done) < m) as [-> Hi].
    { assert (seqZ 0 m !! length done = Some i) as Hl.
      { rewrite Hseq. by apply list_lookup_middle. }
      apply lookup_seqZ in Hl. lia. }
    destruct (lookup_lt_is_Some_2 positions (length done)) as [[x y] Hxy]; [lia|].
    cbv beta. rewrite (proj2 (index_nat _ _ _) Hxy). simpl.
    assert (isValidCell b x y = true) as Hv.
    { unfold isValidCell. rewrite Hwb, Hhb. apply elem_of_allPositions.
      rewrite <-Hperm. by eapply list_elem_of_lookup_2. }
    destruct (valid_cellAt _ _ _ Hwfb Hv) as [c Hc].
    destruct (cellAt_updCell setMine _ _ _ _ Hc) as [b' Hb'].
    assert (IsMine c = false) as Hnomine.
    { destruct (IsMine c) eqn:E; [|done].
      apply Hmines in Hc as (k & Hk & Hlt)%elem_of_take; [|done].
      pose proof (NoDup_lookup _ _ _ _ Hnodup Hk Hxy). lia. }
    exists b'. split; [done|].
    split; [by eapply updCell_wf|].
    split; [by rewrite (updCell_Width _ _ _ _ _ Hb')|].
    split; [by rewrite (updCell_Height _ _ _ _ _ Hb')|].
    rewrite length_app; simpl. split.
    + pose proof (countCells_updCell IsMine _ _ _ _ _ _ Hb' Hc) as Hcc.
      rewrite Hnomine in Hcc. simpl in Hcc. unfold mineCount in *. lia.
    + intros u v cu Hcu Hmine. rewrite Nat.add_1_r, (take_S_r _ _ _ Hxy).
      apply elem_of_app.
      destruct (decide ((u, v) = (x, y))) as [->|Hne].
      * right. by apply list_elem_of_singleton.
      * left. rewrite (updCell_other _ _ _ _ _ _ _ Hb' Hne) in Hcu. eauto.
  - exists b1. split; [done|]. rewrite Hcnt, length_seqZ. lia.
Qed.

Lemma mineAt_valid b x y : wf b → mineAt b x y = true → isValidCell b x y = true.
Proof.
  unfold mineAt. intros Hwf H.
  destruct (cellAt b x y) eqn:E; [|done..]. by eapply cellAt_valid.
Qed.

Lemma countAdjMines_spec b x y :
  wf b → countAdjMines b x y = Ok (Z.of_nat (adjCount b x y)).
Proof.
  intros Hwf. unfold countAdjMines, adjCount.
  cut (∀ l acc,
    forM l (λ '(i, j) count,
      if bool_decide (i = 0) && bool_decide (j = 0) then Ok count
      else
        let adjX := x + i in
        let adjY := y + j in
        if isValidCell b adjX adjY then
          c ← cellAt b adjX adjY;
          if IsMine c then Ok (count + 1) else Ok count
        else Ok count) acc
    = Ok (acc + Z.of_nat (length (filter
        (λ ij : Z * Z, ij ≠ (0, 0) ∧ mineAt b (x + ij.1) (y + ij.2) = true) l)))).
  { intros H. by rewrite H. }
  induction l as [|[i j] l IH]; intros acc.
  { simpl. f_equal. lia. }
  rewrite forM_cons. cbv beta iota zeta.
  destruct (decide ((i, j) = (0, 0))) as [[= -> ->]|Hne].
  - rewrite filter_cons_False by (by intros [? _]). simpl. apply IH.
  - replace (bool_decide (i = 0) && bool_decide (j = 0)) with false; cycle 1.
    { symmetry. apply andb_false_iff. rewrite !bool_decide_eq_false.
      destruct (decide (i = 0)) as [->|]; [right|by left].
      intros ->. by apply Hne. }
    destruct (isValidCell b (x + i) (y + j)) eqn:Hv.
    + destruct (valid_cellAt _ _ _ Hwf Hv) as [c Hc].
      rewrite Hc. cbn [mbind res_bind].
      destruct (IsMine c) eqn:Hm.
      * rewrite filter_cons_True by (by unfold mineAt; simpl; rewrite Hc).
        cbn [mbind res_bind]. rewrite IH. simpl length. f_equal. lia.
      * rewrite filter_cons_False; [apply IH|].
        unfold mineAt; simpl; rewrite Hc. intros [_ ?]. congruence.
    + rewrite filter_cons_False; [apply IH|].
      intros [_ Hm%mineAt_valid]; [|done]. simpl in Hm. congruence.
Qed.

Lemma adjCount_hazardNeighbours b x y :
  wf b → adjCount b x y = hazardNeighbours b x y.
Proof.
  intros Hwf. unfold adjCount, hazardNeighbours.
  rewrite <-(length_fmap (λ ij : Z * Z, (x + ij.1, y + ij.2))).
  apply Permutation_length, NoDup_Permutation.
  - apply NoDup_fmap_2_strong.
    + intros [i1 j1] [i2 j2] _ _ [= ? ?]. f_equal; lia.
    + apply NoDup_filter. rewrite offsetPairs_eq.
      repeat (apply NoDup_cons; split; [set_solver|]). apply NoDup_nil_2.
  - apply NoDup_filter, NoDup_allPositions.
  - intros [u v]. rewrite list_elem_of_fmap, list_elem_of_filter.
    setoid_rewrite list_elem_of_filter.
    rewrite elem_of_allPositions. unfold chebyshev. simpl. split.
    + intros ([i j] & [= -> ->] & (Hne & Hm) & Hij%elem_of_offsetPairs).
      simpl in *. split; [split; [|done]|by apply mineAt_valid].
      destruct (decide (i = 0)) as [->|], (decide (j = 0)) as [->|]; [done|lia..].
    + intros ((Hd & Hm) & Hv). exists (u - x, v - y). simpl.
      split; [f_equal; lia|]. split.
      * split; [intros [= ? ?]; lia|]. by replace (x + (u - x)) with u by lia;
          replace (y + (v - y)) with v by lia.
      * apply elem_of_offsetPairs. lia.
Qed.

Lemma counted_ext b0 done1 done2 b :
  wf b0 →
  (∀ x y, isValidCell b0 x y = true → done1 x y = done2 x y) →
  counted b0 done1 b → counted b0 done2 b.
Proof.
  intros Hwf Hext (? & ? & ? & H). do 3 (split; [done|]).
  intros x y c Hc. rewrite <-Hext by (by eapply cellAt_valid). auto.
Qed.

Lemma counted_mineAt b0 done b u v :
  wf b0 → counted b0 done b → mineAt b u v = mineAt b0 u v.
Proof.
  intros Hwf0 (Hwf & Hw & Hh & H). unfold mineAt.
  destruct (cellAt b0 u v) as [c| |] eqn:Hc.
  - rewrite (H _ _ _ Hc). unfold withCount.
    by destruct (done u v), (IsMine c) eqn:E.
  - destruct (cellAt b u v) as [c'| |] eqn:Hc'; [|done..].
    apply cellAt_valid in Hc'; [|done].
    unfold isValidCell in Hc'. rewrite Hw, Hh in Hc'.
    destruct (valid_cellAt _ _ _ Hwf0 Hc'). congruence.
  - by destruct (cellAt_no_Timeout b0 u v).
Qed.

Lemma counted_adjCount b0 done b x y :
  wf b0 → counted b0 done b → adjCount b x y = adjCount b0 x y.
Proof.
  intros Hwf0 Hc. unfold adjCount. f_equal. apply list_filter_iff.
  intros [i j]. by rewrite (counted_mineAt _ _ _ _ _ Hwf0 Hc).
Qed.

Lemma calculateAdjMinesRow_spec b0 (y : nat) b :
  wf b0 → (y < length (Cells b0))%nat →
  counted b0 (λ _ v, bool_decide (v < Z.of_nat y)) b →
  ∃ b', calculateAdjMinesRow y b = Ok b' ∧
        counted b0 (λ _ v, bool_decide (v < Z.of_nat (S y))) b'.
Proof.
  intros Hwf0 Hy Hb. unfold calculateAdjMinesRow.
  pose proof Hb as (Hwf & Hw & Hh & Hcells).
  destruct (lookup_lt_is_Some_2 (Cells b) y) as [row Hrow].
  { destruct Hwf as [? _], Hwf0 as [? _]. lia. }
  rewrite (proj2 (index_nat _ _ _) Hrow). cbn [mbind res_bind].
  assert (Z.of_nat (length row) = Width b0) as Hlen.
  { rewrite <-Hw. apply Hwf. by eapply list_elem_of_lookup_2. }
  edestruct (forM_invariant
    (λ (done : list nat) b,
       counted b0 (λ u v, bool_decide (v < Z.of_nat y) ||
                          bool_decide (v = Z.of_nat y) &&
                          bool_decide (u < Z.of_nat (length done))) b)
    (seq 0 (length row))
    (λ (x : nat) b,
       c ← cellAt b (Z.of_nat x) (Z.of_nat y);
       if negb (IsMine c) then
         n ← countAdjMines b (Z.of_nat x) (Z.of_nat y);
         updCell (setAdjMines n) (Z.of_nat x) (Z.of_nat y) b
       else Ok b) b) as (b' & Hb' & Hdone).
  - eapply counted_ext; [done| |exact Hb].
    intros u v (? & ?)%isValidCell_true. simpl.
    rewrite (bool_decide_eq_false_2 (u < 0)) by lia.
    by rewrite andb_false_r, orb_false_r.
  - intros done x rest b1 Hseq Hb1.
    assert (x = length done ∧ (x < length row)%nat) as [-> Hx].
    { assert (seq 0 (length row) !! length done = Some x) as Hl.
      { rewrite Hseq. by apply list_lookup_middle. }
      apply lookup_seq in Hl. lia. }
    pose proof Hb1 as (Hwf1 & Hw1 & Hh1 & Hcells1).
    assert (isValidCell b0 (Z.of_nat (length done)) (Z.of_nat y) = true) as Hv.
    { apply isValidCell_true. destruct Hwf0 as [? _]. lia. }
    destruct (valid_cellAt _ _ _ Hwf0 Hv) as [c Hc].
    pose proof (Hcells1 _ _ _ Hc) as Hc1. simpl in Hc1.
    rewrite (bool_decide_eq_false_2 (_ < _)), (bool_decide_eq_false_2 (_ < _))
      in Hc1 by lia.
    rewrite andb_false_r in Hc1. simpl in Hc1.
    rewrite Hc1. cbn [mbind res_bind].
    assert (∀ b2,
      Width b2 = Width b0 → Height b2 = Height b0 → wf b2 →
      cellAt b2 (Z.of_nat (length done)) (Z.of_nat y)
        = Ok (withCount b0 (Z.of_nat (length done)) (Z.of_nat y) c) →
      (∀ u v, (u, v) ≠ (Z.of_nat (length done), Z.of_nat y) →
              cellAt b2 u v = cellAt b1 u v) →
      counted b0 (λ u v, bool_decide (v < Z.of_nat y) ||
                         bool_decide (v = Z.of_nat y) &&
                         bool_decide (u < Z.of_nat (length (done ++ [length done])))) b2)
      as Hnew.
    { intros b2 Hw2 Hh2 Hwf2 Hsame Hother. do 3 (split; [done|]).
      intros u v cu Hcu.
      destruct (decide ((u, v) = (Z.of_nat (length done), Z.of_nat y)))
        as [[= -> ->]|Hne].
      - assert (cu = c) as -> by congruence. rewrite Hsame.
        rewrite (bool_decide_eq_true_2 (_ = _)) by done.
        rewrite (bool_decide_eq_true_2 (Z.of_nat (length done) < _)); cycle 1.
        { rewrite length_app. simpl. lia. }
        by rewrite orb_true_r.
      - rewrite (Hother _ _ Hne), (Hcells1 _ _ _ Hcu).
        rewrite length_app. simpl length.
        destruct (decide (v = Z.of_nat y)) as [->|?].
        + assert (u ≠ Z.of_nat (length done)) by (intros ->; by apply Hne).
          by rewrite (bool_decide_ext (u < Z.of_nat (length done + 1))
                     (u < Z.of_nat (length done))) by lia.
        + by rewrite !(bool_decide_eq_false_2 (v = _)) by done. }
    destruct (IsMine c) eqn:Hm; simpl.
    + exists b1. split; [done|]. apply Hnew; try done.
      by rewrite Hc1; unfold withCount; rewrite Hm.
    + rewrite (countAdjMines_spec _ _ _ Hwf1). cbn [mbind res_bind].
      destruct (cellAt_updCell
        (setAdjMines (Z.of_nat (adjCount b1 (Z.of_nat (length done)) (Z.of_nat y))))
        _ _ _ _ Hc1) as [b2 Hb2].
      exists b2. split; [done|]. apply Hnew.
      * by rewrite (updCell_Width _ _ _ _ _ Hb2).
      * by rewrite (updCell_Height _ _ _ _ _ Hb2).
      * by eapply updCell_wf.
      * rewrite (updCell_same _ _ _ _ _ _ Hb2 Hc1). unfold withCount.
        by rewrite Hm, (counted_adjCount _ _ _ _ _ Hwf0 Hb1).
      * intros u v Hne. by eapply updCell_other.
  - exists b'. split; [done|]. eapply counted_ext; [done| |exact Hdone].
    intros u v (? & ?)%isValidCell_true. simpl. rewrite length_seq.
    destruct (decide (v = Z.of_nat y)) as [->|?].
    + rewrite (bool_decide_eq_true_2 (_ = _)) by done.
      rewrite (bool_decide_eq_true_2 (u < _)) by lia.
      rewrite orb_true_r. symmetry. apply bool_decide_eq_true_2. lia.
    + rewrite (bool_decide_eq_false_2 (v = _)) by done.
      rewrite andb_false_l, orb_false_r. apply bool_decide_ext. lia.
Qed.

Lemma calculateAdjMines_spec b0 :
  wf b0 →
  ∃ b, calculateAdjMines b0 = Ok b ∧ wf b ∧
       Width b = Width b0 ∧ Height b = Height b0 ∧
       ∀ x y c, cellAt b0 x y = Ok c → cellAt b x y = Ok (withCount b0 x y c).
Proof.
  intros Hwf0. unfold calculateAdjMines.
  edestruct (forM_invariant
    (λ (done : list nat) b,
       counted b0 (λ _ v, bool_decide (v < Z.of_nat (length done))) b)
    (seq 0 (length (Cells b0))) calculateAdjMinesRow b0)
    as (b & Hb & Hwf & Hw & Hh & Hcells).
  - do 3 (split; [done|]). intros x y c Hc.
    apply cellAt_Ok in Hc as Hy. simpl.
    by rewrite bool_decide_eq_false_2 by lia.
  - intros done y rest b1 Hseq Hb1.
    assert (y = length done ∧ (y < length (Cells b0))%nat) as [-> Hy].
    { assert (seq 0 (length (Cells b0)) !! length done = Some y) as Hl.
      { rewrite Hseq. by apply list_lookup_middle. }
      apply lookup_seq in Hl. lia. }
    destruct (calculateAdjMinesRow_spec b0 (length done) b1) as (b2 & ? & Hb2);
      try done.
    exists b2. split; [done|]. rewrite length_app. simpl.
    by rewrite Nat.add_1_r.
  - exists b. do 4 (split; [done|]). intros x y c Hc.
    rewrite (Hcells _ _ _ Hc), length_seq.
    rewrite bool_decide_eq_true_2; [done|].
    apply cellAt_valid, isValidCell_true in Hc; [|done].
    destruct Hwf0 as [? _]. lia.
Qed.

Lemma cellsRel_cell R b1 b2 x y c1 :
  cellsRel R b1 b2 → cellAt b1 x y = Ok c1 →
  ∃ c2, cellAt b2 x y = Ok c2 ∧ R c1 c2.
Proof.
  intros (_ & _ & H) Hc. specialize (H x y). rewrite Hc in H.
  destruct (cellAt b2 x y); naive_solver.
Qed.

Lemma cellsRel_valid R b1 b2 x y :
  cellsRel R b1 b2 → isValidCell b2 x y = isValidCell b1 x y.
Proof. intros (Hw & Hh & _). unfold isValidCell. by rewrite Hw, Hh. Qed.

Lemma cellsRel_updCell R f x y b1 b2 b1' :
  (∀ c1 c2, R c1 c2 → R (f c1) (f c2)) →
  cellsRel R b1 b2 → updCell f x y b1 = Ok b1' →
  ∃ b2', updCell f x y b2 = Ok b2' ∧ cellsRel R b1' b2'.
Proof.
  intros Hf Hrel Hb1'.
  destruct (updCell_old _ _ _ _ _ Hb1') as (c1 & Hc1 & Hc1').
  destruct (cellsRel_cell _ _ _ _ _ _ Hrel Hc1) as (c2 & Hc2 & HR).
  destruct (cellAt_updCell f _ _ _ _ Hc2) as [b2' Hb2'].
  exists b2'. split; [done|]. destruct Hrel as (Hw & Hh & Hcells).
  split; [by rewrite (updCell_Width _ _ _ _ _ Hb1'), (updCell_Width _ _ _ _ _ Hb2')|].
  split; [by rewrite (updCell_Height _ _ _ _ _ Hb1'), (updCell_Height _ _ _ _ _ Hb2')|].
  intros u v. destruct (decide ((u, v) = (x, y))) as [[= -> ->]|Hne].
  - rewrite Hc1', (updCell_same _ _ _ _ _ _ Hb2' Hc2). simpl. auto.
  - rewrite (updCell_other _ _ _ _ _ _ _ Hb1' Hne),
      (updCell_other _ _ _ _ _ _ _ Hb2' Hne). apply Hcells.
Qed.

(** What [RevealCell] reads of a cell: [Revealed], [IsMine], and whether
    the count of a safe cell is zero.  Boards that agree on what is read
    are revealed alike. *)
Section Noninterference.
Variable R : Cell → Cell → Prop.
Hypothesis R_Revealed : ∀ c1 c2, R c1 c2 → Revealed c1 = Revealed c2.
Hypothesis R_IsMine : ∀ c1 c2, R c1 c2 → IsMine c1 = IsMine c2.
Hypothesis R_AdjMines : ∀ c1 c2,
  R c1 c2 → IsMine c1 = false → AdjMines c1 = AdjMines c2.
Hypothesis R_setRevealed : ∀ c1 c2, R c1 c2 → R (setRevealed c1) (setRevealed c2).

Lemma RevealCellRec_sim fuel x y b1 b2 r b1' :
  cellsRel R b1 b2 → RevealCellRec fuel x y b1 = Ok (r, b1') →
  ∃ b2', RevealCellRec fuel x y b2 = Ok (r, b2') ∧ cellsRel R b1' b2'.
Proof using All.
  revert x y b1 b2 r b1'.
  induction fuel as [|fuel IH]; intros x y b1 b2 r b1' Hrel Hrun; [done|].
  pose proof (cellsRel_valid _ _ _ x y Hrel) as Hvalid.
  destruct (RevealCellRec_S fuel x y b1)
    as [Hv| |c1 Hv Hc1 Hr1|c1 b11 Hv Hc1 Hr1 Hb11 Hm1
        |c1 b11 Hv Hc1 Hr1 Hb11 Hm1 Hz1|c1 b11 Hv Hc1 Hr1 Hb11 Hm1 Hz1];
    try done.
  - injection Hrun as <- <-. exists b2. split; [|done].
    destruct (RevealCellRec_S fuel x y b2); congruence.
  - injection Hrun as <- <-. exists b2. split; [|done].
    destruct (cellsRel_cell _ _ _ _ _ _ Hrel Hc1) as (c2 & Hc2 & HR).
    pose proof (R_Revealed _ _ HR).
    destruct (RevealCellRec_S fuel x y b2); same_lhs; congruence.
  - injection Hrun as <- <-.
    destruct (cellsRel_cell _ _ _ _ _ _ Hrel Hc1) as (c2 & Hc2 & HR).
    pose proof (R_Revealed _ _ HR). pose proof (R_IsMine _ _ HR).
    destruct (cellsRel_updCell _ _ _ _ _ _ _ R_setRevealed Hrel Hb11)
      as (b21 & Hb21 & Hrel1).
    exists b21. split; [|done].
    destruct (RevealCellRec_S fuel x y b2); same_lhs; congruence.
  - injection Hrun as <- <-.
    destruct (cellsRel_cell _ _ _ _ _ _ Hrel Hc1) as (c2 & Hc2 & HR).
    pose proof (R_Revealed _ _ HR). pose proof (R_IsMine _ _ HR).
    pose proof (R_AdjMines _ _ HR Hm1).
    destruct (cellsRel_updCell _ _ _ _ _ _ _ R_setRevealed Hrel Hb11)
      as (b21 & Hb21 & Hrel1).
    exists b21. split; [|done].
    destruct (RevealCellRec_S fuel x y b2); same_lhs; congruence.
  - apply rbind_Ok in Hrun as (b12 & Hloop & [= <- <-]).
    destruct (cellsRel_cell _ _ _ _ _ _ Hrel Hc1) as (c2 & Hc2 & HR).
    pose proof (R_Revealed _ _ HR). pose proof (R_IsMine _ _ HR).
    pose proof (R_AdjMines _ _ HR Hm1).
    destruct (cellsRel_updCell _ _ _ _ _ _ _ R_setRevealed Hrel Hb11)
      as (b21 & Hb21 & Hrel1).
    assert (∃ b22, revealLoop fuel x y offsetPairs b21 = Ok b22 ∧
                   cellsRel R b12 b22) as (b22 & Hloop2 & Hrel2).
    { clear -IH Hloop Hrel1. revert b11 b21 Hloop Hrel1.
      induction offsetPairs as [|[i j] l IHl]; intros b11 b21 Hloop Hrel1.
      - rewrite revealLoop_nil in *. injection Hloop as <-. eauto.
      - rewrite revealLoop_cons in *.
        apply rbind_Ok in Hloop as ([r b13] & Hrun & Hloop).
        destruct (IH _ _ _ _ _ _ Hrel1 Hrun) as (b23 & -> & Hrel3).
        simpl. eauto. }
    exists b22. split; [|done].
    destruct (RevealCellRec_S fuel x y b2); same_lhs; try congruence.
    by rewrite Hloop2.
Qed.
End Noninterference.

(** ** [FlagCell] *)

Lemma FlagCell_noop x y b :
  isValidCell b x y = false ∨ (∃ c, cellAt b x y = Ok c ∧ Revealed c = true) →
  FlagCell x y b = Ok b.
Proof.
  unfold FlagCell. intros [->|(c & Hc & Hr)]; [done|].
  destruct (isValidCell b x y); [|done]. simpl. by rewrite Hc; simpl; rewrite Hr.
Qed.

Lemma FlagCell_toggle x y b c :
  isValidCell b x y = true → cellAt b x y = Ok c → Revealed c = false →
  FlagCell x y b = updCell toggleFlagged x y b.
Proof.
  unfold FlagCell. intros -> Hc Hr. simpl. by rewrite Hc; simpl; rewrite Hr.
Qed.

Lemma FlagCell_cases x y b b' :
  wf b → FlagCell x y b = Ok b' →
  b' = b ∨ ∃ c, cellAt b x y = Ok c ∧ Revealed c = false ∧
                updCell toggleFlagged x y b = Ok b'.
Proof.
  unfold FlagCell. intros Hwf.
  destruct (isValidCell b x y) eqn:Hv; simpl; [|intros [= <-]; by left].
  intros (c & Hc & H)%rbind_Ok.
  destruct (Revealed c) eqn:Hr; [injection H as <-; by left|]. right. eauto.
Qed.

Lemma FlagCell_total x y b : wf b → ∃ b', FlagCell x y b = Ok b'.
Proof.
  intros Hwf. unfold FlagCell.
  destruct (isValidCell b x y) eqn:Hv; simpl; [|eauto].
  destruct (valid_cellAt _ _ _ Hwf Hv) as [c Hc]. rewrite Hc; simpl.
  destruct (Revealed c); [eauto|]. by eapply cellAt_updCell.
Qed.

(** ** [CheckWin] *)

Lemma cell_of_row b row c :
  row ∈ Cells b → c ∈ row → ∃ x y, cellAt b x y = Ok c.
Proof.
  intros [j Hj]%list_elem_of_lookup [i Hi]%list_elem_of_lookup.
  exists (Z.of_nat i), (Z.of_nat j). apply cellAt_Ok. rewrite !Nat2Z.id.
  split; [lia|]. split; [lia|]. eauto.
Qed.

Lemma row_of_cell b x y c :
  cellAt b x y = Ok c → ∃ row, row ∈ Cells b ∧ c ∈ row.
Proof.
  intros (_ & _ & row & Hrow & Hc)%cellAt_Ok.
  exists row. split; by eapply list_elem_of_lookup_2.
Qed.

Lemma CheckWin_true b :
  CheckWin b = true ↔
  ∀ x y c, cellAt b x y = Ok c → IsMine c = false → Revealed c = true.
Proof.
  unfold CheckWin. rewrite forallb_forall. setoid_rewrite forallb_forall.
  setoid_rewrite <-list_elem_of_In. split.
  - intros H x y c (row & Hrow & Hc)%row_of_cell Hm.
    specialize (H row Hrow c Hc). rewrite Hm in H. by destruct (Revealed c).
  - intros H row Hrow c Hc. destruct (cell_of_row _ _ _ Hrow Hc) as (x & y & Hxy).
    specialize (H x y c Hxy). destruct (IsMine c); [done|]. by rewrite H.
Qed.

Lemma forallb_false {A} (f : A → bool) l :
  forallb f l = false ↔ ∃ a, a ∈ l ∧ f a = false.
Proof.
  induction l as [|a l IH]; simpl.
  - split; [done|]. by intros (a & ?%elem_of_nil & _).
  - rewrite andb_false_iff, IH. setoid_rewrite elem_of_cons. split.
    + intros [?|(a' & ? & ?)]; eauto.
    + intros (a' & [->|?] & ?); eauto.
Qed.

Lemma CheckWin_false b :
  CheckWin b = false ↔
  ∃ x y c, cellAt b x y = Ok c ∧ IsMine c = false ∧ Revealed c = false.
Proof.
  unfold CheckWin. rewrite forallb_false. setoid_rewrite forallb_false. split.
  - intros (row & Hrow & c & Hc & H).
    destruct (cell_of_row _ _ _ Hrow Hc) as (x & y & Hxy).
    exists x, y, c. by destruct (IsMine c), (Revealed c).
  - intros (x & y & c & (row & Hrow & Hc)%row_of_cell & Hm & Hr).
    exists row. split; [done|]. exists c. split; [done|]. by rewrite Hm, Hr.
Qed.

Lemma resRel_refl {A} (R : A → A → Prop) r : (∀ a, R a a) → resRel R r r.
Proof. intros H. destruct r; simpl; auto. Qed.

Lemma cellsRel_refl R b : (∀ c, R c c) → cellsRel R b b.
Proof. intros H. do 2 (split; [done|]). intros x y. by apply resRel_refl. Qed.

Lemma cellsRel_trans R b1 b2 b3 :
  (∀ c1 c2 c3, R c1 c2 → R c2 c3 → R c1 c3) →
  cellsRel R b1 b2 → cellsRel R b2 b3 → cellsRel R b1 b3.
Proof.
  intros HR (Hw1 & Hh1 & H1) (Hw2 & Hh2 & H2).
  split; [congruence|]. split; [congruence|]. intros x y.
  specialize (H1 x y). specialize (H2 x y).
  destruct (cellAt b1 x y), (cellAt b2 x y), (cellAt b3 x y); simpl in *;
    try done. eauto.
Qed.

Lemma evolves_keeps b b' : evolves b b' → cellsRel keeps b b'.
Proof.
  intros (Hw & Hh & _ & H). do 2 (split; [done|]). intros x y.
  destruct (H x y) as [->|(c & -> & ->)].
  - apply resRel_refl. by intros c.
  - by simpl.
Qed.

Lemma updCell_cellsRel (R : Cell → Cell → Prop) f x y b b' :
  (∀ c, R c c) → (∀ c, R c (f c)) →
  updCell f x y b = Ok b' → cellsRel R b b'.
Proof.
  intros Hrefl Hf Hb'.
  split; [by eapply updCell_Width|]. split; [by eapply updCell_Height|].
  intros u v. destruct (decide ((u, v) = (x, y))) as [[= -> ->]|Hne].
  - destruct (updCell_old _ _ _ _ _ Hb') as (c & -> & ->). apply Hf.
  - rewrite (updCell_other _ _ _ _ _ _ _ Hb' Hne). by apply resRel_refl.
Qed.

Lemma cellsRel_cell_inv R b1 b2 x y c2 :
  cellsRel R b1 b2 → cellAt b2 x y = Ok c2 →
  ∃ c1, cellAt b1 x y = Ok c1 ∧ R c1 c2.
Proof.
  intros (_ & _ & H) Hc. specialize (H x y). rewrite Hc in H.
  destruct (cellAt b1 x y); naive_solver.
Qed.

Lemma cellsRel_mineAt R b b' x y :
  (∀ c c', R c c' → IsMine c' = IsMine c) →
  cellsRel R b b' → mineAt b' x y = mineAt b x y.
Proof.
  intros HR (_ & _ & H). specialize (H x y). unfold mineAt.
  destruct (cellAt b x y), (cellAt b' x y); simpl in *; try done. auto.
Qed.

Lemma hazardNeighbours_ext R b b' x y :
  (∀ c c', R c c' → IsMine c' = IsMine c) →
  cellsRel R b b' → hazardNeighbours b' x y = hazardNeighbours b x y.
Proof.
  intros HR Hrel. unfold hazardNeighbours.
  assert (allPositions b' = allPositions b) as ->.
  { destruct Hrel as (Hw & Hh & _). unfold allPositions. by rewrite Hw, Hh. }
  f_equal. apply list_filter_iff. intros [u v]. simpl.
  by rewrite (cellsRel_mineAt _ _ _ _ _ HR Hrel).
Qed.

Lemma countsOK_keeps b b' : cellsRel keeps b b' → countsOK b → countsOK b'.
Proof.
  intros Hrel Hok x y c' Hc' Hm.
  destruct (cellsRel_cell_inv _ _ _ _ _ _ Hrel Hc') as (c & Hc & Hmc & Hac & _).
  rewrite (hazardNeighbours_ext keeps b b') by (done || by intros ?? (? & _)).
  rewrite Hac. apply Hok; [done|congruence].
Qed.

(** A safe cell with count zero on a board with the right counts has no
    hazard within distance 1. *)
Lemma countsOK_zero b p q cq :
  wf b → countsOK b → zeroAt b p → adj8 p q → cellAt b q.1 q.2 = Ok cq →
  IsMine cq = false.
Proof.
  intros Hwf Hok (c & Hc & Hm & Hz) [Hx Hy] Hcq.
  destruct p as [x y], q as [u v]; simpl in *.
  destruct (decide ((u, v) = (x, y))) as [[= -> ->]|Hne]; [congruence|].
  destruct (IsMine cq) eqn:Hmq; [|done].
  pose proof (Hok _ _ _ Hc Hm) as Hn. rewrite Hz in Hn.
  assert ((u, v) ∈ filter (λ q, chebyshev (x, y) q = 1 ∧ mineAt b q.1 q.2 = true)
                          (allPositions b)) as Hin.
  { apply list_elem_of_filter. split; [split|].
    - unfold chebyshev; simpl.
      assert (u ≠ x ∨ v ≠ y) by (destruct (decide (u = x)); [right|left]; congruence).
      lia.
    - unfold mineAt; simpl. by rewrite Hcq.
    - apply elem_of_allPositions. by eapply cellAt_valid. }
  unfold hazardNeighbours in Hn.
  destruct (filter _ _); [by apply elem_of_nil in Hin|simpl in Hn; lia].
Qed.

(** ** The invariant of a session *)

Lemma NewBoard_spec rnd width height mines b :
  NewBoard rnd width height mines = Ok b →
  wf b ∧ Width b = width ∧ Height b = height ∧ countsOK b ∧
  ∀ x y c, cellAt b x y = Ok c →
    Revealed c = false ∧ Flagged c = false ∧ (IsMine c = true → AdjMines c = 0).
Proof.
  intros (Hh & Hw & b1 & Hplace & Hcalc)%NewBoard_Ok.
  pose proof (emptyBoard_wf _ _ Hh Hw) as Hwf0.
  destruct (placeMines_inv _ _ _ _ Hplace Hwf0) as (Hwf1 & Hw1 & Hh1 & Hpr1).
  { intros x y c ->%emptyBoard_cell. done. }
  destruct (calculateAdjMines_spec b1 Hwf1) as (b' & Hb' & Hwf & Hwb & Hhb & Hcells).
  assert (b' = b) as -> by congruence.
  assert (cellsRel (λ c c', IsMine c' = IsMine c) b1 b) as Hrel.
  { do 2 (split; [done|]). intros x y.
    destruct (cellAt b1 x y) as [c| |] eqn:Hc.
    - rewrite (Hcells _ _ _ Hc). simpl. unfold withCount.
      by destruct (IsMine c) eqn:E.
    - destruct (cellAt b x y) as [c'| |] eqn:Hc'; [|done|].
      + apply cellAt_valid in Hc'; [|done].
        unfold isValidCell in Hc'. rewrite Hwb, Hhb in Hc'.
        destruct (valid_cellAt _ _ _ Hwf1 Hc'). congruence.
      + by destruct (cellAt_no_Timeout b x y).
    - by destruct (cellAt_no_Timeout b1 x y). }
  split; [done|]. split; [by rewrite Hwb|]. split; [by rewrite Hhb|]. split.
  - intros x y c' Hc' Hm.
    destruct (cellsRel_cell_inv _ _ _ _ _ _ Hrel Hc') as (c & Hc & _).
    rewrite (Hcells _ _ _ Hc) in Hc'. injection Hc' as <-.
    unfold withCount in *. destruct (IsMine c) eqn:Hmc; [congruence|]. simpl.
    rewrite (adjCount_hazardNeighbours _ _ _ Hwf1). f_equal. symmetry.
    by apply (hazardNeighbours_ext _ _ _ _ _ (λ c c' H, H) Hrel).
  - intros x y c' Hc'.
    destruct (cellsRel_cell_inv _ _ _ _ _ _ Hrel Hc') as (c & Hc & _).
    rewrite (Hcells _ _ _ Hc) in Hc'. injection Hc' as <-.
    destruct (Hpr1 _ _ _ Hc) as (Ha & Hr & Hf).
    unfold withCount. destruct (IsMine c) eqn:Hmc; simpl; auto.
    do 2 (split; [done|]). by rewrite Hmc.
Qed.

Lemma closed_unrevealed b :
  (∀ x y c, cellAt b x y = Ok c → Revealed c = false) → closed b.
Proof. intros H [x y] (c & Hc & Hr & _). rewrite (H _ _ _ Hc) in Hr. done. Qed.

Lemma NewBoard_invariant rnd width height mines b :
  NewBoard rnd width height mines = Ok b → invariant b.
Proof.
  intros (Hwf & _ & _ & Hok & Hcells)%NewBoard_spec. do 2 (split; [done|]).
  apply closed_unrevealed. intros x y c Hc. by apply (Hcells x y).
Qed.

Lemma RevealCell_total x y b : wf b → ∃ r b', RevealCell x y b = Ok (r, b').
Proof. intros Hwf. apply RevealCellRec_total; [done|lia]. Qed.

Lemma RevealCell_invariant x y b r b' :
  RevealCell x y b = Ok (r, b') → invariant b → invariant b'.
Proof.
  intros Hrun (Hwf & Hok & Hcl).
  pose proof (RevealCellRec_evolves _ _ _ _ _ _ Hrun) as Hev.
  split; [by apply Hev|]. split.
  - eapply countsOK_keeps; [|done]. by apply evolves_keeps.
  - by eapply RevealCellRec_closed.
Qed.

Lemma FlagCell_cellsRel x y b b' (R : Cell → Cell → Prop) :
  (∀ c, R c c) → (∀ c, R c (toggleFlagged c)) →
  wf b → FlagCell x y b = Ok b' → wf b' ∧ cellsRel R b b'.
Proof.
  intros Hrefl Htoggle Hwf Hflag.
  destruct (FlagCell_cases _ _ _ _ Hwf Hflag) as [->|(c & Hc & Hr & Hupd)].
  - split; [done|]. by apply cellsRel_refl.
  - split; [by eapply updCell_wf|]. by eapply updCell_cellsRel.
Qed.

Lemma closed_same b b' :
  cellsRel (λ c c', IsMine c' = IsMine c ∧ AdjMines c' = AdjMines c ∧
                    Revealed c' = Revealed c) b b' →
  closed b → closed b'.
Proof.
  intros Hrel Hcl [x y] (c' & Hc' & Hr & Hm & Hz & [u v] & cq' & Hadj & Hcq' & Hrq).
  simpl in *.
  destruct (cellsRel_cell_inv _ _ _ _ _ _ Hrel Hc') as (c & Hc & ? & ? & ?).
  destruct (cellsRel_cell_inv _ _ _ _ _ _ Hrel Hcq') as (cq & Hcq & ? & ? & ?).
  apply (Hcl (x, y)). exists c. simpl.
  split; [done|]. split; [congruence|]. split; [congruence|]. split; [congruence|].
  exists (u, v), cq. split; [done|]. split; [done|]. congruence.
Qed.

Lemma FlagCell_invariant x y b b' :
  FlagCell x y b = Ok b' → invariant b → invariant b'.
Proof.
  intros Hflag (Hwf & Hok & Hcl). split; [|split].
  - by eapply (FlagCell_cellsRel _ _ _ _ (λ _ _, True)).
  - eapply countsOK_keeps; [|done].
    by eapply (FlagCell_cellsRel _ _ _ _ keeps).
  - eapply closed_same; [|done].
    by eapply (FlagCell_cellsRel _ _ _ _
      (λ c c', IsMine c' = IsMine c ∧ AdjMines c' = AdjMines c ∧
               Revealed c' = Revealed c)).
Qed.

Lemma runOp_invariant op b b' : runOp op b = Ok b' → invariant b → invariant b'.
Proof.
  destruct op as [x y|x y|]; simpl.
  - intros ([r b1] & Hrun & [= <-])%rbind_Ok. by eapply RevealCell_invariant.
  - apply FlagCell_invariant.
  - by intros [= <-].
Qed.

Lemma runOps_invariant ops b b' : runOps ops b = Ok b' → invariant b → invariant b'.
Proof.
  intros Hrun Hinv. revert Hrun.
  apply (forM_preserves invariant); [|done].
  intros op s s' Hs Hop. by eapply runOp_invariant.
Qed.

Lemma reachable_invariant b : reachable b → invariant b.
Proof.
  intros (rnd & w & h & m & b0 & ops & Hnew & Hrun).
  eapply runOps_invariant; [done|]. by eapply NewBoard_invariant.
Qed.

Lemma runOp_total op b : wf b → ∃ b', runOp op b = Ok b' ∧ wf b' ∧ cellsRel keeps b b'.
Proof.
  intros Hwf. destruct op as [x y|x y|]; simpl.
  - destruct (RevealCell_total x y b Hwf) as (r & b' & Hrun). rewrite Hrun. simpl.
    exists b'. split; [done|].
    apply RevealCellRec_evolves in Hrun as Hev.
    split; [by apply Hev|by apply evolves_keeps].
  - destruct (FlagCell_total x y b Hwf) as (b' & Hflag). exists b'.
    split; [done|]. by eapply (FlagCell_cellsRel _ _ _ _ keeps).
  - exists b. split; [done|]. split; [done|]. by apply cellsRel_refl.
Qed.

Lemma runOps_total ops b :
  wf b → ∃ b', runOps ops b = Ok b' ∧ wf b' ∧ cellsRel keeps b b'.
Proof.
  revert b. induction ops as [|op ops IH]; intros b Hwf.
  - exists b. split; [done|]. split; [done|]. by apply cellsRel_refl.
  - destruct (runOp_total op b Hwf) as (b1 & Hop & Hwf1 & Hrel1).
    destruct (IH b1 Hwf1) as (b2 & Hops & Hwf2 & Hrel2).
    exists b2. unfold runOps in *. simpl. rewrite Hop. simpl.
    split; [done|]. split; [done|].
    eapply cellsRel_trans; [|done..].
    intros c1 c2 c3 (? & ? & ?) (? & ? & ?). unfold keeps.
    split; [congruence|]. split; [congruence|]. auto.
Qed.

(** A result at some fuel is the result of [RevealCell]. *)
Lemma RevealCell_of_fuel fuel x y b r b' :
  wf b → RevealCellRec fuel x y b = Ok (r, b') → RevealCell x y b = Ok (r, b').
Proof.
  intros Hwf Hrun. destruct (RevealCell_total x y b Hwf) as (r2 & b2 & Hrun2).
  rewrite Hrun2. unfold RevealCell in Hrun2.
  pose proof (RevealCellRec_fuel_mono _ (Nat.max fuel (S (unrevealed b)))
                _ _ _ _ Hrun ltac:(lia)) as H1.
  pose proof (RevealCellRec_fuel_mono _ (Nat.max fuel (S (unrevealed b)))
                _ _ _ _ Hrun2 ltac:(lia)) as H2.
  congruence.
Qed.

Lemma revealLoop_unrevealed fuel x y l b b' :
  revealLoop fuel x y l b = Ok b' → (unrevealed b' ≤ unrevealed b)%nat.
Proof.
  revert b. induction l as [|[i j] l IH]; intros b H.
  - rewrite revealLoop_nil in H. by injection H as <-.
  - rewrite revealLoop_cons in H. apply rbind_Ok in H as ([r b1] & Hrun & H).
    apply RevealCellRec_unrevealed in Hrun. apply IH in H. lia.
Qed.

(** ** Facts on the sample boards *)

Lemma sampleBoard_wf : wf sampleBoard.
Proof. apply (bool_decide_eq_true_1 _). vm_compute. reflexivity. Defined.

Lemma sampleBoard_new : NewBoard rnd0 4 4 2 = Ok sampleBoard.
Proof. vm_compute. reflexivity. Defined.

Lemma sampleBoard_reachable : reachable sampleBoard.
Proof.
  exists rnd0, 4, 4, 2, sampleBoard, []. split; [exact sampleBoard_new|reflexivity].
Defined.

Lemma flaggedBoard_wf : wf flaggedBoard.
Proof. apply (bool_decide_eq_true_1 _). vm_compute. reflexivity. Defined.

Lemma recountedBoard_wf : wf recountedBoard.
Proof. apply (bool_decide_eq_true_1 _). vm_compute. reflexivity. Defined.

Lemma gapBoard_wf : wf gapBoard.
Proof. apply (bool_decide_eq_true_1 _). vm_compute. reflexivity. Defined.

Lemma flaggedBoard_rel : cellsRel sameButFlagged sampleBoard flaggedBoard.
Proof.
  apply (updCell_cellsRel sameButFlagged toggleFlagged 0 0); [done..|].
  vm_compute. reflexivity.
Defined.

Lemma recountedBoard_rel : cellsRel sameButHazardCount sampleBoard recountedBoard.
Proof.
  assert (cellAt sampleBoard 1 3 = Ok (mkCell true 0 false false)) as Hc
    by (vm_compute; reflexivity).
  assert (updCell (setAdjMines 7) 1 3 sampleBoard = Ok recountedBoard) as Hupd
    by (vm_compute; reflexivity).
  split; [done|]. split; [done|]. intros u v.
  destruct (decide ((u, v) = (1, 3))) as [[= -> ->]|Hne].
  - rewrite Hc, (updCell_same _ _ _ _ _ _ Hupd Hc). by simpl.
  - rewrite (updCell_other _ _ _ _ _ _ _ Hupd Hne). by apply resRel_refl.
Defined.

(** The cells of [gapBoard]. *)
Lemma gapBoard_cells x y c :
  cellAt gapBoard x y = Ok c →
  y = 0 ∧ (x = 0 ∧ c = zeroCell ∨ x = 1 ∧ c = mkCell false 0 true false ∨
           x = 2 ∧ c = zeroCell).
Proof.
  intros Hc. pose proof (cellAt_valid _ _ _ _ gapBoard_wf Hc) as Hv.
  apply isValidCell_true in Hv as [Hx Hy]. simpl in Hx, Hy.
  assert (y = 0) as -> by lia. split; [done|].
  assert (x = 0 ∨ x = 1 ∨ x = 2) as [-> | [-> | ->]] by lia;
    vm_compute in Hc; injection Hc as <-; auto.
Qed.

Lemma gapBoard_countsOK : countsOK gapBoard.
Proof.
  intros x y c Hc _.
  destruct (gapBoard_cells _ _ _ Hc) as (-> & [[-> ->]|[[-> ->]|[-> ->]]]);
    vm_compute; reflexivity.
Qed.

Lemma gapBoard_region : region gapBoard (0, 0) (2, 0).
Proof.
  assert (∀ x, 0 ≤ x ≤ 2 → zeroAt gapBoard (x, 0)) as Hzero.
  { intros x Hx. assert (x = 0 ∨ x = 1 ∨ x = 2) as [-> | [-> | ->]] by lia;
      eexists; (split; [vm_compute; reflexivity|done]). }
  split; [apply Hzero; lia|].
  apply rtc_l with (1, 0).
  { split; [apply Hzero; lia|]. split; [|apply Hzero; lia]. unfold adj8; simpl; lia. }
  apply rtc_once.
  split; [apply Hzero; lia|]. split; [|apply Hzero; lia]. unfold adj8; simpl; lia.
Qed.

(** * The claims *)

(** C7. On every well-formed board and for any coordinates [RevealCell]
    returns: the fuel [S (unrevealed b)] that [RevealCell] gives the
    recursion is enough, and so is any larger amount, with the same result.
    The measure is the number of unrevealed cells: no call increases it, and
    a call that passes the already-revealed guard strictly decreases it. *)
Theorem RevealCell_terminates (b : Board) (x y : Z) :
  wf b →
  ∃ r b',
    RevealCell x y b = Ok (r, b') ∧
    (∀ fuel, (unrevealed b < fuel)%nat → RevealCellRec fuel x y b = Ok (r, b')) ∧
    (unrevealed b' ≤ unrevealed b)%nat ∧
    (∀ c, isValidCell b x y = true → cellAt b x y = Ok c → Revealed c = false →
          (unrevealed b' < unrevealed b)%nat).
Proof.
  intros Hwf. destruct (RevealCell_total x y b Hwf) as (r & b' & Hrun).
  exists r, b'. split; [done|]. split; [|split].
  - intros fuel Hfuel. eapply RevealCellRec_fuel_mono; [exact Hrun|lia].
  - by eapply RevealCellRec_unrevealed.
  - intros c Hv Hc Hr. unfold RevealCell in Hrun.
    destruct (RevealCellRec_S (unrevealed b) x y b)
      as [| | |c1 b1 _ Hc1 Hr1 Hb1 _|c1 b1 _ Hc1 Hr1 Hb1 _ _|c1 b1 _ Hc1 Hr1 Hb1 _ _];
      try congruence.
    + injection Hrun as <- <-.
      rewrite (unrevealed_updCell _ _ _ _ _ Hc1 Hr1 Hb1). lia.
    + injection Hrun as <- <-.
      rewrite (unrevealed_updCell _ _ _ _ _ Hc1 Hr1 Hb1). lia.
    + apply rbind_Ok in Hrun as (b2 & Hloop & [= <- <-]).
      apply revealLoop_unrevealed in Hloop.
      rewrite (unrevealed_updCell _ _ _ _ _ Hc1 Hr1 Hb1). lia.
Qed.

Lemma RevealCell_terminates_witness :
  wf sampleBoard ∧
  ∃ r b',
    RevealCell 0 0 sampleBoard = Ok (r, b') ∧
    (∀ fuel, (unrevealed sampleBoard < fuel)%nat →
             RevealCellRec fuel 0 0 sampleBoard = Ok (r, b')) ∧
    (unrevealed b' ≤ unrevealed sampleBoard)%nat ∧
    (∀ c, isValidCell sampleBoard 0 0 = true → cellAt sampleBoard 0 0 = Ok c →
          Revealed c = false → (unrevealed b' < unrevealed sampleBoard)%nat).
Proof.
  split; [exact sampleBoard_wf|].
  apply (RevealCell_terminates sampleBoard 0 0 sampleBoard_wf).
Defined.

(** C6. On every well-formed board, [RevealCell] at coordinates out of
    bounds, or at a cell already revealed, returns [false] and leaves the
    board as it is; and after any call, a second call at the same
    coordinates is such a no-op. *)
Theorem RevealCell_noop_idempotent (b : Board) (x y : Z) :
  wf b →
  (isValidCell b x y = false → RevealCell x y b = Ok (false, b)) ∧
  (∀ c, cellAt b x y = Ok c → Revealed c = true →
        RevealCell x y b = Ok (false, b)) ∧
  ∃ r b', RevealCell x y b = Ok (r, b') ∧ RevealCell x y b' = Ok (false, b').
Proof.
  intros Hwf.
  assert (∀ b, isValidCell b x y = false → RevealCell x y b = Ok (false, b)) as H1.
  { intros b0 Hv. unfold RevealCell.
    destruct (RevealCellRec_S (unrevealed b0) x y b0); congruence. }
  assert (∀ b c, cellAt b x y = Ok c → Revealed c = true →
                 RevealCell x y b = Ok (false, b)) as H2.
  { intros b0 c Hc Hr. unfold RevealCell.
    destruct (RevealCellRec_S (unrevealed b0) x y b0); same_lhs; congruence. }
  split; [auto|]. split; [eauto|].
  destruct (RevealCell_total x y b Hwf) as (r & b' & Hrun).
  exists r, b'. split; [done|].
  pose proof (RevealCellRec_evolves _ _ _ _ _ _ Hrun) as Hev.
  destruct (isValidCell b x y) eqn:Hv.
  - destruct (RevealCellRec_target _ _ _ _ _ _ Hrun Hv) as (c' & Hc' & Hr'). eauto.
  - apply H1. by rewrite (evolves_valid _ _ _ _ Hev).
Qed.

Lemma RevealCell_noop_idempotent_witness :
  wf sampleBoard ∧ isValidCell sampleBoard 4 0 = false ∧
  RevealCell 4 0 sampleBoard = Ok (false, sampleBoard) ∧
  ∃ r b', RevealCell 0 0 sampleBoard = Ok (r, b') ∧
          RevealCell 0 0 b' = Ok (false, b').
Proof.
  assert (isValidCell sampleBoard 4 0 = false) as Hv by (vm_compute; reflexivity).
  split; [exact sampleBoard_wf|]. split; [exact Hv|]. split.
  - exact (proj1 (RevealCell_noop_idempotent sampleBoard 4 0 sampleBoard_wf) Hv).
  - exact (proj2 (proj2 (RevealCell_noop_idempotent sampleBoard 0 0 sampleBoard_wf))).
Defined.

Lemma toggleFlagged_involutive c : toggleFlagged (toggleFlagged c) = c.
Proof. destruct c as [m a r f]. unfold toggleFlagged; simpl. by rewrite negb_involutive. Qed.

(** C10. [FlagCell] at coordinates out of bounds or at a revealed cell
    leaves the board as it is.  At an unrevealed cell of the board it
    negates [Flagged] of that cell, keeps its three other fields, the
    dimensions and every other cell; flagging the same cell once more gives
    the original board back. *)
Theorem FlagCell_frame (b : Board) (x y : Z) :
  wf b →
  (isValidCell b x y = false → FlagCell x y b = Ok b) ∧
  (∀ c, cellAt b x y = Ok c → Revealed c = true → FlagCell x y b = Ok b) ∧
  (∀ c, isValidCell b x y = true → cellAt b x y = Ok c → Revealed c = false →
     ∃ b' c',
       FlagCell x y b = Ok b' ∧
       Width b' = Width b ∧ Height b' = Height b ∧
       cellAt b' x y = Ok c' ∧
       Flagged c' = negb (Flagged c) ∧ IsMine c' = IsMine c ∧
       AdjMines c' = AdjMines c ∧ Revealed c' = Revealed c ∧
       (∀ u v, (u, v) ≠ (x, y) → cellAt b' u v = cellAt b u v) ∧
       FlagCell x y b' = Ok b).
Proof.
  intros Hwf. split; [|split].
  - intros Hv. apply FlagCell_noop. by left.
  - intros c Hc Hr. apply FlagCell_noop. right. eauto.
  - intros c Hv Hc Hr.
    destruct (cellAt_updCell toggleFlagged _ _ _ _ Hc) as [b' Hb'].
    pose proof (updCell_same _ _ _ _ _ _ Hb' Hc) as Hc'.
    exists b', (toggleFlagged c).
    split; [by rewrite (FlagCell_toggle _ _ _ _ Hv Hc Hr)|].
    split; [by eapply updCell_Width|]. split; [by eapply updCell_Height|].
    split; [done|]. do 4 (split; [done|]).
    split; [intros u v Hne; by eapply updCell_other|].
    rewrite (FlagCell_toggle _ _ _ (toggleFlagged c)); [|by rewrite (updCell_valid _ _ _ _ _ _ _ Hb')|done..].
    destruct (cellAt_updCell toggleFlagged _ _ _ _ Hc') as [b'' Hb''].
    rewrite Hb''. f_equal. apply board_ext.
    + by eapply updCell_wf, updCell_wf.
    + done.
    + by rewrite (updCell_Width _ _ _ _ _ Hb''), (updCell_Width _ _ _ _ _ Hb').
    + by rewrite (updCell_Height _ _ _ _ _ Hb''), (updCell_Height _ _ _ _ _ Hb').
    + intros u v. destruct (decide ((u, v) = (x, y))) as [[= -> ->]|Hne].
      * by rewrite (updCell_same _ _ _ _ _ _ Hb'' Hc'), toggleFlagged_involutive.
      * by rewrite (updCell_other _ _ _ _ _ _ _ Hb'' Hne),
          (updCell_other _ _ _ _ _ _ _ Hb' Hne).
Qed.

Lemma FlagCell_frame_witness :
  wf sampleBoard ∧ isValidCell sampleBoard 0 0 = true ∧
  cellAt sampleBoard 0 0 = Ok zeroCell ∧ Revealed zeroCell = false ∧
  ∃ b' c',
    FlagCell 0 0 sampleBoard = Ok b' ∧
    Width b' = Width sampleBoard ∧ Height b' = Height sampleBoard ∧
    cellAt b' 0 0 = Ok c' ∧
    Flagged c' = negb (Flagged zeroCell) ∧ IsMine c' = IsMine zeroCell ∧
    AdjMines c' = AdjMines zeroCell ∧ Revealed c' = Revealed zeroCell ∧
    (∀ u v, (u, v) ≠ (0, 0) → cellAt b' u v = cellAt sampleBoard u v) ∧
    FlagCell 0 0 b' = Ok sampleBoard.
Proof.
  assert (isValidCell sampleBoard 0 0 = true) as Hv by (vm_compute; reflexivity).
  assert (cellAt sampleBoard 0 0 = Ok zeroCell) as Hc by (vm_compute; reflexivity).
  assert (Revealed zeroCell = false) as Hr by reflexivity.
  split; [exact sampleBoard_wf|]. do 3 (split; [assumption|]).
  exact (proj2 (proj2 (FlagCell_frame sampleBoard 0 0 sampleBoard_wf))
           zeroCell Hv Hc Hr).
Defined.

(** C4. [CheckWin] returns [true] exactly when every safe cell of the
    board is revealed.  It returns [false] as soon as one safe cell is not
    revealed, whatever the hazard cells are; and two boards that differ only
    in [Revealed] and [Flagged] of hazard cells get the same answer. *)
Theorem CheckWin_iff (b : Board) :
  (CheckWin b = true ↔
   ∀ x y c, cellAt b x y = Ok c → IsMine c = false → Revealed c = true) ∧
  ((∃ x y c, cellAt b x y = Ok c ∧ IsMine c = false ∧ Revealed c = false) →
   CheckWin b = false) ∧
  (∀ b2, cellsRel sameButHazardState b b2 → CheckWin b2 = CheckWin b).
Proof.
  split; [apply CheckWin_true|]. split; [apply CheckWin_false|].
  intros b2 Hrel. destruct (CheckWin b) eqn:E.
  - apply CheckWin_true. intros x y c2 Hc2 Hm2.
    destruct (cellsRel_cell_inv _ _ _ _ _ _ Hrel Hc2) as (c & Hc & Hm & _ & Hs).
    rewrite Hm in Hm2. destruct (Hs Hm2) as [-> _].
    by eapply (proj1 (CheckWin_true b)).
  - apply CheckWin_false. apply CheckWin_false in E as (x & y & c & Hc & Hm & Hr).
    destruct (cellsRel_cell _ _ _ _ _ _ Hrel Hc) as (c2 & Hc2 & Hm2 & _ & Hs).
    destruct (Hs Hm) as [Hr2 _]. exists x, y, c2.
    split; [done|]. split; congruence.
Qed.

Lemma CheckWin_iff_witness :
  (∃ x y c, cellAt sampleBoard x y = Ok c ∧ IsMine c = false ∧ Revealed c = false) ∧
  CheckWin sampleBoard = false.
Proof.
  assert (∃ x y c, cellAt sampleBoard x y = Ok c ∧ IsMine c = false ∧
                   Revealed c = false) as H.
  { exists 0, 0, zeroCell. split; [vm_compute; reflexivity|done]. }
  split; [exact H|]. exact (proj1 (proj2 (CheckWin_iff sampleBoard)) H).
Defined.

(** C8. On a constructed board a session never unreveals a cell: whatever
    calls of [RevealCell], [FlagCell] and [CheckWin] come first and whatever
    calls follow, they all return, and a cell that is revealed after the
    first ones is revealed after the following ones. *)
Theorem revealed_never_reverts
    (rnd : nat → nat) (width height mines : Z) (b0 : Board) (ops1 ops2 : list Op) :
  NewBoard rnd width height mines = Ok b0 →
  ∃ b1 b2,
    runOps ops1 b0 = Ok b1 ∧ runOps ops2 b1 = Ok b2 ∧
    ∀ x y c1, cellAt b1 x y = Ok c1 → Revealed c1 = true →
      ∃ c2, cellAt b2 x y = Ok c2 ∧ Revealed c2 = true.
Proof.
  intros (Hwf0 & _)%NewBoard_spec.
  destruct (runOps_total ops1 b0 Hwf0) as (b1 & Hops1 & Hwf1 & _).
  destruct (runOps_total ops2 b1 Hwf1) as (b2 & Hops2 & _ & Hrel).
  exists b1, b2. do 2 (split; [done|]). intros x y c1 Hc1 Hr1.
  destruct (cellsRel_cell _ _ _ _ _ _ Hrel Hc1) as (c2 & Hc2 & _ & _ & Hr2).
  eauto.
Qed.

Lemma revealed_never_reverts_witness :
  NewBoard rnd0 4 4 2 = Ok sampleBoard ∧
  ∃ b1 b2,
    runOps [OpReveal 0 0; OpFlag 3 3] sampleBoard = Ok b1 ∧
    runOps [OpReveal 1 3; OpCheckWin; OpFlag 0 0; OpReveal 2 3] b1 = Ok b2 ∧
    ∀ x y c1, cellAt b1 x y = Ok c1 → Revealed c1 = true →
      ∃ c2, cellAt b2 x y = Ok c2 ∧ Revealed c2 = true.
Proof.
  split; [exact sampleBoard_new|].
  exact (revealed_never_reverts rnd0 4 4 2 sampleBoard
           [OpReveal 0 0; OpFlag 3 3]
           [OpReveal 1 3; OpCheckWin; OpFlag 0 0; OpReveal 2 3] sampleBoard_new).
Defined.

(** C9. Flags and [RevealCell] do not interfere.  On two well-formed boards
    that differ only in [Flagged] fields, [RevealCell] at the same
    coordinates returns the same boolean and leaves boards that again differ
    only in [Flagged] fields, so with the same [Revealed] fields; it changes
    no [Flagged] field; and a flagged target is revealed like any other and
    stays flagged. *)
Theorem flags_do_not_interfere (b1 b2 : Board) (x y : Z) :
  wf b1 → wf b2 → cellsRel sameButFlagged b1 b2 →
  ∃ r b1' b2',
    RevealCell x y b1 = Ok (r, b1') ∧ RevealCell x y b2 = Ok (r, b2') ∧
    cellsRel sameButFlagged b1' b2' ∧
    (∀ u v c, cellAt b1 u v = Ok c →
       ∃ c', cellAt b1' u v = Ok c' ∧ Flagged c' = Flagged c) ∧
    (∀ c, isValidCell b1 x y = true → cellAt b1 x y = Ok c →
       ∃ c', cellAt b1' x y = Ok c' ∧ Revealed c' = true ∧
             Flagged c' = Flagged c).
Proof.
  intros Hwf1 Hwf2 Hrel.
  destruct (RevealCell_total x y b1 Hwf1) as (r & b1' & Hrun1).
  assert (∀ c1 c2, sameButFlagged c1 c2 → Revealed c1 = Revealed c2) as HA
    by (by intros ?? (_ & _ & ?)).
  assert (∀ c1 c2, sameButFlagged c1 c2 → IsMine c1 = IsMine c2) as HB
    by (by intros ?? (? & _)).
  assert (∀ c1 c2, sameButFlagged c1 c2 → IsMine c1 = false →
                   AdjMines c1 = AdjMines c2) as HC
    by (by intros ?? (_ & ? & _)).
  assert (∀ c1 c2, sameButFlagged c1 c2 →
                   sameButFlagged (setRevealed c1) (setRevealed c2)) as HD
    by (by intros ?? (? & ? & ?)).
  destruct (RevealCellRec_sim sameButFlagged HA HB HC HD _ _ _ _ _ _ _ Hrel Hrun1)
    as (b2' & Hrun2 & Hrel').
  apply RevealCell_of_fuel in Hrun2; [|done].
  exists r, b1', b2'. do 3 (split; [done|]).
  pose proof (RevealCellRec_evolves _ _ _ _ _ _ Hrun1) as Hev. split.
  - intros u v c Hc.
    destruct (evolves_cell _ _ _ _ _ Hev Hc) as (c' & ? & _ & _ & ? & _). eauto.
  - intros c Hv Hc.
    destruct (RevealCellRec_target _ _ _ _ _ _ Hrun1 Hv) as (c' & Hc' & Hr').
    destruct (evolves_cell _ _ _ _ _ Hev Hc) as (c'' & ? & _ & _ & ? & _).
    exists c'. split; [done|]. split; [done|]. congruence.
Qed.

Lemma flags_do_not_interfere_witness :
  wf sampleBoard ∧ wf flaggedBoard ∧
  cellsRel sameButFlagged sampleBoard flaggedBoard ∧
  ∃ r b1' b2',
    RevealCell 0 0 sampleBoard = Ok (r, b1') ∧
    RevealCell 0 0 flaggedBoard = Ok (r, b2') ∧
    cellsRel sameButFlagged b1' b2' ∧
    (∀ u v c, cellAt sampleBoard u v = Ok c →
       ∃ c', cellAt b1' u v = Ok c' ∧ Flagged c' = Flagged c) ∧
    (∀ c, isValidCell sampleBoard 0 0 = true → cellAt sampleBoard 0 0 = Ok c →
       ∃ c', cellAt b1' 0 0 = Ok c' ∧ Revealed c' = true ∧
             Flagged c' = Flagged c).
Proof.
  split; [exact sampleBoard_wf|]. split; [exact flaggedBoard_wf|].
  split; [exact flaggedBoard_rel|].
  exact (flags_do_not_interfere sampleBoard flaggedBoard 0 0
           sampleBoard_wf flaggedBoard_wf flaggedBoard_rel).
Defined.

(** C5. On a board of a session: [RevealCell] at an unrevealed hazard cell
    returns [true], sets [Revealed] of that cell and changes nothing else;
    [RevealCell] returns [true] only at such a cell; and no call changes
    [Revealed] of a hazard cell other than its target. *)
Theorem hazard_reveal (b : Board) (x y : Z) :
  reachable b →
  (∀ c, isValidCell b x y = true → cellAt b x y = Ok c →
        Revealed c = false → IsMine c = true →
     ∃ b' c',
       RevealCell x y b = Ok (true, b') ∧
       Width b' = Width b ∧ Height b' = Height b ∧
       cellAt b' x y = Ok c' ∧ Revealed c' = true ∧ IsMine c' = IsMine c ∧
       AdjMines c' = AdjMines c ∧ Flagged c' = Flagged c ∧
       ∀ u v, (u, v) ≠ (x, y) → cellAt b' u v = cellAt b u v) ∧
  (∀ b', RevealCell x y b = Ok (true, b') →
     isValidCell b x y = true ∧
     ∃ c, cellAt b x y = Ok c ∧ Revealed c = false ∧ IsMine c = true) ∧
  (∀ r b' u v c c',
     RevealCell x y b = Ok (r, b') → (u, v) ≠ (x, y) →
     cellAt b u v = Ok c → IsMine c = true → cellAt b' u v = Ok c' →
     Revealed c' = Revealed c).
Proof.
  intros (Hwf & Hok & Hcl)%reachable_invariant. split; [|split].
  - intros c Hv Hc Hr Hm.
    destruct (cellAt_updCell setRevealed _ _ _ _ Hc) as [b' Hb'].
    exists b', (setRevealed c). split.
    { unfold RevealCell.
      destruct (RevealCellRec_S (unrevealed b) x y b); same_lhs; congruence. }
    split; [by eapply updCell_Width|]. split; [by eapply updCell_Height|].
    split; [by eapply updCell_same|]. do 4 (split; [done|]).
    intros u v Hne. by eapply updCell_other.
  - intros b' Hrun. unfold RevealCell in Hrun.
    destruct (RevealCellRec_S (unrevealed b) x y b); try congruence; [eauto|].
    by apply rbind_Ok in Hrun as (? & _ & [=]).
  - intros r b' u v c c' Hrun Hne Hc Hm Hc'.
    pose proof (RevealCellRec_evolves _ _ _ _ _ _ Hrun) as Hev.
    destruct (evolves_cell _ _ _ _ _ Hev Hc) as (c'' & Hc'' & _ & _ & _ & Hmono & _).
    assert (c'' = c') as -> by congruence.
    destruct (Revealed c) eqn:Hr; [auto|].
    destruct (Revealed c') eqn:Hr'; [|done].
    destruct (RevealCellRec_sound _ _ _ _ _ _ _ _ _ _ Hrun Hc Hr Hc' Hr')
      as [?|(p & Hp & Hadj)]; [done|].
    apply region_zero in Hp.
    rewrite (countsOK_zero b p (u, v) c Hwf Hok Hp Hadj Hc) in Hm. done.
Qed.

Lemma hazard_reveal_witness :
  reachable sampleBoard ∧ isValidCell sampleBoard 1 3 = true ∧
  cellAt sampleBoard 1 3 = Ok (mkCell true 0 false false) ∧
  ∃ b' c',
    RevealCell 1 3 sampleBoard = Ok (true, b') ∧
    Width b' = Width sampleBoard ∧ Height b' = Height sampleBoard ∧
    cellAt b' 1 3 = Ok c' ∧ Revealed c' = true ∧ IsMine c' = true ∧
    AdjMines c' = 0 ∧ Flagged c' = false ∧
    ∀ u v, (u, v) ≠ (1, 3) → cellAt b' u v = cellAt sampleBoard u v.
Proof.
  assert (isValidCell sampleBoard 1 3 = true) as Hv by (vm_compute; reflexivity).
  assert (cellAt sampleBoard 1 3 = Ok (mkCell true 0 false false)) as Hc
    by (vm_compute; reflexivity).
  split; [exact sampleBoard_reachable|]. do 2 (split; [done|]).
  exact (proj1 (hazard_reveal sampleBoard 1 3 sampleBoard_reachable)
           (mkCell true 0 false false) Hv Hc eq_refl eq_refl).
Defined.

(** C1, on the boards of a session.  [RevealCell] at an unrevealed safe
    cell with count zero returns [false]; afterwards a cell is revealed
    exactly when it was revealed before, or belongs to the region of the
    target, or to its border; nothing else changes. *)
Theorem flood_fill_exact (b : Board) (x y : Z) (c : Cell) :
  reachable b →
  isValidCell b x y = true → cellAt b x y = Ok c →
  Revealed c = false → IsMine c = false → AdjMines c = 0 →
  ∃ b',
    RevealCell x y b = Ok (false, b') ∧
    Width b' = Width b ∧ Height b' = Height b ∧
    ∀ u v cu, cellAt b u v = Ok cu →
      ∃ cu', cellAt b' u v = Ok cu' ∧
        IsMine cu' = IsMine cu ∧ AdjMines cu' = AdjMines cu ∧
        Flagged cu' = Flagged cu ∧
        (Revealed cu' = true ↔
         Revealed cu = true ∨ region b (x, y) (u, v) ∨ border b (x, y) (u, v)).
Proof.
  intros (Hwf & Hok & Hcl)%reachable_invariant Hv Hc Hr Hm Hz.
  destruct (RevealCell_total x y b Hwf) as (r & b' & Hrun).
  assert (r = false) as ->.
  { unfold RevealCell in Hrun.
    destruct (RevealCellRec_S (unrevealed b) x y b); same_lhs; try congruence.
    by apply rbind_Ok in Hrun as (? & _ & [=]). }
  exists b'. split; [done|].
  pose proof (RevealCellRec_evolves _ _ _ _ _ _ Hrun) as Hev.
  split; [apply Hev|]. split; [apply Hev|].
  assert (zeroAt b (x, y)) as Hzero by (by exists c).
  intros u v cu Hcu.
  destruct (evolves_cell _ _ _ _ _ Hev Hcu) as (cu' & Hcu' & ? & ? & ? & Hmono & _).
  exists cu'. do 4 (split; [done|]). split.
  - intros Hr'. destruct (Revealed cu) eqn:Hru; [by left|right].
    assert (∃ p, region b (x, y) p ∧ adj8 p (u, v)) as (p & Hp & Hadj).
    { destruct (RevealCellRec_sound _ _ _ _ _ _ _ _ _ _ Hrun Hcu Hru Hcu' Hr')
        as [[= -> ->]|?]; [|done].
      exists (x, y). split; [by split|apply adj8_refl]. }
    pose proof (countsOK_zero b p (u, v) cu Hwf Hok (region_zero _ _ _ Hp) Hadj Hcu)
      as Hmu.
    destruct (decide (AdjMines cu = 0)) as [Hzu|Hnz].
    + left. eapply region_maximal; [done..|]. by exists cu.
    + right. split; [by eauto|]. by exists cu.
  - intros [?|[Hreg|[Hnear _]]]; [auto|..].
    + destruct (RevealCellRec_complete _ _ _ _ _ _ u v _ _ Hrun Hwf Hcl Hc Hm Hz Hcu)
        as (cu'' & ? & ?); [|congruence].
      exists (u, v). split; [done|apply adj8_refl].
    + destruct (RevealCellRec_complete _ _ _ _ _ _ u v _ _ Hrun Hwf Hcl Hc Hm Hz Hcu)
        as (cu'' & ? & ?); [done|congruence].
Qed.

Lemma flood_fill_exact_witness :
  reachable sampleBoard ∧ isValidCell sampleBoard 0 0 = true ∧
  cellAt sampleBoard 0 0 = Ok zeroCell ∧
  ∃ b',
    RevealCell 0 0 sampleBoard = Ok (false, b') ∧
    Width b' = Width sampleBoard ∧ Height b' = Height sampleBoard ∧
    ∀ u v cu, cellAt sampleBoard u v = Ok cu →
      ∃ cu', cellAt b' u v = Ok cu' ∧
        IsMine cu' = IsMine cu ∧ AdjMines cu' = AdjMines cu ∧
        Flagged cu' = Flagged cu ∧
        (Revealed cu' = true ↔
         Revealed cu = true ∨ region sampleBoard (0, 0) (u, v) ∨
         border sampleBoard (0, 0) (u, v)).
Proof.
  assert (isValidCell sampleBoard 0 0 = true) as Hv by (vm_compute; reflexivity).
  assert (cellAt sampleBoard 0 0 = Ok zeroCell) as Hc by (vm_compute; reflexivity).
  split; [exact sampleBoard_reachable|]. do 2 (split; [done|]).
  exact (flood_fill_exact sampleBoard 0 0 zeroCell sampleBoard_reachable
           Hv Hc eq_refl eq_refl eq_refl).
Defined.

(** Why [flood_fill_exact] speaks of the boards of a session: on
    [gapBoard], a well-formed board with the right counts that no session
    produces, [RevealCell] at [(0, 0)] stops at the revealed cell [(1, 0)],
    and [(2, 0)], which is in the region of [(0, 0)], stays unrevealed. *)
Remark flood_fill_needs_session :
  ¬ ∀ (b : Board) (x y : Z) (c : Cell),
      wf b → countsOK b →
      isValidCell b x y = true → cellAt b x y = Ok c →
      Revealed c = false → IsMine c = false → AdjMines c = 0 →
      ∃ b',
        RevealCell x y b = Ok (false, b') ∧
        ∀ u v cu, cellAt b u v = Ok cu →
          ∃ cu', cellAt b' u v = Ok cu' ∧
            (Revealed cu' = true ↔
             Revealed cu = true ∨ region b (x, y) (u, v) ∨ border b (x, y) (u, v)).
Proof.
  intros H.
  destruct (H gapBoard 0 0 zeroCell gapBoard_wf gapBoard_countsOK)
    as (b' & Hrun & Hcells); try (vm_compute; reflexivity).
  vm_compute in Hrun. injection Hrun as <-.
  destruct (Hcells 2 0 zeroCell) as (cu' & Hcu' & Hiff); [vm_compute; reflexivity|].
  vm_compute in Hcu'. injection Hcu' as <-.
  assert (false = true) as Habs; [|done].
  apply Hiff. right. left. exact gapBoard_region.
Qed.

Lemma cellsRel_Forall2 R b b' :
  wf b → wf b' → cellsRel R b b' → Forall2 (Forall2 R) (Cells b) (Cells b').
Proof.
  intros [Hh Hw] [Hh' Hw'] (Ew & Eh & Hcells).
  apply Forall2_same_length_lookup. split; [lia|].
  intros j row row' Hrow Hrow'.
  pose proof (Hw _ (list_elem_of_lookup_2 _ _ _ Hrow)).
  pose proof (Hw' _ (list_elem_of_lookup_2 _ _ _ Hrow')).
  apply Forall2_same_length_lookup. split; [lia|].
  intros i c c' Hc Hc'. specialize (Hcells (Z.of_nat i) (Z.of_nat j)).
  rewrite (proj2 (cellAt_Ok b _ _ c)), (proj2 (cellAt_Ok b' _ _ c')) in Hcells;
    [done|rewrite !Nat2Z.id; split; [lia|split; [lia|eauto]]..].
Qed.

Lemma Forall2_fmap_eq {A B} (R : A → A → Prop) (f : A → B) l k :
  (∀ a a', R a a' → f a' = f a) → Forall2 R l k → f <$> k = f <$> l.
Proof. intros Hf. induction 1; csimpl; [done|]. f_equal; auto. Qed.

Lemma countCells_cellsRel R p b b' :
  (∀ c c', R c c' → p c' = p c) →
  wf b → wf b' → cellsRel R b b' → countCells p b' = countCells p b.
Proof.
  intros Hp Hwf Hwf' Hrel. unfold countCells. f_equal.
  apply (Forall2_fmap_eq (Forall2 R)); [|by apply cellsRel_Forall2].
  intros row row' Hrows. induction Hrows as [|c c' row row' Hc _ IH]; [done|].
  rewrite !filter_cons, (Hp _ _ Hc). case_decide; simpl; by rewrite IH.
Qed.

(** * The claims on construction *)

(** C2, amended.  For positive dimensions whose product times 5 fits an
    [int], [NewBoard] returns a board, and the number of its hazard cells is
    [min(mines, floor(width*height*5/9))] when that is not negative, and 0
    when it is. *)
Theorem hazard_count (rnd : nat → nat) (width height mines : Z) :
  0 < width → 0 < height → width * height * 5 ≤ max_int →
  ∃ b, NewBoard rnd width height mines = Ok b ∧
       Z.of_nat (mineCount b) =
       Z.max 0 (Z.min mines (width * height * 5 / 9)).
Proof.
  intros Hw Hh Hfit.
  assert (wf (emptyBoard width height)) as Hwf0 by (apply emptyBoard_wf; lia).
  destruct (placeMines_count rnd mines (emptyBoard width height))
    as (b1 & Hplace & Hcount); simpl; try lia; try done.
  { intros x y c ->%emptyBoard_cell. done. }
  destruct (placeMines_inv _ _ _ _ Hplace Hwf0) as (Hwf1 & _).
  { intros x y c ->%emptyBoard_cell. done. }
  destruct (calculateAdjMines_spec b1 Hwf1) as (b & Hb & Hwf & Hwb & Hhb & Hcells).
  exists b. split.
  - apply NewBoard_Ok. split; [lia|]. split; [lia|]. eauto.
  - change (Z.max 0 (Z.min mines (width * height * 5 / 9))) with
      (effectiveMines (Width (emptyBoard width height))
                      (Height (emptyBoard width height)) mines).
    rewrite <-Hcount. unfold mineCount. f_equal.
    apply (countCells_cellsRel (λ c c', IsMine c' = IsMine c)); try done.
    do 2 (split; [done|]). intros x y.
    destruct (cellAt b1 x y) as [c| |] eqn:Hc.
    + rewrite (Hcells _ _ _ Hc). simpl. unfold withCount.
      by destruct (IsMine c) eqn:E.
    + destruct (cellAt b x y) as [c'| |] eqn:Hc'; [|done|].
      * apply cellAt_valid in Hc'; [|done].
        unfold isValidCell in Hc'. rewrite Hwb, Hhb in Hc'.
        destruct (valid_cellAt _ _ _ Hwf1 Hc'). congruence.
      * by destruct (cellAt_no_Timeout b x y).
    + by destruct (cellAt_no_Timeout b1 x y).
Qed.

Lemma hazard_count_witness :
  (0 < 3 ∧ 0 < 3 ∧ 3 * 3 * 5 ≤ max_int) ∧
  ∃ b, NewBoard rnd0 3 3 5 = Ok b ∧
       Z.of_nat (mineCount b) = Z.max 0 (Z.min 5 (3 * 3 * 5 / 9)).
Proof.
  assert (0 < 3) as H1 by lia. assert (3 * 3 * 5 ≤ max_int) as H2 by (by vm_compute).
  split; [done|]. exact (hazard_count rnd0 3 3 5 H1 H1 H2).
Defined.

(** C2 as the claim states it, for every requested count: refuted at 3 by 3
    cells and -1 requested.  The loop that places the hazards does not run
    and the board has 0 hazards, not [min(-1, 5) = -1]. *)
Lemma hazard_count_counterexample :
  ¬ ∀ (rnd : nat → nat) (width height mines : Z) (b : Board),
      0 < width → 0 < height →
      NewBoard rnd width height mines = Ok b →
      Z.of_nat (mineCount b) = Z.min mines (width * height * 5 / 9).
Proof.
  intros H.
  assert (NewBoard rnd0 3 3 (-1) = Ok negBoard) as Hnew by (vm_compute; reflexivity).
  specialize (H rnd0 3 3 (-1) negBoard ltac:(lia) ltac:(lia) Hnew).
  vm_compute in H. discriminate H.
Qed.

Lemma CheckWin_cellsRel R b b2 :
  (∀ c c', R c c' →
     IsMine c' = IsMine c ∧ (IsMine c = false → Revealed c' = Revealed c)) →
  cellsRel R b b2 → CheckWin b2 = CheckWin b.
Proof.
  intros HR Hrel. destruct (CheckWin b) eqn:E.
  - apply CheckWin_true. intros x y c2 Hc2 Hm2.
    destruct (cellsRel_cell_inv _ _ _ _ _ _ Hrel Hc2) as (c & Hc & [Hm Hs]%HR).
    rewrite Hm in Hm2. rewrite (Hs Hm2).
    by eapply (proj1 (CheckWin_true b)).
  - apply CheckWin_false. apply CheckWin_false in E as (x & y & c & Hc & Hm & Hr).
    destruct (cellsRel_cell _ _ _ _ _ _ Hrel Hc) as (c2 & Hc2 & [Hm2 Hs]%HR).
    exists x, y, c2. split; [done|]. split; [congruence|]. rewrite (Hs Hm). done.
Qed.

Lemma FlagCell_sim R x y b1 b2 :
  (∀ c c', R c c' → Revealed c' = Revealed c) →
  (∀ c c', R c c' → R (toggleFlagged c) (toggleFlagged c')) →
  wf b1 → cellsRel R b1 b2 →
  ∃ b1' b2', FlagCell x y b1 = Ok b1' ∧ FlagCell x y b2 = Ok b2' ∧
             cellsRel R b1' b2'.
Proof.
  intros HR Ht Hwf Hrel. unfold FlagCell.
  rewrite (cellsRel_valid _ _ _ x y Hrel).
  destruct (isValidCell b1 x y) eqn:Hv; simpl; [|eauto].
  destruct (valid_cellAt _ _ _ Hwf Hv) as [c1 Hc1].
  destruct (cellsRel_cell _ _ _ _ _ _ Hrel Hc1) as (c2 & Hc2 & Hc).
  rewrite Hc1, Hc2. simpl. rewrite (HR _ _ Hc).
  destruct (Revealed c1); [eauto|].
  destruct (cellAt_updCell toggleFlagged _ _ _ _ Hc1) as [b1' Hb1'].
  destruct (cellsRel_updCell _ _ _ _ _ _ _ Ht Hrel Hb1') as (b2' & Hb2' & Hrel').
  rewrite Hb1', Hb2'. eauto.
Qed.

(** C3. After construction every safe cell stores the number of hazard
    cells of the board at Chebyshev distance 1 of it.  And the count stored
    in a hazard cell is never read: on two well-formed boards that differ
    only in the counts of hazard cells, [CheckWin], [PrintBoard] and
    [PrintBoardDebug] give the same result, and [RevealCell] and [FlagCell]
    return alike and leave boards that again differ only there. *)
Theorem adjacency_counts (rnd : nat → nat) (width height mines : Z) (b : Board) :
  NewBoard rnd width height mines = Ok b →
  (∀ x y c, cellAt b x y = Ok c → IsMine c = false →
     AdjMines c = Z.of_nat (hazardNeighbours b x y)) ∧
  (∀ b1 b2 x y showMines,
     wf b1 → wf b2 → cellsRel sameButHazardCount b1 b2 →
     CheckWin b2 = CheckWin b1 ∧
     PrintBoard showMines b2 = PrintBoard showMines b1 ∧
     PrintBoardDebug b2 = PrintBoardDebug b1 ∧
     (∃ r b1' b2',
        RevealCell x y b1 = Ok (r, b1') ∧ RevealCell x y b2 = Ok (r, b2') ∧
        cellsRel sameButHazardCount b1' b2') ∧
     (∃ b1' b2',
        FlagCell x y b1 = Ok b1' ∧ FlagCell x y b2 = Ok b2' ∧
        cellsRel sameButHazardCount b1' b2')).
Proof.
  intros Hnew. split; [by apply NewBoard_spec in Hnew as (_ & _ & _ & ? & _)|].
  clear. intros b1 b2 x y showMines Hwf1 Hwf2 Hrel.
  pose proof (cellsRel_Forall2 _ _ _ Hwf1 Hwf2 Hrel) as Hrows.
  split; [|split; [|split; [|split]]].
  - apply (CheckWin_cellsRel sameButHazardCount); [|done].
    intros c c' (? & ? & _). auto.
  - unfold PrintBoard.
    apply (Forall2_fmap_eq (Forall2 sameButHazardCount)); [|done].
    intros row row' Hrow. f_equal.
    apply (Forall2_fmap_eq sameButHazardCount); [|done].
    intros c c' (-> & -> & -> & Ha).
    destruct (Revealed c), (IsMine c) eqn:E; try done. by rewrite Ha.
  - unfold PrintBoardDebug.
    apply (Forall2_fmap_eq (Forall2 sameButHazardCount)); [|done].
    intros row row' Hrow. f_equal.
    apply (Forall2_fmap_eq sameButHazardCount); [|done].
    intros c c' (-> & _ & _ & Ha).
    destruct (IsMine c) eqn:E; [done|]. by rewrite Ha.
  - destruct (RevealCell_total x y b1 Hwf1) as (r & b1' & Hrun1).
    assert (∀ c1 c2, sameButHazardCount c1 c2 → Revealed c1 = Revealed c2) as HA
      by (by intros ?? (_ & ? & _)).
    assert (∀ c1 c2, sameButHazardCount c1 c2 → IsMine c1 = IsMine c2) as HB
      by (by intros ?? (? & _)).
    assert (∀ c1 c2, sameButHazardCount c1 c2 → IsMine c1 = false →
                     AdjMines c1 = AdjMines c2) as HC.
    { intros ?? (_ & _ & _ & Ha) Hm. by rewrite Ha. }
    assert (∀ c1 c2, sameButHazardCount c1 c2 →
                     sameButHazardCount (setRevealed c1) (setRevealed c2)) as HD
      by (by intros ?? (? & ? & ? & ?)).
    destruct (RevealCellRec_sim sameButHazardCount HA HB HC HD
                _ _ _ _ _ _ _ Hrel Hrun1) as (b2' & Hrun2 & Hrel').
    apply RevealCell_of_fuel in Hrun2; [|done]. eauto 10.
  - apply FlagCell_sim; try done.
    + by intros ?? (_ & ? & _).
    + intros ?? (? & ? & ? & ?). unfold sameButHazardCount. simpl.
      split; [done|]. split; [done|]. split; [congruence|done].
Qed.

Lemma adjacency_counts_witness :
  NewBoard rnd0 4 4 2 = Ok sampleBoard ∧
  AdjMines (mkCell false 2 false false) = Z.of_nat (hazardNeighbours sampleBoard 2 3) ∧
  (wf sampleBoard ∧ wf recountedBoard ∧
   cellsRel sameButHazardCount sampleBoard recountedBoard) ∧
  CheckWin recountedBoard = CheckWin sampleBoard ∧
  PrintBoard true recountedBoard = PrintBoard true sampleBoard ∧
  PrintBoardDebug recountedBoard = PrintBoardDebug sampleBoard ∧
  (∃ r b1' b2',
     RevealCell 1 3 sampleBoard = Ok (r, b1') ∧
     RevealCell 1 3 recountedBoard = Ok (r, b2') ∧
     cellsRel sameButHazardCount b1' b2') ∧
  (∃ b1' b2',
     FlagCell 1 3 sampleBoard = Ok b1' ∧ FlagCell 1 3 recountedBoard = Ok b2' ∧
     cellsRel sameButHazardCount b1' b2').
Proof.
  pose proof (adjacency_counts rnd0 4 4 2 sampleBoard sampleBoard_new) as [H1 H2].
  split; [exact sampleBoard_new|]. split.
  - apply (H1 2 3); [vm_compute; reflexivity|reflexivity].
  - split; [exact (conj sampleBoard_wf (conj recountedBoard_wf recountedBoard_rel))|].
    exact (H2 sampleBoard recountedBoard 1 3 true
             sampleBoard_wf recountedBoard_wf recountedBoard_rel).
Defined.

(** * Further properties of the code *)

(** ** Guards and counts *)

(** X1. On a well-formed board [isValidCell] is exact as the guard of
    [b.Cells[y][x]]: where it holds the index is in range, and where it
    fails the index panics. *)
Theorem isValidCell_guards (b : Board) (x y : Z) :
  wf b →
  (isValidCell b x y = true → ∃ c, cellAt b x y = Ok c) ∧
  (isValidCell b x y = false → cellAt b x y = Panic).
Proof.
  intros Hwf. split; [by apply valid_cellAt|]. intros Hv.
  pose proof (cellAt_no_Timeout b x y).
  destruct (cellAt b x y) as [c| |] eqn:Hc; [|done..].
  rewrite (cellAt_valid _ _ _ _ Hwf Hc) in Hv. done.
Qed.

Lemma isValidCell_guards_witness :
  wf sampleBoard ∧
  (∃ c, cellAt sampleBoard 3 3 = Ok c) ∧ cellAt sampleBoard 4 3 = Panic ∧
  cellAt sampleBoard 0 (-1) = Panic.
Proof.
  split; [exact sampleBoard_wf|]. split; [|split].
  - exact (proj1 (isValidCell_guards sampleBoard 3 3 sampleBoard_wf) eq_refl).
  - exact (proj2 (isValidCell_guards sampleBoard 4 3 sampleBoard_wf) eq_refl).
  - exact (proj2 (isValidCell_guards sampleBoard 0 (-1) sampleBoard_wf) eq_refl).
Defined.

(** X2. On a well-formed board [countAdjMines] returns at any coordinates,
    in bounds or not; its result lies between 0 and 8 and is the number of
    hazard cells of the board at Chebyshev distance 1 of [(x, y)]. *)
Theorem countAdjMines_range (b : Board) (x y : Z) :
  wf b →
  ∃ n, countAdjMines b x y = Ok n ∧ 0 ≤ n ≤ 8 ∧
       n = Z.of_nat (hazardNeighbours b x y).
Proof.
  intros Hwf. exists (Z.of_nat (adjCount b x y)).
  split; [by apply countAdjMines_spec|].
  split; [|by rewrite adjCount_hazardNeighbours].
  assert (adjCount b x y < length offsetPairs)%nat as Hlt.
  { unfold adjCount. apply length_filter_lt with (0, 0).
    - by apply elem_of_offsetPairs.
    - by intros [? _]. }
  rewrite offsetPairs_eq in Hlt. simpl in Hlt. lia.
Qed.

Lemma countAdjMines_range_witness :
  wf sampleBoard ∧
  (∃ n, countAdjMines sampleBoard 2 3 = Ok n ∧ 0 ≤ n ≤ 8 ∧
        n = Z.of_nat (hazardNeighbours sampleBoard 2 3)) ∧
  (∃ n, countAdjMines sampleBoard (-1) 4 = Ok n ∧ 0 ≤ n ≤ 8 ∧
        n = Z.of_nat (hazardNeighbours sampleBoard (-1) 4)).
Proof.
  split; [exact sampleBoard_wf|]. split.
  - exact (countAdjMines_range sampleBoard 2 3 sampleBoard_wf).
  - exact (countAdjMines_range sampleBoard (-1) 4 sampleBoard_wf).
Defined.

Lemma cellAt_same_valid b1 b2 x y :
  wf b1 → wf b2 → Width b2 = Width b1 → Height b2 = Height b1 →
  (∀ c1, cellAt b1 x y = Ok c1 → cellAt b2 x y = Ok c1) →
  cellAt b2 x y = cellAt b1 x y.
Proof.
  intros Hwf1 Hwf2 Hw Hh H. apply cellAt_eq. intros c. split; [|apply H].
  intros Hc2. pose proof (cellAt_valid _ _ _ _ Hwf2 Hc2) as Hv.
  unfold isValidCell in Hv. rewrite Hw, Hh in Hv.
  destruct (valid_cellAt _ _ _ Hwf1 Hv) as [c1 Hc1].
  rewrite (H _ Hc1) in Hc2. congruence.
Qed.

(** X3. On any well-formed board, whatever counts it holds,
    [calculateAdjMines] returns; it leaves the hazard cells as they are,
    changes only [AdjMines] of the safe cells, to the number of hazard
    cells around, and running it once more changes nothing. *)
Theorem calculateAdjMines_idempotent (b : Board) :
  wf b →
  ∃ b1,
    calculateAdjMines b = Ok b1 ∧ calculateAdjMines b1 = Ok b1 ∧
    Width b1 = Width b ∧ Height b1 = Height b ∧
    ∀ x y c, cellAt b x y = Ok c →
      ∃ c1, cellAt b1 x y = Ok c1 ∧
        IsMine c1 = IsMine c ∧ Revealed c1 = Revealed c ∧
        Flagged c1 = Flagged c ∧
        (IsMine c = true → c1 = c) ∧
        (IsMine c = false → AdjMines c1 = Z.of_nat (hazardNeighbours b x y)).
Proof.
  intros Hwf.
  destruct (calculateAdjMines_spec b Hwf) as (b1 & Hb1 & Hwf1 & Hw1 & Hh1 & Hcells1).
  destruct (calculateAdjMines_spec b1 Hwf1) as (b2 & Hb2 & Hwf2 & Hw2 & Hh2 & Hcells2).
  assert (∀ x y, mineAt b1 x y = mineAt b x y) as Hmines.
  { intros x y. unfold mineAt.
    destruct (cellAt b x y) as [c| |] eqn:Hc.
    - rewrite (Hcells1 _ _ _ Hc). unfold withCount. by destruct (IsMine c) eqn:E.
    - destruct (cellAt b1 x y) as [c1| |] eqn:Hc1; [|done..].
      apply cellAt_valid in Hc1; [|done]. unfold isValidCell in Hc1.
      rewrite Hw1, Hh1 in Hc1. destruct (valid_cellAt _ _ _ Hwf Hc1). congruence.
    - by destruct (cellAt_no_Timeout b x y). }
  assert (∀ x y, adjCount b1 x y = adjCount b x y) as Hcount.
  { intros x y. unfold adjCount. f_equal. apply list_filter_iff.
    intros [i j]. by rewrite Hmines. }
  assert (b2 = b1) as ->.
  { apply board_ext; [done|done|congruence|congruence|].
    intros x y. apply cellAt_same_valid; [done|done|congruence|congruence|].
    intros c1 Hc1. rewrite (Hcells2 _ _ _ Hc1). f_equal.
    destruct (valid_cellAt b x y Hwf) as [c Hc].
    { apply cellAt_valid in Hc1; [|done]. unfold isValidCell in *.
      by rewrite <-Hw1, <-Hh1. }
    rewrite (Hcells1 _ _ _ Hc) in Hc1. injection Hc1 as <-.
    unfold withCount. destruct (IsMine c) eqn:Hm; simpl; rewrite Hm; [done|].
    by rewrite Hcount. }
  exists b1. do 4 (split; [done|]). intros x y c Hc.
  exists (withCount b x y c). split; [auto|]. unfold withCount.
  destruct (IsMine c) eqn:Hm; simpl; repeat split; try done.
  intros _. by rewrite adjCount_hazardNeighbours.
Qed.

Lemma calculateAdjMines_idempotent_witness :
  wf recountedBoard ∧
  ∃ b1,
    calculateAdjMines recountedBoard = Ok b1 ∧ calculateAdjMines b1 = Ok b1 ∧
    Width b1 = Width recountedBoard ∧ Height b1 = Height recountedBoard ∧
    ∀ x y c, cellAt recountedBoard x y = Ok c →
      ∃ c1, cellAt b1 x y = Ok c1 ∧
        IsMine c1 = IsMine c ∧ Revealed c1 = Revealed c ∧
        Flagged c1 = Flagged c ∧
        (IsMine c = true → c1 = c) ∧
        (IsMine c = false →
         AdjMines c1 = Z.of_nat (hazardNeighbours recountedBoard x y)).
Proof.
  split; [exact recountedBoard_wf|].
  exact (calculateAdjMines_idempotent recountedBoard recountedBoard_wf).
Defined.

(** ** Construction *)

Lemma forM_preserves_indexed {A S} (I : list A → S → Prop) (l : list A)
    (body : A → S → res S) s s' :
  I [] s →
  (∀ done a s s', I done s → body a s = Ok s' → I (done ++ [a]) s') →
  forM l body s = Ok s' → I l s'.
Proof.
  intros H0 Hstep.
  cut (∀ rest done s, l = done ++ rest → I done s →
         forM rest body s = Ok s' → I l s').
  { intros H. by apply (H l []). }
  induction rest as [|a rest IH]; intros done s1 -> HI Hrun; simpl in Hrun.
  - injection Hrun as <-. by rewrite app_nil_r.
  - apply rbind_Ok in Hrun as (s2 & Hs2 & Hrun).
    apply (IH (done ++ [a]) s2); [by rewrite <-app_assoc|by eauto|done].
Qed.

(** X4. Whatever the random source and the request, when [placeMines]
    returns on a well-formed board it has kept the dimensions and every
    cell, but for [IsMine] that it may have set: it clears no hazard, touches
    no other field, and sets at most [mines] new hazards. *)
Theorem placeMines_frame (rnd : nat → nat) (mines : Z) (b0 b1 : Board) :
  wf b0 → placeMines rnd mines b0 = Ok b1 →
  wf b1 ∧ Width b1 = Width b0 ∧ Height b1 = Height b0 ∧
  (∀ x y c, cellAt b0 x y = Ok c →
     ∃ c1, cellAt b1 x y = Ok c1 ∧ (c1 = c ∨ c1 = setMine c)) ∧
  (mineCount b0 ≤ mineCount b1 ≤ mineCount b0 + Z.to_nat mines)%nat.
Proof.
  intros Hwf. unfold placeMines. case_bool_decide; [done|].
  intros (positions & _ & Hloop)%rbind_Ok.
  set (m := if bool_decide (mines > wrap (wrap (Width b0 * Height b0) * 5) `quot` 9)
            then wrap (wrap (Width b0 * Height b0) * 5) `quot` 9 else mines) in *.
  assert (Z.to_nat m ≤ Z.to_nat mines)%nat as Hm.
  { unfold m. case_bool_decide; lia. }
  apply (forM_preserves_indexed
    (λ (done : list Z) b,
       wf b ∧ Width b = Width b0 ∧ Height b = Height b0 ∧
       cellsRel (λ c c', c' = c ∨ c' = setMine c) b0 b ∧
       (mineCount b0 ≤ mineCount b ≤ mineCount b0 + length done)%nat))
    in Hloop.
  - destruct Hloop as (? & ? & ? & Hrel & Hcount). do 3 (split; [done|]). split.
    + intros x y c Hc. by apply (cellsRel_cell _ _ _ _ _ _ Hrel).
    + rewrite length_seqZ in Hcount. lia.
  - split; [done|]. do 2 (split; [done|]). split; [|simpl; lia].
    apply cellsRel_refl. auto.
  - intros done i b b' (Hwfb & Hw & Hh & Hrel & Hcount) ([x y] & _ & Hupd)%rbind_Ok.
    split; [by eapply updCell_wf|].
    split; [by rewrite (updCell_Width _ _ _ _ _ Hupd)|].
    split; [by rewrite (updCell_Height _ _ _ _ _ Hupd)|].
    destruct (updCell_old _ _ _ _ _ Hupd) as (c & Hc & Hc'). split.
    + eapply cellsRel_trans; [|exact Hrel|].
      * intros c1 c2 c3 [-> | ->] [-> | ->]; auto.
      * apply (updCell_cellsRel _ setMine x y); auto.
    + pose proof (countCells_updCell IsMine _ _ _ _ _ _ Hupd Hc) as Hcc.
      simpl in Hcc. rewrite length_app. simpl. unfold mineCount in *.
      destruct (IsMine c); simpl in Hcc; lia.
Qed.

Lemma placeMines_frame_witness :
  (wf (emptyBoard 3 2) ∧ placeMines rnd0 2 (emptyBoard 3 2) = Ok minedBoard) ∧
  wf minedBoard ∧ Width minedBoard = 3 ∧ Height minedBoard = 2 ∧
  (∀ x y c, cellAt (emptyBoard 3 2) x y = Ok c →
     ∃ c1, cellAt minedBoard x y = Ok c1 ∧ (c1 = c ∨ c1 = setMine c)) ∧
  (mineCount (emptyBoard 3 2) ≤ mineCount minedBoard
   ≤ mineCount (emptyBoard 3 2) + Z.to_nat 2)%nat.
Proof.
  assert (wf (emptyBoard 3 2)) as Hwf
    by (apply (bool_decide_eq_true_1 _); vm_compute; reflexivity).
  assert (placeMines rnd0 2 (emptyBoard 3 2) = Ok minedBoard) as Hrun
    by (vm_compute; reflexivity).
  split; [exact (conj Hwf Hrun)|].
  exact (placeMines_frame rnd0 2 (emptyBoard 3 2) minedBoard Hwf Hrun).
Defined.

Lemma calculateAdjMines_rel b1 b :
  wf b1 → calculateAdjMines b1 = Ok b →
  wf b ∧
  cellsRel (λ c c', IsMine c' = IsMine c ∧ Revealed c' = Revealed c ∧
                    Flagged c' = Flagged c) b1 b.
Proof.
  intros Hwf1 Hb.
  destruct (calculateAdjMines_spec b1 Hwf1) as (b' & Hb' & Hwf & Hwb & Hhb & Hcells).
  assert (b' = b) as -> by congruence. split; [done|].
  do 2 (split; [done|]). intros x y.
  destruct (cellAt b1 x y) as [c| |] eqn:Hc.
  - rewrite (Hcells _ _ _ Hc). simpl. unfold withCount.
    by destruct (IsMine c) eqn:E.
  - destruct (cellAt b x y) as [c'| |] eqn:Hc'; [|done|].
    + apply cellAt_valid in Hc'; [|done].
      unfold isValidCell in Hc'. rewrite Hwb, Hhb in Hc'.
      destruct (valid_cellAt _ _ _ Hwf1 Hc'). congruence.
    + by destruct (cellAt_no_Timeout b x y).
  - by destruct (cellAt_no_Timeout b1 x y).
Qed.

Lemma NewBoard_mineCount rnd width height mines :
  0 ≤ width → 0 ≤ height → width * height * 5 ≤ max_int →
  ∃ b, NewBoard rnd width height mines = Ok b ∧
       Z.of_nat (mineCount b) = effectiveMines width height mines.
Proof.
  intros Hw Hh Hfit.
  assert (wf (emptyBoard width height)) as Hwf0 by (apply emptyBoard_wf; auto).
  destruct (placeMines_count rnd mines (emptyBoard width height))
    as (b1 & Hplace & Hcount); simpl; try done.
  { intros x y c ->%emptyBoard_cell. done. }
  destruct (placeMines_inv _ _ _ _ Hplace Hwf0) as (Hwf1 & _).
  { intros x y c ->%emptyBoard_cell. done. }
  destruct (calculateAdjMines_spec b1 Hwf1) as (b & Hb & _).
  destruct (calculateAdjMines_rel b1 b Hwf1 Hb) as (Hwf & Hrel).
  exists b. split.
  - apply NewBoard_Ok. split; [lia|]. split; [by right|]. eauto.
  - simpl in Hcount. rewrite <-Hcount. unfold mineCount. f_equal.
    apply (countCells_cellsRel _ _ _ _ (λ c c' H, proj1 H) Hwf1 Hwf Hrel).
Qed.

Lemma makeSlice_neg {A} (zero : A) n : n < 0 → makeSlice zero n = Panic.
Proof. intros H. unfold makeSlice. by rewrite bool_decide_eq_true_2. Qed.

Lemma makeSlice_nonneg {A} (zero : A) n :
  0 ≤ n → makeSlice zero n = Ok (replicate (Z.to_nat n) zero).
Proof. intros H. unfold makeSlice. by rewrite bool_decide_eq_false_2 by lia. Qed.

Lemma NewBoard_Panic rnd width height mines :
  height < 0 ∨ (0 < height ∧ width < 0) →
  NewBoard rnd width height mines = Panic.
Proof.
  intros H. unfold NewBoard.
  destruct H as [Hh|[Hh Hw]].
  - by rewrite (makeSlice_neg [] height Hh).
  - rewrite (makeSlice_nonneg [] height) by lia. cbn [mbind res_bind].
    rewrite length_replicate.
    destruct (Z.to_nat height) as [|n] eqn:En; [lia|].
    simpl. by rewrite (makeSlice_neg zeroCell width Hw).
Qed.

Lemma countCells_all p b :
  wf b → (∀ x y c, cellAt b x y = Ok c → p c = true) →
  countCells p b = (length (Cells b) * Z.to_nat (Width b))%nat.
Proof.
  intros [Hh Hw] Hall. unfold countCells.
  rewrite (sum_list_fmap_same (Z.to_nat (Width b))); [done|].
  apply Forall_forall. intros row Hrow.
  pose proof (Hw row Hrow) as Hlen.
  assert (filter (λ c, p c = true) row = row) as ->; [|lia].
  assert (∀ c, c ∈ row → p c = true) as Hrowp.
  { intros c Hc. destruct (cell_of_row _ _ _ Hrow Hc) as (x & y & Hxy). eauto. }
  clear Hrow Hlen. induction row as [|c row IH]; [done|].
  rewrite filter_cons_True by (apply Hrowp; by left).
  f_equal. apply IH. intros c' Hc'. apply Hrowp. by right.
Qed.

(** X5. [NewBoard] panics for a negative height, and for a negative width
    when there is a row to make.  For dimensions that are not negative (and
    whose product times 5 fits an [int]) it returns a well-formed board of
    these dimensions with every cell unrevealed and unflagged, and with the
    default count 0 in its hazard cells. *)
Theorem NewBoard_edges (rnd : nat → nat) (width height mines : Z) :
  (height < 0 ∨ (0 < height ∧ width < 0) →
   NewBoard rnd width height mines = Panic) ∧
  (0 ≤ width → 0 ≤ height → width * height * 5 ≤ max_int →
   ∃ b, NewBoard rnd width height mines = Ok b ∧
        wf b ∧ Width b = width ∧ Height b = height ∧
        ∀ x y c, cellAt b x y = Ok c →
          Revealed c = false ∧ Flagged c = false ∧
          (IsMine c = true → AdjMines c = 0)).
Proof.
  split; [apply NewBoard_Panic|]. intros Hw Hh Hfit.
  destruct (NewBoard_mineCount rnd width height mines Hw Hh Hfit) as (b & Hb & _).
  exists b. split; [done|].
  apply NewBoard_spec in Hb as (? & ? & ? & _ & ?). auto.
Qed.

Lemma NewBoard_edges_witness :
  NewBoard rnd0 3 (-1) 2 = Panic ∧ NewBoard rnd0 (-3) 2 0 = Panic ∧
  ∃ b, NewBoard rnd0 0 2 5 = Ok b ∧
       wf b ∧ Width b = 0 ∧ Height b = 2 ∧
       ∀ x y c, cellAt b x y = Ok c →
         Revealed c = false ∧ Flagged c = false ∧
         (IsMine c = true → AdjMines c = 0).
Proof.
  split; [|split].
  - apply (proj1 (NewBoard_edges rnd0 3 (-1) 2)). left. lia.
  - apply (proj1 (NewBoard_edges rnd0 (-3) 2 0)). right. lia.
  - apply (proj2 (NewBoard_edges rnd0 0 2 5)); unfold max_int; lia.
Defined.

(** X6. A new game is won from the start exactly when its board has no
    cell: for positive dimensions [CheckWin] is [false] on the board that
    [NewBoard] returns, since the cap leaves a safe cell and no cell is
    revealed; for a width or a height of 0 it is [true]. *)
Theorem NewBoard_CheckWin (rnd : nat → nat) (width height mines : Z) (b : Board) :
  0 ≤ width → 0 ≤ height → width * height * 5 ≤ max_int →
  NewBoard rnd width height mines = Ok b →
  CheckWin b = bool_decide (width = 0 ∨ height = 0).
Proof.
  intros Hw Hh Hfit Hnew.
  destruct (NewBoard_mineCount rnd width height mines Hw Hh Hfit)
    as (b' & Hb' & Hcount).
  assert (b' = b) as -> by congruence. clear Hb'.
  pose proof Hnew as (Hwf & Hwb & Hhb & _ & Hcells)%NewBoard_spec.
  case_bool_decide as Hdim.
  - apply CheckWin_true. intros x y c Hc _.
    apply cellAt_valid, isValidCell_true in Hc; [|done]. lia.
  - destruct (CheckWin b) eqn:Hwin; [|done]. exfalso.
    assert (∀ x y c, cellAt b x y = Ok c → IsMine c = true) as Hall.
    { intros x y c Hc. destruct (IsMine c) eqn:Hm; [done|].
      pose proof (proj1 (CheckWin_true b) Hwin _ _ _ Hc Hm) as Hr.
      destruct (Hcells _ _ _ Hc) as (Hr' & _). congruence. }
    pose proof (countCells_all IsMine b Hwf Hall) as Htotal.
    fold (mineCount b) in Htotal. destruct Hwf as [Hlen _].
    assert (effectiveMines width height mines = height * width) as Heff.
    { rewrite <-Hcount, Htotal. lia. }
    unfold effectiveMines in Heff.
    assert (width * height * 5 / 9 < width * height).
    { apply Z.div_lt_upper_bound; nia. }
    nia.
Qed.

Lemma NewBoard_CheckWin_witness :
  (0 ≤ 4 ∧ 0 ≤ 4 ∧ 4 * 4 * 5 ≤ max_int ∧ NewBoard rnd0 4 4 2 = Ok sampleBoard) ∧
  CheckWin sampleBoard = bool_decide (4 = 0 ∨ 4 = 0).
Proof.
  assert (0 ≤ 4) as H0 by lia.
  assert (4 * 4 * 5 ≤ max_int) as H1 by (unfold max_int; lia).
  split; [exact (conj H0 (conj H0 (conj H1 sampleBoard_new)))|].
  exact (NewBoard_CheckWin rnd0 4 4 2 sampleBoard H0 H0 H1 sampleBoard_new).
Defined.

(** ** Sessions *)

Lemma CheckWin_keeps b b' :
  cellsRel keeps b b' → CheckWin b = true → CheckWin b' = true.
Proof.
  intros Hrel Hwin. apply CheckWin_true. intros x y c' Hc' Hm'.
  destruct (cellsRel_cell_inv _ _ _ _ _ _ Hrel Hc') as (c & Hc & Hm & _ & Hr).
  apply Hr. apply (proj1 (CheckWin_true b) Hwin x y c Hc). congruence.
Qed.

(** X7. On a well-formed board any sequence of [RevealCell], [FlagCell] and
    [CheckWin] calls returns; it keeps the board well formed, its
    dimensions, [IsMine] and [AdjMines] of every cell and so the number of
    hazards; and a game that is won stays won. *)
Theorem session_preserves (b : Board) (ops : list Op) :
  wf b →
  ∃ b',
    runOps ops b = Ok b' ∧ wf b' ∧
    Width b' = Width b ∧ Height b' = Height b ∧
    mineCount b' = mineCount b ∧
    (∀ x y c, cellAt b x y = Ok c →
       ∃ c', cellAt b' x y = Ok c' ∧ IsMine c' = IsMine c ∧
             AdjMines c' = AdjMines c) ∧
    (CheckWin b = true → CheckWin b' = true).
Proof.
  intros Hwf. destruct (runOps_total ops b Hwf) as (b' & Hrun & Hwf' & Hrel).
  exists b'. do 2 (split; [done|]).
  split; [apply Hrel|]. split; [apply Hrel|]. split; [|split].
  - apply (countCells_cellsRel keeps); try done. by intros c c' (? & _).
  - intros x y c Hc.
    destruct (cellsRel_cell _ _ _ _ _ _ Hrel Hc) as (c' & ? & ? & ? & _). eauto.
  - by apply CheckWin_keeps.
Qed.

Lemma session_preserves_witness :
  wf sampleBoard ∧
  ∃ b',
    runOps [OpFlag 1 3; OpReveal 0 0; OpCheckWin; OpReveal 1 3; OpReveal 9 9]
      sampleBoard = Ok b' ∧ wf b' ∧
    Width b' = Width sampleBoard ∧ Height b' = Height sampleBoard ∧
    mineCount b' = mineCount sampleBoard ∧
    (∀ x y c, cellAt sampleBoard x y = Ok c →
       ∃ c', cellAt b' x y = Ok c' ∧ IsMine c' = IsMine c ∧
             AdjMines c' = AdjMines c) ∧
    (CheckWin sampleBoard = true → CheckWin b' = true).
Proof.
  split; [exact sampleBoard_wf|].
  exact (session_preserves sampleBoard
           [OpFlag 1 3; OpReveal 0 0; OpCheckWin; OpReveal 1 3; OpReveal 9 9]
           sampleBoard_wf).
Defined.

(** X8. Only a reveal that returns [false] can change the answer of
    [CheckWin]: on a well-formed board a reveal that hits a hazard leaves
    it as it was, and so does [FlagCell], which also keeps the number of
    unrevealed cells. *)
Theorem CheckWin_unchanged (b b' : Board) (x y : Z) :
  wf b →
  (RevealCell x y b = Ok (true, b') → CheckWin b' = CheckWin b) ∧
  (FlagCell x y b = Ok b' →
   CheckWin b' = CheckWin b ∧ unrevealed b' = unrevealed b).
Proof.
  intros Hwf. split.
  - intros Hrun. unfold RevealCell in Hrun.
    destruct (RevealCellRec_S (unrevealed b) x y b)
      as [| | |c b1 Hv Hc Hr Hb1 Hm| |]; try congruence.
    + injection Hrun as <-.
      apply (CheckWin_cellsRel (λ c c', IsMine c' = IsMine c ∧
               (IsMine c = false → Revealed c' = Revealed c))); [auto|].
      split; [by eapply updCell_Width|]. split; [by eapply updCell_Height|].
      intros u v. destruct (decide ((u, v) = (x, y))) as [[= -> ->]|Hne].
      * rewrite Hc, (updCell_same _ _ _ _ _ _ Hb1 Hc). simpl.
        split; [done|]. congruence.
      * rewrite (updCell_other _ _ _ _ _ _ _ Hb1 Hne). apply resRel_refl. auto.
    + by apply rbind_Ok in Hrun as (? & _ & [=]).
  - intros Hflag.
    destruct (FlagCell_cellsRel x y b b'
      (λ c c', IsMine c' = IsMine c ∧ Revealed c' = Revealed c))
      as (Hwf' & Hrel); try done.
    split.
    + apply (CheckWin_cellsRel _ _ _ (λ c c' H, conj (proj1 H) (λ _, proj2 H)) Hrel).
    + apply (countCells_cellsRel _ _ _ _
               (λ c c' H, f_equal negb (proj2 H)) Hwf Hwf' Hrel).
Qed.

Lemma CheckWin_unchanged_witness :
  wf sampleBoard ∧
  ∃ b1 b2,
    RevealCell 1 3 sampleBoard = Ok (true, b1) ∧
    CheckWin b1 = CheckWin sampleBoard ∧
    FlagCell 2 2 sampleBoard = Ok b2 ∧
    CheckWin b2 = CheckWin sampleBoard ∧ unrevealed b2 = unrevealed sampleBoard.
Proof.
  split; [exact sampleBoard_wf|]. eexists _, _.
  assert (∀ b1 (H : RevealCell 1 3 sampleBoard = Ok (true, b1)),
            RevealCell 1 3 sampleBoard = Ok (true, b1) ∧
            CheckWin b1 = CheckWin sampleBoard) as H1.
  { intros b1 H. split; [exact H|].
    exact (proj1 (CheckWin_unchanged sampleBoard b1 1 3 sampleBoard_wf) H). }
  assert (∀ b2 (H : FlagCell 2 2 sampleBoard = Ok b2),
            FlagCell 2 2 sampleBoard = Ok b2 ∧
            CheckWin b2 = CheckWin sampleBoard ∧
            unrevealed b2 = unrevealed sampleBoard) as H2.
  { intros b2 H. split; [exact H|].
    exact (proj2 (CheckWin_unchanged sampleBoard b2 2 2 sampleBoard_wf) H). }
  split; [|split]; [apply H1| |apply H2]; [|apply H1|]; vm_compute; reflexivity.
Defined.

Lemma runOps_cons op ops b :
  runOps (op :: ops) b = b1 ← runOp op b; runOps ops b1.
Proof. done. Qed.

(** X9. The game can be won: on a well-formed board, revealing the cells of
    any list that holds every safe cell, in any order and with whatever
    other coordinates, returns and leaves a board on which [CheckWin] is
    [true]. *)
Theorem reveal_all_safe_wins (b : Board) (l : list (Z * Z)) :
  wf b →
  (∀ x y c, cellAt b x y = Ok c → IsMine c = false → (x, y) ∈ l) →
  ∃ b', runOps ((λ p, OpReveal p.1 p.2) <$> l) b = Ok b' ∧ CheckWin b' = true.
Proof.
  intros Hwf Hl.
  destruct (runOps_total ((λ p, OpReveal p.1 p.2) <$> l) b Hwf)
    as (b' & Hrun & Hwf' & Hrel).
  exists b'. split; [done|]. apply CheckWin_true. intros x y c' Hc' Hm'.
  destruct (cellsRel_cell_inv _ _ _ _ _ _ Hrel Hc') as (c & Hc & Hm & _).
  assert ((x, y) ∈ l) as Hin by (apply (Hl x y c Hc); congruence).
  clear Hl Hrel Hm Hm' c Hc. revert b Hwf Hrun.
  induction l as [|[u v] l IH]; intros b Hwf Hrun; [by apply elem_of_nil in Hin|].
  rewrite fmap_cons, runOps_cons in Hrun. simpl in Hrun.
  apply rbind_Ok in Hrun as (b1 & ([r b1'] & Hreveal & [= ->])%rbind_Ok & Hrest).
  pose proof (RevealCellRec_evolves _ _ _ _ _ _ Hreveal) as Hev.
  assert (wf b1) as Hwf1 by (by apply Hev).
  apply elem_of_cons in Hin as [[= <- <-]|Hin]; [|by eauto].
  destruct (runOps_total ((λ p, OpReveal p.1 p.2) <$> l) b1 Hwf1)
    as (b2 & Hrun2 & _ & Hrel2).
  assert (b2 = b') as -> by congruence.
  assert (isValidCell b x y = true) as Hv.
  { apply cellAt_valid in Hc'; [|done]. unfold isValidCell in *.
    destruct Hrel2 as (-> & -> & _) in Hc'. destruct Hev as (-> & -> & _) in Hc'.
    done. }
  destruct (RevealCellRec_target _ _ _ _ _ _ Hreveal Hv) as (c1 & Hc1 & Hr1).
  destruct (cellsRel_cell _ _ _ _ _ _ Hrel2 Hc1) as (c2 & Hc2 & _ & _ & Hr2).
  assert (c2 = c') as -> by congruence. auto.
Qed.

Lemma reveal_all_safe_wins_witness :
  (wf gapBoard ∧
   ∀ x y c, cellAt gapBoard x y = Ok c → IsMine c = false →
            (x, y) ∈ [(2, 0); (7, 7); (0, 0); (1, 0)]) ∧
  ∃ b', runOps ((λ p, OpReveal p.1 p.2) <$> [(2, 0); (7, 7); (0, 0); (1, 0)])
          gapBoard = Ok b' ∧
        CheckWin b' = true.
Proof.
  assert (∀ x y c, cellAt gapBoard x y = Ok c → IsMine c = false →
                   (x, y) ∈ [(2, 0); (7, 7); (0, 0); (1, 0)]) as Hl.
  { intros x y c Hc _.
    destruct (gapBoard_cells _ _ _ Hc) as (-> & [[-> _]|[[-> _]|[-> _]]]);
      set_solver. }
  split; [exact (conj gapBoard_wf Hl)|].
  exact (reveal_all_safe_wins gapBoard [(2, 0); (7, 7); (0, 0); (1, 0)]
           gapBoard_wf Hl).
Defined.

Lemma countCells_zero_inv p b x y c :
  countCells p b = 0%nat → cellAt b x y = Ok c → p c = false.
Proof.
  intros Hzero (row & Hrow & Hc)%row_of_cell.
  assert (length (filter (λ c, p c = true) row) = 0%nat) as Hlen.
  { unfold countCells in Hzero. revert Hzero Hrow. clear.
    induction (Cells b) as [|r rows IH]; intros Hzero Hrow.
    - by apply elem_of_nil in Hrow.
    - csimpl in Hzero. apply elem_of_cons in Hrow as [->|Hrow]; [lia|].
      apply IH; [lia|done]. }
  destruct (p c) eqn:Hp; [|done].
  assert (c ∈ filter (λ c, p c = true) row) as Hin
    by (by apply list_elem_of_filter).
  destruct (filter _ row); [by apply elem_of_nil in Hin|done].
Qed.

(** On a board whose cells are all safe with count 0, every cell is in the
    region of every cell. *)
Lemma region_all_zero b x y u v :
  (∀ p q, isValidCell b p q = true → zeroAt b (p, q)) →
  isValidCell b x y = true → isValidCell b u v = true →
  region b (x, y) (u, v).
Proof.
  intros Hzero Hxy.
  remember (Z.to_nat (Z.abs (u - x) + Z.abs (v - y))) as n eqn:Hn.
  revert u v Hn. induction n as [n IH] using lt_wf_ind. intros u v Hn Huv.
  destruct (decide ((u, v) = (x, y))) as [[= -> ->]|Hne].
  { split; [by apply Hzero|apply rtc_refl]. }
  set (u' := if decide (u < x) then u + 1 else if decide (x < u) then u - 1 else u).
  set (v' := if decide (v < y) then v + 1 else if decide (y < v) then v - 1 else v).
  apply isValidCell_true in Hxy as Hxy', Huv as Huv'.
  assert (u ≠ x ∨ v ≠ y) as Hdiff.
  { destruct (decide (u = x)) as [->|]; [right|by left]. congruence. }
  assert (isValidCell b u' v' = true) as Hv'.
  { apply isValidCell_true. unfold u', v'. repeat case_decide; lia. }
  apply region_maximal with (u', v').
  - apply (IH (Z.to_nat (Z.abs (u' - x) + Z.abs (v' - y)))); [|done|done].
    subst n. unfold u', v'. repeat case_decide; lia.
  - unfold adj8, u', v'; simpl. repeat case_decide; lia.
  - by apply Hzero.
Qed.

(** X10. Where [NewBoard] places no hazard (none requested, or a cap of
    0), the first reveal at any cell of the board wins: it returns [false],
    reveals every cell, and [CheckWin] is [true] afterwards. *)
Theorem first_reveal_wins_without_hazards
    (rnd : nat → nat) (width height mines : Z) (b : Board) (x y : Z) :
  0 < width → 0 < height → width * height * 5 ≤ max_int →
  Z.min mines (width * height * 5 / 9) ≤ 0 →
  NewBoard rnd width height mines = Ok b → isValidCell b x y = true →
  ∃ b', RevealCell x y b = Ok (false, b') ∧ CheckWin b' = true ∧
        unrevealed b' = 0%nat.
Proof.
  intros Hw Hh Hfit Hnone Hnew Hv.
  destruct (NewBoard_mineCount rnd width height mines) as (b0 & Hb0 & Hcount);
    [lia..|].
  assert (b0 = b) as -> by congruence. clear Hb0.
  assert (mineCount b = 0%nat) as Hmines by (unfold effectiveMines in Hcount; lia).
  pose proof Hnew as (Hwf & Hwb & Hhb & Hok & Hfresh)%NewBoard_spec.
  assert (∀ p q c, cellAt b p q = Ok c → IsMine c = false) as Hsafe.
  { intros p q c Hc. by eapply (countCells_zero_inv IsMine). }
  assert (∀ p q, isValidCell b p q = true → zeroAt b (p, q)) as Hzero.
  { intros p q Hpq. destruct (valid_cellAt _ _ _ Hwf Hpq) as [c Hc].
    exists c. split; [done|]. split; [by eapply Hsafe|].
    rewrite (Hok _ _ _ Hc) by (by eapply Hsafe).
    unfold hazardNeighbours.
    destruct (filter _ _) as [|[u v] l] eqn:Hf; [done|exfalso].
    assert ((u, v) ∈ filter (λ q0, chebyshev (p, q) q0 = 1 ∧
                                  mineAt b q0.1 q0.2 = true) (allPositions b))
      as ([_ Hm] & _)%list_elem_of_filter by (rewrite Hf; by left).
    unfold mineAt in Hm. simpl in Hm.
    destruct (cellAt b u v) as [cu| |] eqn:Hcu; [|done..].
    rewrite (Hsafe _ _ _ Hcu) in Hm. done. }
  assert (closed b) as Hcl.
  { apply closed_unrevealed. intros p q c Hc. by apply (Hfresh p q). }
  destruct (valid_cellAt _ _ _ Hwf Hv) as [c Hc].
  destruct (Hzero x y Hv) as (c0 & Hc0 & Hm & Hz). simpl in Hc0.
  assert (c0 = c) as -> by congruence.
  destruct (RevealCell_total x y b Hwf) as (r & b' & Hrun).
  assert (r = false) as ->.
  { unfold RevealCell in Hrun.
    destruct (RevealCellRec_S (unrevealed b) x y b); same_lhs; try congruence.
    by apply rbind_Ok in Hrun as (? & _ & [=]). }
  pose proof (RevealCellRec_evolves _ _ _ _ _ _ Hrun) as Hev.
  assert (∀ u v c', cellAt b' u v = Ok c' → Revealed c' = true) as Hall.
  { intros u v c' Hc'.
    destruct (evolves_cell_inv _ _ _ _ _ Hev Hc') as (cu & Hcu & _).
    destruct (RevealCellRec_complete _ _ _ _ _ _ u v _ _ Hrun Hwf Hcl Hc Hm Hz Hcu)
      as (c'' & ? & ?); [|congruence].
    exists (u, v). split; [|apply adj8_refl].
    apply region_all_zero; [done..|by eapply cellAt_valid]. }
  exists b'. split; [done|]. split.
  - apply CheckWin_true. eauto.
  - apply countCells_none. intros u v c' Hc'. by rewrite (Hall _ _ _ Hc').
Qed.

Lemma first_reveal_wins_without_hazards_witness :
  (0 < 3 ∧ 0 < 3 ∧ 3 * 3 * 5 ≤ max_int ∧ Z.min (-1) (3 * 3 * 5 / 9) ≤ 0 ∧
   NewBoard rnd0 3 3 (-1) = Ok negBoard ∧ isValidCell negBoard 2 1 = true) ∧
  ∃ b', RevealCell 2 1 negBoard = Ok (false, b') ∧ CheckWin b' = true ∧
        unrevealed b' = 0%nat.
Proof.
  assert (0 < 3) as H0 by lia.
  assert (3 * 3 * 5 ≤ max_int) as H1 by (unfold max_int; lia).
  assert (Z.min (-1) (3 * 3 * 5 / 9) ≤ 0) as H2 by (vm_compute; discriminate).
  assert (NewBoard rnd0 3 3 (-1) = Ok negBoard) as H3 by (vm_compute; reflexivity).
  assert (isValidCell negBoard 2 1 = true) as H4 by (vm_compute; reflexivity).
  split; [exact (conj H0 (conj H0 (conj H1 (conj H2 (conj H3 H4)))))|].
  exact (first_reveal_wins_without_hazards rnd0 3 3 (-1) negBoard 2 1
           H0 H0 H1 H2 H3 H4).
Defined.

(** ** Printing *)

(** X11. [PrintBoard] with [showMines = false] prints one line for each
    row and shows of an unrevealed cell nothing but its flag: two
    well-formed boards whose cells look alike, whatever hazards and counts
    lie under their unrevealed cells, are printed the same. *)
Theorem PrintBoard_hides (b1 b2 : Board) :
  wf b1 → wf b2 → cellsRel looksAlike b1 b2 →
  PrintBoard false b2 = PrintBoard false b1 ∧
  length (PrintBoard false b1) = length (Cells b1).
Proof.
  intros Hwf1 Hwf2 Hrel. split; [|unfold PrintBoard; by rewrite length_fmap].
  unfold PrintBoard.
  apply (Forall2_fmap_eq (Forall2 looksAlike)); [|by apply cellsRel_Forall2].
  intros row row' Hrow. f_equal.
  apply (Forall2_fmap_eq looksAlike); [|done].
  intros c c' [-> H]. destruct (Revealed c).
  - destruct H as [-> Ha]. destruct (IsMine c); [done|]. by rewrite Ha.
  - by rewrite H.
Qed.

Lemma PrintBoard_hides_witness :
  (wf sampleBoard ∧ wf disguisedBoard ∧
   cellsRel looksAlike sampleBoard disguisedBoard) ∧
  PrintBoard false disguisedBoard = PrintBoard false sampleBoard ∧
  length (PrintBoard false sampleBoard) = length (Cells sampleBoard).
Proof.
  assert (wf disguisedBoard) as Hwf
    by (apply (bool_decide_eq_true_1 _); vm_compute; reflexivity).
  assert (cellsRel looksAlike sampleBoard disguisedBoard) as Hrel.
  { do 2 (split; [reflexivity|]). intros x y.
    destruct (cellAt sampleBoard x y) as [c| |] eqn:Hc.
    - pose proof (cellAt_valid _ _ _ _ sampleBoard_wf Hc) as Hv.
      apply isValidCell_true in Hv. simpl in Hv.
      assert (x = 0 ∨ x = 1 ∨ x = 2 ∨ x = 3) as Hx by lia.
      assert (y = 0 ∨ y = 1 ∨ y = 2 ∨ y = 3) as Hy by lia.
      destruct Hx as [-> | [-> | [-> | ->]]], Hy as [-> | [-> | [-> | ->]]];
        vm_compute in Hc; injection Hc as <-; vm_compute; auto.
    - destruct (cellAt disguisedBoard x y) as [c'| |] eqn:Hc'; [|done|].
      + apply (cellAt_valid _ _ _ _ Hwf) in Hc'.
        destruct (valid_cellAt sampleBoard x y sampleBoard_wf Hc'). congruence.
      + by destruct (cellAt_no_Timeout disguisedBoard x y).
    - by destruct (cellAt_no_Timeout sampleBoard x y). }
  split; [exact (conj sampleBoard_wf (conj Hwf Hrel))|].
  exact (PrintBoard_hides sampleBoard disguisedBoard sampleBoard_wf Hwf Hrel).
Defined.

Lemma unrevealed_zero_Forall b :
  unrevealed b = 0%nat → Forall (Forall (λ c, Revealed c = true)) (Cells b).
Proof.
  unfold unrevealed, countCells.
  induction (Cells b) as [|row rows IH]; csimpl; intros H; constructor.
  - assert (length (filter (λ c, negb (Revealed c) = true) row) = 0%nat) as Hrow
      by lia.
    clear -Hrow. induction row as [|c row IH]; constructor.
    + rewrite filter_cons in Hrow. destruct (Revealed c); [done|].
      by rewrite decide_True in Hrow.
    + apply IH. rewrite filter_cons in Hrow. case_decide; simpl in Hrow; lia.
  - apply IH. lia.
Qed.

(** X12. [PrintBoardDebug] prints the board under the covers: no session
    of [RevealCell], [FlagCell] and [CheckWin] calls changes a character of
    what it prints, and once every cell is revealed [PrintBoard] prints
    that same text, whatever [showMines]. *)
Theorem PrintBoardDebug_session (b b' : Board) (ops : list Op) :
  wf b → runOps ops b = Ok b' →
  PrintBoardDebug b' = PrintBoardDebug b ∧
  (unrevealed b' = 0%nat →
   ∀ showMines, PrintBoard showMines b' = PrintBoardDebug b).
Proof.
  intros Hwf Hrun.
  destruct (runOps_total ops b Hwf) as (b2 & Hrun2 & Hwf' & Hrel).
  assert (b2 = b') as -> by congruence.
  assert (PrintBoardDebug b' = PrintBoardDebug b) as Hsame.
  { unfold PrintBoardDebug.
    apply (Forall2_fmap_eq (Forall2 keeps)); [|by apply cellsRel_Forall2].
    intros row row' Hrow. f_equal.
    apply (Forall2_fmap_eq keeps); [|done].
    by intros c c' (-> & -> & _). }
  split; [done|]. intros Hzero showMines. rewrite <-Hsame.
  unfold PrintBoard, PrintBoardDebug.
  apply Forall_fmap_ext.
  eapply Forall_impl; [by apply unrevealed_zero_Forall|].
  intros row Hrow. simpl. f_equal. apply Forall_fmap_ext.
  eapply Forall_impl; [done|]. by intros c ->.
Qed.

Lemma PrintBoardDebug_session_witness :
  ∃ b',
    (wf sampleBoard ∧
     runOps [OpReveal 0 0; OpFlag 1 3; OpFlag 1 3; OpReveal 1 3; OpReveal 3 3]
       sampleBoard = Ok b') ∧
    PrintBoardDebug b' = PrintBoardDebug sampleBoard ∧
    (unrevealed b' = 0%nat →
     ∀ showMines, PrintBoard showMines b' = PrintBoardDebug sampleBoard).
Proof.
  eexists.
  assert (runOps [OpReveal 0 0; OpFlag 1 3; OpFlag 1 3; OpReveal 1 3; OpReveal 3 3]
            sampleBoard = Ok _) as Hrun by (vm_compute; reflexivity).
  split; [exact (conj sampleBoard_wf Hrun)|].
  exact (PrintBoardDebug_session sampleBoard _ _ sampleBoard_wf Hrun).
Defined.

(** ** The loop of [main] *)

Lemma reachable_step op b b' : reachable b → runOp op b = Ok b' → reachable b'.
Proof.
  intros (rnd & w & h & m & b0 & ops & Hnew & Hrun) Hop.
  exists rnd, w, h, m, b0, (ops ++ [op]). split; [done|].
  unfold runOps in *. rewrite forM_app, Hrun. simpl. by rewrite Hop.
Qed.

Section LoopProperties.
Variable Fields : string → list string.
Variable Atoi : string → option Z.

(** The ways an iteration of the loop can go: the line is rejected or
    empty and the board stays, or it is a quit, a reveal or a flag. *)
Lemma turn_cases input b :
  wf b →
  let out := PrintBoard false b ++ prompt in
  (∃ out', turn Fields Atoi input b = Ok (out ++ out', b, true)) ∨
  (∃ rest, Fields input = CmdQuit :: rest ∧
     turn Fields Atoi input b
     = Ok (out ++ PrintBoard true b ++ ["Quit game."], b, false)) ∨
  (∃ p1 p2 x y r b',
     Fields input = [CmdReveal; p1; p2] ∧ Atoi p1 = Some x ∧ Atoi p2 = Some y ∧
     isValidCell b (wrap (x - 1)) (wrap (y - 1)) = true ∧
     RevealCell (wrap (x - 1)) (wrap (y - 1)) b = Ok (r, b') ∧
     ∃ out', turn Fields Atoi input b
             = Ok (out ++ out', b', negb r && negb (CheckWin b'))) ∨
  (∃ p1 p2 x y b',
     Fields input = [CmdFlag; p1; p2] ∧ Atoi p1 = Some x ∧ Atoi p2 = Some y ∧
     isValidCell b (wrap (x - 1)) (wrap (y - 1)) = true ∧
     FlagCell (wrap (x - 1)) (wrap (y - 1)) b = Ok b' ∧
     ∃ out', turn Fields Atoi input b = Ok (out ++ out', b', true)).
Proof.
  intros Hwf out. unfold turn. fold out.
  assert (∀ (b' : Board) (again : bool),
            ∃ out', Ok (out, b', again) = Ok (out ++ out', b', again)) as Hnil
    by (intros; exists []; by rewrite app_nil_r).
  destruct (Fields input) as [|cmd rest] eqn:Hf; [left; by apply Hnil|].
  rewrite bool_decide_eq_false_2 by done.
  rewrite (proj2 (index_Ok (cmd :: rest) 0 cmd)) by (split; [lia|done]).
  cbn [mbind res_bind].
  case_bool_decide as Hquit; [right; left; subst cmd; by eauto|].
  destruct rest as [|p1 [|p2 [|p3 rest]]];
    try (rewrite bool_decide_eq_true_2 by (simpl; lia); left; eauto; fail).
  rewrite bool_decide_eq_false_2 by (simpl; lia).
  rewrite (proj2 (index_Ok [cmd; p1; p2] 1 p1)) by (split; [lia|done]).
  cbn [mbind res_bind].
  destruct (Atoi p1) as [x|] eqn:Hx; [|left; by eauto].
  rewrite (proj2 (index_Ok [cmd; p1; p2] 2 p2)) by (split; [lia|done]).
  cbn [mbind res_bind].
  destruct (Atoi p2) as [y|] eqn:Hy; [|left; by eauto]. cbv zeta.
  destruct (isValidCell b (wrap (x - 1)) (wrap (y - 1))) eqn:Hv; cbn [negb];
    [|left; by eauto].
  case_bool_decide as Hreveal.
  - right; right; left. subst cmd.
    destruct (RevealCell_total (wrap (x - 1)) (wrap (y - 1)) b Hwf) as (r & b' & Hrun).
    exists p1, p2, x, y, r, b'. do 5 (split; [done|]).
    rewrite Hrun. cbn [mbind res_bind].
    destruct r; [by eauto|]. destruct (CheckWin b'); [by eauto|apply Hnil].
  - case_bool_decide as Hflag; [|left; by eauto].
    right; right; right. subst cmd.
    destruct (FlagCell_total (wrap (x - 1)) (wrap (y - 1)) b Hwf) as (b' & Hb').
    exists p1, p2, x, y, b'. do 5 (split; [done|]). rewrite Hb'. apply Hnil.
Qed.

(** X13. An iteration of the loop of [main] on a well-formed board never
    panics, whatever the line read and whatever [strings.Fields] and
    [strconv.Atoi] make of it.  It prints the board and the prompt first,
    keeps the board well formed with its dimensions and its hazards, and
    changes the board by at most one call of [RevealCell] or [FlagCell], at
    coordinates that [isValidCell] accepts. *)
Theorem turn_safe (input : string) (b : Board) :
  wf b →
  ∃ out' b' again,
    turn Fields Atoi input b = Ok ((PrintBoard false b ++ prompt) ++ out', b', again) ∧
    wf b' ∧ Width b' = Width b ∧ Height b' = Height b ∧
    mineCount b' = mineCount b ∧
    (b' = b ∨
     ∃ x y, isValidCell b x y = true ∧
            ((∃ r, RevealCell x y b = Ok (r, b')) ∨ FlagCell x y b = Ok b')).
Proof.
  intros Hwf.
  assert (∀ op b', runOp op b = Ok b' →
            wf b' ∧ Width b' = Width b ∧ Height b' = Height b ∧
            mineCount b' = mineCount b) as Hop.
  { intros op b' Hrun.
    destruct (runOp_total op b Hwf) as (b2 & Hrun2 & Hwf2 & Hrel).
    assert (b2 = b') as -> by congruence.
    split; [done|]. split; [apply Hrel|]. split; [apply Hrel|].
    apply (countCells_cellsRel keeps); try done. by intros c c' (? & _). }
  destruct (turn_cases input b Hwf)
    as [[out' Ht] | [(rest & _ & Ht) | [H | H]]].
  - exists out', b, true. split; [done|]. auto 10.
  - exists (PrintBoard true b ++ ["Quit game."]), b, false. split; [done|]. auto 10.
  - destruct H as (p1 & p2 & x & y & r & b' & _ & _ & _ & Hv & Hrun & out' & Ht).
    exists out', b', (negb r && negb (CheckWin b')). split; [done|].
    destruct (Hop (OpReveal (wrap (x - 1)) (wrap (y - 1))) b')
      as (? & ? & ? & ?); [simpl; by rewrite Hrun|].
    do 4 (split; [done|]). right. exists (wrap (x - 1)), (wrap (y - 1)). eauto.
  - destruct H as (p1 & p2 & x & y & b' & _ & _ & _ & Hv & Hflag & out' & Ht).
    exists out', b', true. split; [done|].
    destruct (Hop (OpFlag (wrap (x - 1)) (wrap (y - 1))) b') as (? & ? & ? & ?);
      [done|].
    do 4 (split; [done|]). right. exists (wrap (x - 1)), (wrap (y - 1)). eauto.
Qed.

Lemma turn_quit input b rest :
  Fields input = CmdQuit :: rest →
  turn Fields Atoi input b
  = Ok ((PrintBoard false b ++ prompt) ++ PrintBoard true b ++ ["Quit game."],
        b, false).
Proof.
  intros Hf. unfold turn. rewrite Hf.
  rewrite bool_decide_eq_false_2 by done.
  rewrite (proj2 (index_Ok (CmdQuit :: rest) 0 CmdQuit)) by (split; [lia|done]).
  cbn [mbind res_bind]. by rewrite bool_decide_eq_true_2.
Qed.

Lemma turn_reveal input b p1 p2 x y r b' :
  Fields input = [CmdReveal; p1; p2] → Atoi p1 = Some x → Atoi p2 = Some y →
  isValidCell b (wrap (x - 1)) (wrap (y - 1)) = true →
  RevealCell (wrap (x - 1)) (wrap (y - 1)) b = Ok (r, b') →
  ∃ out, turn Fields Atoi input b = Ok (out, b', negb r && negb (CheckWin b')).
Proof.
  intros Hf Hx Hy Hv Hrun. unfold turn. rewrite Hf.
  rewrite bool_decide_eq_false_2 by done.
  rewrite (proj2 (index_Ok [CmdReveal; p1; p2] 0 CmdReveal)) by (split; [lia|done]).
  cbn [mbind res_bind]. rewrite bool_decide_eq_false_2 by done.
  rewrite bool_decide_eq_false_2 by (simpl; lia).
  rewrite (proj2 (index_Ok [CmdReveal; p1; p2] 1 p1)) by (split; [lia|done]).
  cbn [mbind res_bind]. rewrite Hx.
  rewrite (proj2 (index_Ok [CmdReveal; p1; p2] 2 p2)) by (split; [lia|done]).
  cbn [mbind res_bind]. rewrite Hy. cbv zeta. rewrite Hv. cbn [negb].
  rewrite bool_decide_eq_true_2 by done. rewrite Hrun. cbn [mbind res_bind].
  destruct r; [by eauto|]. destruct (CheckWin b'); by eauto.
Qed.

(** X14. The loop of [main] ends in exactly three ways.  On a well-formed
    board an iteration jumps to [End] if and only if the first field of the
    line is [quit], or the line is [reveal] with two numbers that name a
    cell of the board (1-based) and that call of [RevealCell] returned
    [true] or left a board on which [CheckWin] holds.  A flag, a rejected
    line and an empty line never end the game. *)
Theorem turn_stops_iff (input : string) (b b' : Board) (out : list string)
    (again : bool) :
  wf b →
  turn Fields Atoi input b = Ok (out, b', again) →
  again = false ↔
    (∃ rest, Fields input = CmdQuit :: rest) ∨
    (∃ p1 p2 x y r,
       Fields input = [CmdReveal; p1; p2] ∧ Atoi p1 = Some x ∧ Atoi p2 = Some y ∧
       isValidCell b (wrap (x - 1)) (wrap (y - 1)) = true ∧
       RevealCell (wrap (x - 1)) (wrap (y - 1)) b = Ok (r, b') ∧
       (r = true ∨ CheckWin b' = true)).
Proof.
  intros Hwf Ht. split.
  - intros ->.
    destruct (turn_cases input b Hwf)
      as [[out' Ht'] | [(rest & Hf & _) | [H | H]]].
    + congruence.
    + left. eauto.
    + destruct H as (p1 & p2 & x & y & r & b2 & Hf & Hx & Hy & Hv & Hrun & out' & Ht').
      right. exists p1, p2, x, y, r.
      assert (b2 = b') as -> by congruence.
      do 5 (split; [done|]).
      assert (negb r && negb (CheckWin b') = false) as Hstop by congruence.
      destruct r; [by left|]. destruct (CheckWin b'); [by right|done].
    + destruct H as (p1 & p2 & x & y & b2 & _ & _ & _ & _ & _ & out' & Ht').
      congruence.
  - intros [[rest Hf] | (p1 & p2 & x & y & r & Hf & Hx & Hy & Hv & Hrun & Hend)].
    + rewrite (turn_quit input b rest Hf) in Ht. congruence.
    + destruct (turn_reveal input b p1 p2 x y r b' Hf Hx Hy Hv Hrun) as [out' Ht'].
      assert (again = negb r && negb (CheckWin b')) as -> by congruence.
      destruct Hend as [-> | ->]; [done|]. by destruct r.
Qed.

(** The loop changes the board as a session of engine calls does. *)
Lemma turn_runOps input b :
  wf b →
  ∃ out b' again ops,
    turn Fields Atoi input b = Ok (out, b', again) ∧ runOps ops b = Ok b'.
Proof.
  intros Hwf.
  destruct (turn_cases input b Hwf)
    as [[out' Ht] | [(rest & _ & Ht) | [H | H]]].
  - by exists (((PrintBoard false b ++ prompt) ++ out')), b, true, [].
  - by eexists _, b, false, [].
  - destruct H as (p1 & p2 & x & y & r & b' & _ & _ & _ & _ & Hrun & out' & Ht).
    eexists _, b', _, [OpReveal (wrap (x - 1)) (wrap (y - 1))].
    split; [done|]. unfold runOps. simpl. by rewrite Hrun.
  - destruct H as (p1 & p2 & x & y & b' & _ & _ & _ & _ & Hflag & out' & Ht).
    eexists _, b', _, [OpFlag (wrap (x - 1)) (wrap (y - 1))].
    split; [done|]. unfold runOps. simpl. by rewrite Hflag.
Qed.

Lemma play_runOps inputs b :
  wf b →
  ∃ out b' again ops,
    play Fields Atoi inputs b = Ok (out, b', again) ∧ runOps ops b = Ok b'.
Proof.
  revert b. induction inputs as [|input inputs IH]; intros b Hwf.
  - by exists [], b, true, [].
  - destruct (turn_runOps input b Hwf) as (out & b1 & again & ops & Ht & Hops).
    simpl. rewrite Ht. cbn [mbind res_bind].
    destruct again; [|by exists out, b1, false, ops].
    destruct (runOps_total ops b Hwf) as (b1' & Hops' & Hwf1 & _).
    assert (b1' = b1) as -> by congruence.
    destruct (IH b1 Hwf1) as (out2 & b2 & again2 & ops2 & Hp & Hops2).
    rewrite Hp. cbn [mbind res_bind].
    exists (out ++ out2), b2, again2, (ops ++ ops2). split; [done|].
    unfold runOps in *. by rewrite forM_app, Hops.
Qed.

(** X15. [main] up to the label [End] never panics, whatever the random
    source and the lines read: [NewBoard] returns a 3 by 3 board and the
    loop runs through the input or to its end.  The board is then still 3
    by 3 and well formed, it holds exactly 5 hazards, and it is one that a
    session of [RevealCell], [FlagCell] and [CheckWin] calls reaches from
    [NewBoard]. *)
Theorem mainLoop_safe (rnd : nat → nat) (inputs : list string) :
  ∃ out b again,
    mainLoop Fields Atoi rnd inputs = Ok (out, b, again) ∧
    wf b ∧ Width b = 3 ∧ Height b = 3 ∧ mineCount b = 5%nat ∧ reachable b.
Proof.
  destruct (NewBoard_mineCount rnd 3 3 5) as (b0 & Hnew & Hcount);
    [lia|lia|unfold max_int; lia|].
  destruct (NewBoard_spec _ _ _ _ _ Hnew) as (Hwf0 & Hw0 & Hh0 & _).
  destruct (play_runOps inputs b0 Hwf0) as (out & b & again & ops & Hp & Hops).
  exists out, b, again. unfold mainLoop. rewrite Hnew. cbn [mbind res_bind].
  split; [done|].
  destruct (runOps_total ops b0 Hwf0) as (b' & Hops' & Hwf & Hrel).
  assert (b' = b) as -> by congruence.
  split; [done|]. split; [by rewrite (proj1 Hrel)|].
  split; [by rewrite (proj1 (proj2 Hrel))|]. split.
  - unfold mineCount in *. rewrite (countCells_cellsRel keeps IsMine b0 b); try done.
    + unfold effectiveMines in Hcount. change (3 * 3 * 5 / 9) with 5 in Hcount. lia.
    + by intros c c' (? & _).
  - by exists rnd, 3, 3, 5, b0, ops.
Qed.

(** X17. A line in which [strings.Fields] finds no field, such as an
    empty line, is skipped: the loop prints the board and the prompt once
    for each such line, leaves the board as it is and goes on, on any board
    and however many such lines follow one another. *)
Theorem play_blank (inputs : list string) (b : Board) :
  Forall (λ input, Fields input = []) inputs →
  play Fields Atoi inputs b
  = Ok (concat ((λ _, PrintBoard false b ++ prompt) <$> inputs), b, true).
Proof.
  induction 1 as [|input inputs Hf _ IH]; [done|].
  simpl. unfold turn at 1. rewrite Hf. simpl.
  by rewrite IH.
Qed.

End LoopProperties.

Lemma turn_safe_witness :
  wf sampleBoard ∧
  ∃ out' b' again,
    turn sampleFields sampleAtoi "flag 2  3" sampleBoard
    = Ok ((PrintBoard false sampleBoard ++ prompt) ++ out', b', again) ∧
    wf b' ∧ Width b' = Width sampleBoard ∧ Height b' = Height sampleBoard ∧
    mineCount b' = mineCount sampleBoard ∧
    (b' = sampleBoard ∨
     ∃ x y, isValidCell sampleBoard x y = true ∧
            ((∃ r, RevealCell x y sampleBoard = Ok (r, b')) ∨
             FlagCell x y sampleBoard = Ok b')).
Proof.
  split; [exact sampleBoard_wf|].
  exact (turn_safe sampleFields sampleAtoi "flag 2  3" sampleBoard sampleBoard_wf).
Defined.

Lemma turn_stops_iff_witness :
  ∃ out b',
    (wf sampleBoard ∧
     turn sampleFields sampleAtoi "reveal 2 4" sampleBoard = Ok (out, b', false)) ∧
    (false = false ↔
       (∃ rest, sampleFields "reveal 2 4" = CmdQuit :: rest) ∨
       (∃ p1 p2 x y r,
          sampleFields "reveal 2 4" = [CmdReveal; p1; p2] ∧
          sampleAtoi p1 = Some x ∧ sampleAtoi p2 = Some y ∧
          isValidCell sampleBoard (wrap (x - 1)) (wrap (y - 1)) = true ∧
          RevealCell (wrap (x - 1)) (wrap (y - 1)) sampleBoard = Ok (r, b') ∧
          (r = true ∨ CheckWin b' = true))).
Proof.
  eexists _, _.
  assert (turn sampleFields sampleAtoi "reveal 2 4" sampleBoard = Ok (_, _, false))
    as Ht by (vm_compute; reflexivity).
  split; [exact (conj sampleBoard_wf Ht)|].
  exact (turn_stops_iff sampleFields sampleAtoi "reveal 2 4" sampleBoard _ _ false
           sampleBoard_wf Ht).
Defined.

Lemma play_blank_witness :
  Forall (λ input, sampleFields input = []) [EmptyString; "   "] ∧
  play sampleFields sampleAtoi [EmptyString; "   "] sampleBoard
  = Ok (concat ((λ _, PrintBoard false sampleBoard ++ prompt) <$> [EmptyString; "   "]),
        sampleBoard, true).
Proof.
  assert (Forall (λ input, sampleFields input = []) [EmptyString; "   "]) as H
    by (repeat constructor).
  split; [exact H|].
  exact (play_blank sampleFields sampleAtoi [EmptyString; "   "] sampleBoard H).
Defined.
